(** * datacube.index._datasets: the dataset index

    A shallow embedding of [src/datacube/index/_datasets.py]
    ([MetadataTypeResource], [DatasetTypeResource], [DatasetResource]) and
    the properties its specification states about it.

    Python values are modelled as follows.
    - A document (a [dict] read from YAML/JSON) is a [doc] tree; a [dict] is
      an association list in insertion order with the usual item
      operations ([dict_get], [dict_set], [dict_del]).
    - An exception is a value of [exn]; a method is a function
      [World -> (exn + A) * World]: [inl e] when it raises [e], [inr a]
      when it returns [a], next to the state it leaves behind.
    - The state [World] holds the database ([PostgresDb]), the four
      [cachetools] caches of the decorated methods, the clock they read,
      and the [dict] objects that hold search queries. *)

From Stdlib Require Import ZArith Lia.
From stdpp Require Import base decidable option list strings relations.

Local Open Scope string_scope.
Local Open Scope Z_scope.
Local Open Scope list_scope.

(** ** Documents *)

#[local] Unset Elimination Schemes.
Inductive doc : Type :=
  | DNone
  | DBool (b : bool)
  | DInt (n : Z)
  | DStr (s : string)
  | DList (items : list doc)
  | DDict (entries : list (string * doc)).
#[local] Set Elimination Schemes.

Fixpoint doc_eqb (a b : doc) {struct a} : bool :=
  match a, b with
  | DNone, DNone => true
  | DBool x, DBool y => Bool.eqb x y
  | DInt x, DInt y => Z.eqb x y
  | DStr x, DStr y => String.eqb x y
  | DList xs, DList ys =>
      (fix items_eqb (xs ys : list doc) {struct xs} : bool :=
         match xs, ys with
         | [], [] => true
         | x :: xs', y :: ys' => doc_eqb x y && items_eqb xs' ys'
         | _, _ => false
         end) xs ys
  | DDict xs, DDict ys =>
      (fix entries_eqb (xs ys : list (string * doc)) {struct xs} : bool :=
         match xs, ys with
         | [], [] => true
         | (k, x) :: xs', (k', y) :: ys' =>
             String.eqb k k' && doc_eqb x y && entries_eqb xs' ys'
         | _, _ => false
         end) xs ys
  | _, _ => false
  end.

(** Structural induction on documents, through lists and dicts. *)
Fixpoint doc_ind (P : doc -> Prop)
    (HNone : P DNone) (HBool : forall b, P (DBool b))
    (HInt : forall n, P (DInt n)) (HStr : forall s, P (DStr s))
    (HList : forall items, Forall P items -> P (DList items))
    (HDict : forall entries, Forall (fun kv => P (snd kv)) entries ->
                             P (DDict entries))
    (d : doc) {struct d} : P d :=
  match d with
  | DNone => HNone
  | DBool b => HBool b
  | DInt n => HInt n
  | DStr s => HStr s
  | DList items =>
      HList items
        ((fix all (l : list doc) : Forall P l :=
            match l with
            | [] => List.Forall_nil P
            | x :: l' =>
                @List.Forall_cons _ P x l'
                  (doc_ind P HNone HBool HInt HStr HList HDict x) (all l')
            end) items)
  | DDict entries =>
      HDict entries
        ((fix all (l : list (string * doc))
            : Forall (fun kv => P (snd kv)) l :=
            match l with
            | [] => List.Forall_nil _
            | kv :: l' =>
                @List.Forall_cons _ (fun kv => P (snd kv)) kv l'
                  (doc_ind P HNone HBool HInt HStr HList HDict (snd kv))
                  (all l')
            end) entries)
  end.

Lemma doc_eqb_eq (a b : doc) : doc_eqb a b = true <-> a = b.
Proof.
  revert b. induction a as [| x | x | x | xs IH | xs IH] using doc_ind;
    intros [| y | y | y | ys | ys]; simpl; try (split; congruence).
  - rewrite Bool.eqb_true_iff. split; congruence.
  - rewrite Z.eqb_eq. split; congruence.
  - rewrite String.eqb_eq. split; congruence.
  - revert ys. induction IH as [| x xs Hx _ IHxs]; intros [| y ys];
      try (split; congruence).
    rewrite andb_true_iff, Hx, IHxs. split.
    + intros [-> H]. congruence.
    + intros H. injection H as -> ->. auto.
  - revert ys. induction IH as [| [k x] xs Hx _ IHxs]; intros [| [k' y] ys];
      try (split; congruence).
    simpl in Hx.
    rewrite !andb_true_iff, String.eqb_eq, Hx, IHxs. split.
    + intros [[-> ->] H]. congruence.
    + intros H. injection H as -> -> ->. auto.
Qed.

#[global] Instance doc_eq_dec : EqDecision doc.
Proof.
  intros a b. destruct (doc_eqb a b) eqn:E.
  - left. apply doc_eqb_eq, E.
  - right. intros H. apply doc_eqb_eq in H. congruence.
Defined.

(** ** Python [dict] as an association list in insertion order *)

Section Dict.
Context {V : Type}.

(** [d.get(k)]: the value under [k], or [None]. *)
Fixpoint dict_get (k : string) (d : list (string * V)) : option V :=
  match d with
  | [] => None
  | (k', v) :: rest => if String.eqb k k' then Some v else dict_get k rest
  end.

(** [k in d]. *)
Definition dict_mem (k : string) (d : list (string * V)) : bool :=
  match dict_get k d with Some _ => true | None => false end.

(** [d[k] = v]: overwrite in place, or append a new key. *)
Fixpoint dict_set (k : string) (v : V) (d : list (string * V))
  : list (string * V) :=
  match d with
  | [] => [(k, v)]
  | (k', v') :: rest =>
      if String.eqb k k' then (k', v) :: rest
      else (k', v') :: dict_set k v rest
  end.

(** [del d[k]] (for a key that is present). *)
Fixpoint dict_del (k : string) (d : list (string * V)) : list (string * V) :=
  match d with
  | [] => []
  | (k', v') :: rest =>
      if String.eqb k k' then rest else (k', v') :: dict_del k rest
  end.

(** [d.keys()], [d.values()]. *)
Definition dict_keys (d : list (string * V)) : list string := map fst d.
Definition dict_values (d : list (string * V)) : list V := map snd d.

(** [{k: v for k, v in pairs}]: later pairs overwrite earlier ones. *)
Definition dict_of_pairs (pairs : list (string * V)) : list (string * V) :=
  fold_left (fun d kv => dict_set (fst kv) (snd kv) d) pairs [].
End Dict.

(** ** Exceptions *)

Inductive exn : Type :=
  | KeyError (key : string)
  | TypeError (what : string)
  | AttributeError (what : string)
  | ValueError (msg : string)          (* "No type of dataset has fields" *)
  | RuntimeError (msg : string)
  | InvalidDocException (msg : string)
  (* raised by check_doc_unchanged; the message starts with the document's
     label, 'Metadata Type {}'.format(name) and the like, kept here as the
     text before the placeholder and the value formatted into it *)
  | ConflictError (label : string) (name : doc)
  | DuplicateRecordError (msg : string).

(** [d[k]] on a document. *)
Definition doc_getitem (d : doc) (k : string) : exn + doc :=
  match d with
  | DDict entries =>
      match dict_get k entries with
      | Some v => inr v
      | None => inl (KeyError k)
      end
  | _ => inl (TypeError "object is not subscriptable")
  end.

(** [d[k] = v] on a document. *)
Definition doc_setitem (d : doc) (k : string) (v : doc) : exn + doc :=
  match d with
  | DDict entries => inr (DDict (dict_set k v entries))
  | _ => inl (TypeError "object does not support item assignment")
  end.

(** Modelled from the spec: [dataset.type.dataset_reader(doc).sources] of
    [datacube.model], which is not under src/.  The reader gives access to
    the lineage sub-document of a metadata document; [DatasetResource.get]
    writes the same place as [doc['lineage']['source_datasets']]. *)
Definition reader_sources (metadata_doc : doc) : exn + doc :=
  match doc_getitem metadata_doc "lineage" with
  | inl e => inl e
  | inr lineage => doc_getitem lineage "source_datasets"
  end.

Definition reader_set_sources (metadata_doc : doc) (v : doc) : exn + doc :=
  match doc_getitem metadata_doc "lineage" with
  | inl e => inl e
  | inr lineage =>
      match doc_setitem lineage "source_datasets" v with
      | inl e => inl e
      | inr lineage' => doc_setitem metadata_doc "lineage" lineage'
      end
  end.

(** ** The model classes of [datacube.model] *)

(** Modelled from the spec: the classes [MetadataType], [DatasetType] and
    [Dataset] of [datacube.model] are not under src/.  The spec's data
    model gives their attributes; [id] is [None] for a type that was built
    from a document and not read back from the index. *)
Record Field : Type := mkField {
  field_name : string;
  field_offset : list string
}.

Record MetadataType : Type := mkMetadataType {
  mt_name : doc;
  mt_dataset : doc;
  dataset_fields : list (string * Field);
  mt_id : option Z
}.

Record DatasetType : Type := mkDatasetType {
  metadata_type : MetadataType;
  definition : doc;
  dt_id : option Z
}.

(** [type_.name] and [type_.metadata] read the definition document. *)
Definition dt_name (type_ : DatasetType) : exn + doc :=
  doc_getitem (definition type_) "name".
Definition dt_metadata (type_ : DatasetType) : exn + doc :=
  doc_getitem (definition type_) "metadata".

(** A dataset and, under [sources], the datasets it was derived from, one
    per classifier.  The value is a finite tree, so a dataset is never its
    own transitive source. *)
#[local] Unset Elimination Schemes.
Inductive Dataset : Type := mkDataset {
  ds_id : string;
  ds_type : DatasetType;
  metadata_doc : doc;
  local_uri : option string;
  sources : list (string * Dataset)
}.
#[local] Set Elimination Schemes.

Definition with_metadata_doc (dataset : Dataset) (d : doc) : Dataset :=
  mkDataset (ds_id dataset) (ds_type dataset) d (local_uri dataset)
            (sources dataset).

Definition with_sources (dataset : Dataset) (s : list (string * Dataset))
  : Dataset :=
  mkDataset (ds_id dataset) (ds_type dataset) (metadata_doc dataset)
            (local_uri dataset) s.

(** Every dataset reachable from [dataset] through [sources], nearest
    first within each branch. *)
Fixpoint descendants (dataset : Dataset) : list Dataset :=
  (fix of_sources (srcs : list (string * Dataset)) : list Dataset :=
     match srcs with
     | [] => []
     | (_, source) :: rest => source :: descendants source ++ of_sources rest
     end) (sources dataset).

(** ** The database *)

(** Modelled from the spec: [datacube.index.postgres._api.PostgresDb] is
    not under src/.  Its tables are lists of rows, oldest first. *)
Record MetadataTypeRow : Type := mkMetadataTypeRow {
  mtr_id : Z;
  mtr_name : doc;
  mtr_definition : doc
}.

Record DatasetTypeRow : Type := mkDatasetTypeRow {
  dtr_id : Z;
  dtr_name : doc;
  dtr_metadata : doc;
  dtr_metadata_type_ref : option Z;
  dtr_definition : doc
}.

Record DatasetRow : Type := mkDatasetRow {
  dsr_id : string;
  dsr_dataset_type_ref : option Z;
  dsr_metadata : doc;
  dsr_archived : bool
}.

Record SourceRow : Type := mkSourceRow {
  src_classifier : string;
  src_dataset_ref : string;
  src_source_dataset_ref : string
}.

Record LocationRow : Type := mkLocationRow {
  loc_dataset_ref : string;
  loc_uri : string
}.

Record PostgresDb : Type := mkPostgresDb {
  metadata_type_tbl : list MetadataTypeRow;
  dataset_type_tbl : list DatasetTypeRow;
  dataset_tbl : list DatasetRow;
  dataset_source_tbl : list SourceRow;
  dataset_location_tbl : list LocationRow
}.

(** A row as a query returns it: [get_dataset] and [search_datasets] leave
    the two arrays empty, [get_dataset_sources] fills them in parallel
    (a [None] source is the NULL of the outer join). *)
Record DatasetResult : Type := mkDatasetResult {
  res_id : string;
  res_dataset_type_ref : option Z;
  res_metadata : doc;
  res_local_uri : option string;
  res_sources : list (option string);
  res_classes : list string;
  res_fields : list (string * doc)
}.

(** ** Search queries *)

Inductive QueryValue : Type :=
  | QValue (v : doc)
  | QRange (low high : doc).

(** A [Range] is a named tuple, so as a plain value it is the pair. *)
Definition qv_doc (v : QueryValue) : doc :=
  match v with
  | QValue d => d
  | QRange lo hi => DList [lo; hi]
  end.

Definition Query : Type := list (string * QueryValue).

Record Expression : Type := mkExpression {
  expr_field : Field;
  expr_value : QueryValue
}.

(** ** The caches of [cachetools.cached(cachetools.TTLCache(100, 60))] *)

(** Modelled from the spec: [cachetools] is a library, not under src/.  A
    cache keeps at most [cache_maxsize] entries, most recently used first;
    an entry is served until the clock reaches its expiry time, and the
    least recently used entry makes room for a new one. *)
Record CacheEntry (K V : Type) : Type := mkCacheEntry {
  ce_key : K;
  ce_value : V;
  ce_expires : nat
}.
Arguments mkCacheEntry {K V} _ _ _.
Arguments ce_key {K V} _.
Arguments ce_value {K V} _.
Arguments ce_expires {K V} _.

Definition Cache (K V : Type) : Type := list (CacheEntry K V).

Definition cache_maxsize : nat := 100.
Definition cache_ttl : nat := 60.

Section CacheOps.
Context {K V : Type} `{EqDecision K}.

Definition entry_live (time : nat) (e : CacheEntry K V) : bool :=
  (time <? ce_expires e)%nat.

Definition entry_for (k : K) (e : CacheEntry K V) : bool :=
  bool_decide (ce_key e = k).

(** [cache[k]]: [None] stands for the [KeyError] of a miss. *)
Definition cache_getitem (time : nat) (k : K) (c : Cache K V)
  : option (V * Cache K V) :=
  match List.find (fun e => entry_for k e && entry_live time e) c with
  | Some e => Some (ce_value e,
                    e :: List.filter (fun e' => negb (entry_for k e')) c)
  | None => None
  end.

(** [cache[k] = v]. *)
Definition cache_setitem (time : nat) (k : K) (v : V) (c : Cache K V)
  : Cache K V :=
  let live :=
    List.filter (fun e => entry_live time e && negb (entry_for k e)) c in
  let room :=
    if (cache_maxsize <=? length live)%nat then removelast live else live in
  mkCacheEntry k v (time + cache_ttl)%nat :: room.
End CacheOps.

(** ** The state *)

(** What [DatasetResource.add] asks of the database, with the database as
    it is when asked.  The log is not program state: nothing reads it; it
    records the order of the writes for the theorems on ordering. *)
Inductive Event : Type :=
  | EvInsertDataset (dataset : Dataset) (at_db : PostgresDb)
  | EvInsertDatasetSource (classifier : string)
      (dataset source_dataset : Dataset) (at_db : PostgresDb).

Record World : Type := mkWorld {
  db : PostgresDb;
  (* the clock of the caches, in seconds *)
  now : nat;
  (* one cache per decorated method *)
  cache_metadata_type_get : Cache (option Z) MetadataType;
  cache_metadata_type_get_by_name : Cache doc (option MetadataType);
  cache_dataset_type_get : Cache (option Z) DatasetType;
  cache_dataset_type_get_by_name : Cache doc (option DatasetType);
  (* the dict objects that hold queries, by address *)
  heap : list Query;
  trace : list Event
}.

Definition set_db (d : PostgresDb) (w : World) : World :=
  mkWorld d (now w) (cache_metadata_type_get w)
    (cache_metadata_type_get_by_name w) (cache_dataset_type_get w)
    (cache_dataset_type_get_by_name w) (heap w) (trace w).

Definition set_cache_metadata_type_get c (w : World) : World :=
  mkWorld (db w) (now w) c
    (cache_metadata_type_get_by_name w) (cache_dataset_type_get w)
    (cache_dataset_type_get_by_name w) (heap w) (trace w).

Definition set_cache_metadata_type_get_by_name c (w : World) : World :=
  mkWorld (db w) (now w) (cache_metadata_type_get w)
    c (cache_dataset_type_get w)
    (cache_dataset_type_get_by_name w) (heap w) (trace w).

Definition set_cache_dataset_type_get c (w : World) : World :=
  mkWorld (db w) (now w) (cache_metadata_type_get w)
    (cache_metadata_type_get_by_name w) c
    (cache_dataset_type_get_by_name w) (heap w) (trace w).

Definition set_cache_dataset_type_get_by_name c (w : World) : World :=
  mkWorld (db w) (now w) (cache_metadata_type_get w)
    (cache_metadata_type_get_by_name w) (cache_dataset_type_get w)
    c (heap w) (trace w).

Definition set_heap (h : list Query) (w : World) : World :=
  mkWorld (db w) (now w) (cache_metadata_type_get w)
    (cache_metadata_type_get_by_name w) (cache_dataset_type_get w)
    (cache_dataset_type_get_by_name w) h (trace w).

Definition set_trace (t : list Event) (w : World) : World :=
  mkWorld (db w) (now w) (cache_metadata_type_get w)
    (cache_metadata_type_get_by_name w) (cache_dataset_type_get w)
    (cache_dataset_type_get_by_name w) (heap w) t.

(** Time passing between two calls. *)
Definition tick (seconds : nat) (w : World) : World :=
  mkWorld (db w) (now w + seconds)%nat (cache_metadata_type_get w)
    (cache_metadata_type_get_by_name w) (cache_dataset_type_get w)
    (cache_dataset_type_get_by_name w) (heap w) (trace w).

(** ** Methods: state and exceptions *)

Definition M (A : Type) : Type := World -> (exn + A) * World.

Definition ret {A} (a : A) : M A := fun w => (inr a, w).
Definition raise {A} (e : exn) : M A := fun w => (inl e, w).

Definition bind {A B} (m : M A) (k : A -> M B) : M B :=
  fun w =>
    match m w with
    | (inr a, w') => k a w'
    | (inl e, w') => (inl e, w')
    end.

(** A value or an exception computed without the state. *)
Definition lift {A} (r : exn + A) : M A := fun w => (r, w).

#[global] Instance M_ret : MRet M := @ret.
#[global] Instance M_bind : MBind M := fun A B k m => bind m k.

(** [for x in items: body], with what the loop has accumulated so far. *)
Fixpoint for_each {X A} (items : list X) (body : A -> X -> M A) (acc : A)
  : M A :=
  match items with
  | [] => mret acc
  | x :: rest => acc' ← body acc x; for_each rest body acc'
  end.

(** [with self._db.begin() as transaction: body].

    Modelled from the spec: the transaction context of [PostgresDb] is not
    under src/; the spec gives it as "a scoped transaction with guaranteed
    commit-or-rollback on exit".  Leaving the block normally keeps the
    writes of the block; leaving it by an exception restores the database
    of the moment the block was entered, whatever was done inside,
    blocks opened inside included.  Only the database is restored. *)
Definition with_begin {A} (body : M A) : M A :=
  fun w =>
    match body w with
    | (inr a, w') => (inr a, w')
    | (inl e, w') => (inl e, set_db (db w) w')
    end.

(** [try: body / except DuplicateRecordError as e: _LOG.warning(str(e))]. *)
Definition except_DuplicateRecordError (body : M unit) : M unit :=
  fun w =>
    match body w with
    | (inl (DuplicateRecordError _), w') => (inr tt, w')
    | r => r
    end.

(** [@cachetools.cached(cache)] around [func]. *)
Definition cached {K V} `{EqDecision K}
    (cache : World -> Cache K V) (set_cache : Cache K V -> World -> World)
    (func : K -> M V) (k : K) : M V :=
  fun w =>
    match cache_getitem (now w) k (cache w) with
    | Some (v, c) => (inr v, set_cache c w)
    | None =>
        match func k w with
        | (inr v, w') =>
            (inr v, set_cache (cache_setitem (now w') k v (cache w')) w')
        | (inl e, w') => (inl e, w')
        end
    end.

(** ** What this file's code calls and src/ does not hold *)

(** The helpers of [datacube.utils], [datacube.model], [datacube.index.fields]
    and the queries of [PostgresDb] for which the spec gives no more than
    a signature stay parameters: every theorem below holds whatever they
    compute. *)
Class Collaborators : Type := {
  (* datacube.utils.jsonify_document: the document as JSON holds it *)
  jsonify_document : doc -> doc;
  (* MetadataType.validate / DatasetType.validate: [false] when they raise
     InvalidDocException *)
  metadata_type_valid : doc -> bool;
  dataset_type_valid : doc -> bool;
  (* PostgresDb.get_dataset_fields(metadata_type_row) *)
  get_dataset_fields : MetadataTypeRow -> list (string * Field);
  (* PostgresDb.get_dataset_sources(dataset_id): the batch of rows *)
  get_dataset_sources : PostgresDb -> string -> list DatasetResult;
  (* fields.to_expressions(get_field, **query) *)
  to_expressions : (string -> option Field) -> Query -> exn + list Expression;
  (* whether a stored dataset satisfies a compiled expression *)
  expr_holds : Expression -> DatasetRow -> bool;
  (* the value a selected field has for a stored dataset *)
  field_value : Field -> DatasetRow -> doc;
  (* the uniqueness constraint of the source-edge table: whether a new edge
     is refused because of an edge already there *)
  source_conflict : SourceRow -> SourceRow -> bool;
  (* how an insert that meets the row it would add is reported: by
     DuplicateRecordError, or by its return value *)
  duplicate_raises : bool
}.

(** ** The operations of [PostgresDb] *)

(** Modelled from the spec: the operations of the relational catalog store
    that section 6 of the spec lists; their code is not under src/. *)
Section Database.
Context `{Collaborators}.

Definition with_dataset_tbl (t : list DatasetRow) (σ : PostgresDb) :=
  mkPostgresDb (metadata_type_tbl σ) (dataset_type_tbl σ) t
    (dataset_source_tbl σ) (dataset_location_tbl σ).

Definition next_id (ids : list Z) : Z := 1 + fold_right Z.max 0 ids.

Definition get_metadata_type (σ : PostgresDb) (id_ : option Z)
  : option MetadataTypeRow :=
  List.find (fun r => bool_decide (Some (mtr_id r) = id_))
            (metadata_type_tbl σ).

Definition get_metadata_type_by_name (σ : PostgresDb) (name : doc)
  : option MetadataTypeRow :=
  List.find (fun r => bool_decide (mtr_name r = name)) (metadata_type_tbl σ).

Definition add_metadata_type (σ : PostgresDb) (name definition : doc)
    (concurrently : bool) : PostgresDb :=
  mkPostgresDb
    (metadata_type_tbl σ ++
     [mkMetadataTypeRow (next_id (map mtr_id (metadata_type_tbl σ)))
                        name definition])
    (dataset_type_tbl σ) (dataset_tbl σ) (dataset_source_tbl σ)
    (dataset_location_tbl σ).

Definition get_dataset_type (σ : PostgresDb) (id_ : option Z)
  : option DatasetTypeRow :=
  List.find (fun r => bool_decide (Some (dtr_id r) = id_))
            (dataset_type_tbl σ).

Definition get_dataset_type_by_name (σ : PostgresDb) (name : doc)
  : option DatasetTypeRow :=
  List.find (fun r => bool_decide (dtr_name r = name)) (dataset_type_tbl σ).

Definition add_dataset_type (σ : PostgresDb) (name metadata : doc)
    (metadata_type_id : option Z) (definition : doc) : PostgresDb :=
  mkPostgresDb (metadata_type_tbl σ)
    (dataset_type_tbl σ ++
     [mkDatasetTypeRow (next_id (map dtr_id (dataset_type_tbl σ)))
                       name metadata metadata_type_id definition])
    (dataset_tbl σ) (dataset_source_tbl σ) (dataset_location_tbl σ).

Definition get_all_dataset_types (σ : PostgresDb) : list DatasetTypeRow :=
  dataset_type_tbl σ.

Definition get_locations (σ : PostgresDb) (dataset_id : string)
  : list string :=
  map loc_uri
      (List.filter (fun l => bool_decide (loc_dataset_ref l = dataset_id))
                   (dataset_location_tbl σ)).

Definition sources_of (σ : PostgresDb) (dataset_id : string)
  : list SourceRow :=
  List.filter (fun e => bool_decide (src_dataset_ref e = dataset_id))
              (dataset_source_tbl σ).

(** A stored dataset as a query returns it. *)
Definition result_of (σ : PostgresDb) (select_fields : option (list Field))
    (with_source_ids : bool) (r : DatasetRow) : DatasetResult :=
  mkDatasetResult (dsr_id r) (dsr_dataset_type_ref r) (dsr_metadata r)
    (head (get_locations σ (dsr_id r)))
    (if with_source_ids
     then map (fun e => Some (src_source_dataset_ref e))
              (sources_of σ (dsr_id r))
     else [])
    []
    (match select_fields with
     | Some fs => map (fun f => (field_name f, field_value f r)) fs
     | None => []
     end).

Definition find_dataset (σ : PostgresDb) (dataset_id : string)
  : option DatasetRow :=
  List.find (fun r => bool_decide (dsr_id r = dataset_id)) (dataset_tbl σ).

Definition get_dataset (σ : PostgresDb) (dataset_id : string)
  : option DatasetResult :=
  result_of σ None false <$> find_dataset σ dataset_id.

Definition contains_dataset (σ : PostgresDb) (dataset_id : string) : bool :=
  bool_decide (is_Some (find_dataset σ dataset_id)).

(** Returns whether the row was inserted.  The document is kept the way
    the JSON column holds it. *)
Definition insert_dataset (σ : PostgresDb) (metadata_doc : doc)
    (dataset_id : string) (dataset_type_id : option Z)
  : exn + bool * PostgresDb :=
  if contains_dataset σ dataset_id then
    if duplicate_raises
    then inl (DuplicateRecordError "Duplicate dataset, not inserting")
    else inr (false, σ)
  else
    inr (true,
         with_dataset_tbl
           (dataset_tbl σ ++
            [mkDatasetRow dataset_id dataset_type_id
                          (jsonify_document metadata_doc) false]) σ).

Definition insert_dataset_source (σ : PostgresDb)
    (classifier dataset_id source_dataset_id : string)
  : exn + unit * PostgresDb :=
  let edge := mkSourceRow classifier dataset_id source_dataset_id in
  if existsb (source_conflict edge) (dataset_source_tbl σ) then
    inl (DuplicateRecordError "Source already exists")
  else
    inr (tt,
         mkPostgresDb (metadata_type_tbl σ) (dataset_type_tbl σ)
           (dataset_tbl σ) (dataset_source_tbl σ ++ [edge])
           (dataset_location_tbl σ)).

Definition ensure_dataset_location (σ : PostgresDb)
    (dataset_id uri : string) : exn + unit * PostgresDb :=
  let location := mkLocationRow dataset_id uri in
  if existsb (fun l => bool_decide (loc_dataset_ref l = dataset_id)
                       && bool_decide (loc_uri l = uri))
             (dataset_location_tbl σ) then
    if duplicate_raises
    then inl (DuplicateRecordError "Location already exists")
    else inr (tt, σ)
  else
    inr (tt,
         mkPostgresDb (metadata_type_tbl σ) (dataset_type_tbl σ)
           (dataset_tbl σ) (dataset_source_tbl σ)
           (dataset_location_tbl σ ++ [location])).

(** The soft-delete marker. *)
Definition archive_storage_unit (σ : PostgresDb) (dataset_id : string)
  : PostgresDb :=
  with_dataset_tbl
    (map (fun r =>
            if bool_decide (dsr_id r = dataset_id)
            then mkDatasetRow (dsr_id r) (dsr_dataset_type_ref r)
                              (dsr_metadata r) true
            else r)
         (dataset_tbl σ)) σ.

(** Whether a stored dataset is active and satisfies every expression. *)
Definition selected (expressions : list Expression) (r : DatasetRow)
  : bool :=
  negb (dsr_archived r) && forallb (fun e => expr_holds e r) expressions.

Definition search_datasets (σ : PostgresDb) (expressions : list Expression)
    (select_fields : option (list Field)) (with_source_ids : bool)
  : list DatasetResult :=
  map (result_of σ select_fields with_source_ids)
      (List.filter (selected expressions) (dataset_tbl σ)).

(** The number of such rows, counted by the database. *)
Definition count_datasets (σ : PostgresDb) (expressions : list Expression)
  : Z :=
  fold_left (fun n r => if selected expressions r then n + 1 else n)
            (dataset_tbl σ) 0.

(** A call that reads, and one that may write or raise. *)
Definition db_read {A} (f : PostgresDb -> A) : M A :=
  fun w => (inr (f (db w)), w).

Definition db_call {A} (f : PostgresDb -> exn + A * PostgresDb) : M A :=
  fun w =>
    match f (db w) with
    | inl e => (inl e, w)
    | inr (a, σ) => (inr a, set_db σ w)
    end.

Definition db_update (f : PostgresDb -> PostgresDb) : M unit :=
  fun w => (inr tt, set_db (f (db w)) w).
End Database.

(** Modelled from the spec: [datacube.utils.check_doc_unchanged], which is
    not under src/: "an unchanged-document checker failing with a conflict
    error on mismatch". *)
Definition check_doc_unchanged (original new : doc) (label : string)
    (name : doc) : M unit :=
  if bool_decide (original = new) then mret tt
  else raise (ConflictError label name).

(** ** [class MetadataTypeResource] *)

Module MetadataTypeResource.
Section Methods.
Context `{Collaborators}.

(** [_make(query_row)]; the row is [None] when the query found none. *)
Definition _make (query_row : option MetadataTypeRow) : M MetadataType :=
  match query_row with
  | None => raise (TypeError "'NoneType' object is not subscriptable")
  | Some row =>
      let definition := mtr_definition row in
      dataset_ ← lift (doc_getitem definition "dataset");
      mret (mkMetadataType (mtr_name row) dataset_
                           (get_dataset_fields row) (Some (mtr_id row)))
  end.

Definition get : option Z -> M MetadataType :=
  cached cache_metadata_type_get set_cache_metadata_type_get
    (fun id_ => row ← db_read (fun σ => get_metadata_type σ id_);
                _make row).

Definition get_by_name : doc -> M (option MetadataType) :=
  cached cache_metadata_type_get_by_name
         set_cache_metadata_type_get_by_name
    (fun name =>
       record ← db_read (fun σ => get_metadata_type_by_name σ name);
       match record with
       | None => mret None
       | Some row => made ← _make (Some row); mret (Some made)
       end).

Definition add (definition : doc) (allow_table_lock : bool)
  : M (option MetadataType) :=
  (if metadata_type_valid definition then mret tt
   else raise (InvalidDocException "metadata type"));;
  name ← lift (doc_getitem definition "name");
  existing ← db_read (fun σ => get_metadata_type_by_name σ name);
  match existing with
  | Some existing =>
      check_doc_unchanged (mtr_definition existing) definition
                          "Metadata Type " name
  | None =>
      db_update (fun σ => add_metadata_type σ name definition
                                            (negb allow_table_lock))
  end;;
  get_by_name name.
End Methods.
End MetadataTypeResource.

(** ** [class DatasetTypeResource] *)

Module DatasetTypeResource.
Section Methods.
Context `{Collaborators}.

Definition _make (query_row : option DatasetTypeRow) : M DatasetType :=
  match query_row with
  | None => raise (TypeError "'NoneType' object is not subscriptable")
  | Some row =>
      metadata_type ← MetadataTypeResource.get (dtr_metadata_type_ref row);
      mret (mkDatasetType metadata_type (dtr_definition row)
                          (Some (dtr_id row)))
  end.

Definition get : option Z -> M DatasetType :=
  cached cache_dataset_type_get set_cache_dataset_type_get
    (fun id_ => row ← db_read (fun σ => get_dataset_type σ id_);
                _make row).

Definition get_by_name : doc -> M (option DatasetType) :=
  cached cache_dataset_type_get_by_name set_cache_dataset_type_get_by_name
    (fun name =>
       result ← db_read (fun σ => get_dataset_type_by_name σ name);
       match result with
       | None => mret None
       | Some row => made ← _make (Some row); mret (Some made)
       end).

Definition from_doc (definition : doc) : M DatasetType :=
  (if dataset_type_valid definition then mret tt
   else raise (InvalidDocException "dataset type"));;
  metadata_type ← lift (doc_getitem definition "metadata_type");
  resolved ←
    match metadata_type with
    | DStr _ => MetadataTypeResource.get_by_name metadata_type
    | _ => MetadataTypeResource.add metadata_type false
    end;
  match resolved with
  | None => raise (InvalidDocException "Unknown metadata type")
  | Some metadata_type => mret (mkDatasetType metadata_type definition None)
  end.

Definition add (type_ : DatasetType) : M (option DatasetType) :=
  (if dataset_type_valid (definition type_) then mret tt
   else raise (InvalidDocException "dataset type"));;
  name ← lift (dt_name type_);
  existing ← db_read (fun σ => get_dataset_type_by_name σ name);
  match existing with
  | Some existing =>
      name ← lift (dt_name type_);
      check_doc_unchanged (dtr_definition existing) (definition type_)
                          "Dataset type " name
  | None =>
      name ← lift (dt_name type_);
      metadata ← lift (dt_metadata type_);
      db_update (fun σ => add_dataset_type σ name metadata
                            (mt_id (metadata_type type_))
                            (definition type_))
  end;;
  name ← lift (dt_name type_);
  get_by_name name.

Definition add_document (definition : doc) : M (option DatasetType) :=
  type_ ← from_doc definition;
  add type_.

(** [for name in field_names: if name not in ...: break / else: ...]:
    whether the loop ends without a [break]. *)
Definition has_all_fields (type_ : DatasetType) (field_names : list string)
  : bool :=
  forallb (fun name => dict_mem name (dataset_fields (metadata_type type_)))
          field_names.

(** A generator that a [for] loop consumes to its end is the fold of the
    loop's body over what it yields: the body runs between two steps of
    the generator, so each [_make] of [get_all] happens when the loop
    asks for the next type, and the rows are read when the loop starts
    ([get_with_fields] is a generator function: nothing of it runs
    before). *)
Definition for_get_all {A} (body : A -> DatasetType -> M A) (acc : A)
  : M A :=
  records ← db_read get_all_dataset_types;
  for_each records
    (fun acc record => type_ ← _make (Some record); body acc type_) acc.

Definition for_get_with_fields {A} (field_names : list string)
    (body : A -> DatasetType -> M A) (acc : A) : M A :=
  for_get_all
    (fun acc type_ =>
       if has_all_fields type_ field_names then body acc type_
       else mret acc) acc.

(** [add_many(definitions)]: no transaction and no [try] around the
    loop. *)
Definition add_many (definitions : list doc) : M unit :=
  for_each definitions
    (fun _ definition => _ ← add_document definition; mret tt) tt.

(** [list(self.get_all())] and [list(self.get_with_fields(field_names))]:
    what a caller that takes every item gets. *)
Definition get_all : M (list DatasetType) :=
  for_get_all (fun types type_ => mret (types ++ [type_])) [].

Definition get_with_fields (field_names : list string)
  : M (list DatasetType) :=
  for_get_with_fields field_names
    (fun types type_ => mret (types ++ [type_])) [].
End Methods.
End DatasetTypeResource.

(** ** [class DatasetResource] *)

(** What [_get_dataset_types] returns: the [set] it filled, or the
    generator object that the call [get_with_fields(...)] made. *)
Inductive TypesIterable : Type :=
  | TypesSet (elements : list (option DatasetType))
  | TypesGenerator (field_names : list string).

(** Python's truth value: a set is true when it has an element, a
    generator object is always true. *)
Definition truthy (types : TypesIterable) : bool :=
  match types with
  | TypesSet elements => negb (bool_decide (elements = []))
  | TypesGenerator _ => true
  end.

(** [if source]: an id that is neither [None] nor the empty string. *)
Definition truthy_source (source : option string) : option string :=
  match source with
  | Some s => if String.eqb s EmptyString then None else Some s
  | None => None
  end.

(** The objects that [get] builds for a provenance graph.  They refer to
    one another; a reference is written as the key under which the object
    referred to sits in [datasets]. *)
Record LinkedDataset : Type := mkLinkedDataset {
  (* the object as [_make] built it, and the row it came from *)
  ld_dataset : Dataset;
  ld_result : DatasetResult;
  (* metadata_doc['lineage']['source_datasets'] once it is rewritten:
     classifier -> the object whose metadata_doc is held there *)
  ld_source_datasets : option (list (string * string));
  (* dataset.sources: classifier -> object *)
  ld_sources : list (string * string)
}.

Record ProvenanceGraph : Type := mkProvenanceGraph {
  pg_root : string;
  pg_datasets : list (string * LinkedDataset)
}.

(** The dict objects that hold queries. *)
Definition dict_at (h : list Query) (address : nat) : Query :=
  match h !! address with Some d => d | None => [] end.

Definition dict_object (address : nat) : M Query :=
  fun w => (inr (dict_at (heap w) address), w).

Definition dict_store (address : nat) (q : Query) : M unit :=
  fun w => (inr tt, set_heap (<[address := q]> (heap w)) w).

(** [dict(query)], and what [f( **query )] passes on: a new object. *)
Definition dict_copy (address : nat) : M nat :=
  fun w =>
    (inr (length (heap w)),
     set_heap (heap w ++ [dict_at (heap w) address]) w).

Definition log (e : PostgresDb -> Event) : M unit :=
  fun w => (inr tt, set_trace (trace w ++ [e (db w)]) w).

(** [with self._db.begin() as transaction: body], for a body that also
    leaves objects of type [T] behind. *)
Definition with_begin_in_place {T}
    (body : World -> option exn * T * World) (w : World)
  : option exn * T * World :=
  match body w with
  | (Some e, t, w') => (Some e, t, set_db (db w) w')
  | (None, t, w') => (None, t, w')
  end.

Module DatasetResource.
Section Methods.
Context `{Collaborators}.

(** [Dataset(self.types.get(ref), metadata, local_uri)]; the new object
    has no sources, and the id its document gives it is the row's. *)
Definition _make (dataset_res : option DatasetResult) : M Dataset :=
  match dataset_res with
  | None =>
      raise (AttributeError
               "'NoneType' object has no attribute 'dataset_type_ref'")
  | Some res =>
      type_ ← DatasetTypeResource.get (res_dataset_type_ref res);
      mret (mkDataset (res_id res) type_ (res_metadata res)
                      (res_local_uri res) [])
  end.

(** [(source, classifier) for ... in zip(sources, classes) if source] *)
Definition source_pairs (result : DatasetResult) : list (string * string) :=
  omap (fun sc => match truthy_source (fst sc) with
                  | Some s => Some (s, snd sc)
                  | None => None
                  end)
       (zip (res_sources result) (res_classes result)).

(** [{classifier: datasets[str(source)][0] ... for source, classifier in
    pairs}]: each value is a reference to the object under the key
    [str(source)], and the subscript raises KeyError when it is not
    there. *)
Fixpoint comprehension (datasets : list (string * LinkedDataset))
    (pairs : list (string * string)) (acc : list (string * string))
  : exn + list (string * string) :=
  match pairs with
  | [] => inr acc
  | (source, classifier) :: rest =>
      match dict_get source datasets with
      | None => inl (KeyError source)
      | Some _ => comprehension datasets rest (dict_set classifier source acc)
      end
  end.

(** One turn of [for dataset, result in datasets.values()]. *)
Definition link (datasets : list (string * LinkedDataset))
    (entry : string * LinkedDataset)
  : M (list (string * LinkedDataset)) :=
  let dataset := snd entry in
  let result := ld_result dataset in
  source_datasets ← lift (comprehension datasets (source_pairs result) []);
  lineage ← lift (doc_getitem (metadata_doc (ld_dataset dataset)) "lineage");
  _ ← lift (doc_setitem lineage "source_datasets" DNone);
  sources ← lift (comprehension datasets (source_pairs result) []);
  mret (dict_set (fst entry)
          (mkLinkedDataset (ld_dataset dataset) result
                           (Some source_datasets) sources)
          datasets).

Definition get (id_ : string) (include_sources : bool)
  : M (if include_sources then ProvenanceGraph else Dataset) :=
  match include_sources
        return M (if include_sources then ProvenanceGraph else Dataset) with
  | false =>
      row ← db_read (fun σ => get_dataset σ id_);
      _make row
  | true =>
      batch ← db_read (fun σ => get_dataset_sources σ id_);
      datasets ←
        for_each batch
          (fun datasets result =>
             made ← _make (Some result);
             mret (dict_set (res_id result)
                            (mkLinkedDataset made result None []) datasets))
          [];
      datasets ← for_each datasets link datasets;
      match dict_get id_ datasets with
      | None => raise (KeyError id_)
      | Some _ => mret (mkProvenanceGraph id_ datasets)
      end
  end.

Definition has (dataset : Dataset) : M bool :=
  db_read (fun σ => contains_dataset σ (ds_id dataset)).

(** Lines 297-298 of [add]: one source edge per item of
    [dataset.sources]. *)
Fixpoint insert_sources (dataset : Dataset) (items : list (string * Dataset))
  : M unit :=
  match items with
  | [] => mret tt
  | (classifier, source_dataset) :: rest =>
      log (EvInsertDatasetSource classifier dataset source_dataset);;
      db_call (fun σ => insert_dataset_source σ classifier (ds_id dataset)
                          (ds_id source_dataset));;
      insert_sources dataset rest
  end.

(** Lines 294-300 of [add]: the transaction, and in it the [try] whose
    [except DuplicateRecordError] only logs.  The result is
    [was_inserted] as the block leaves it: [False] unless
    [insert_dataset] returned, and then what it returned, also when a
    later statement of the [try] raised DuplicateRecordError. *)
Definition index_transaction (dataset : Dataset) : M bool :=
  with_begin
    (fun w =>
       match (log (EvInsertDataset dataset);;
              db_call (fun σ => insert_dataset σ (metadata_doc dataset)
                                  (ds_id dataset) (dt_id (ds_type dataset))))
               w with
       | (inl (DuplicateRecordError _), w) => (inr false, w)
       | (inl e, w) => (inl e, w)
       | (inr was_inserted, w) =>
           match insert_sources dataset (sources dataset) w with
           | (inl (DuplicateRecordError _), w) => (inr was_inserted, w)
           | (inl e, w) => (inl e, w)
           | (inr _, w) => (inr was_inserted, w)
           end
       end).

(** Lines 293-309 of [add]: the body of the outer [try]. *)
Definition index_and_check (dataset : Dataset) : M unit :=
  was_inserted ← index_transaction dataset;
  if negb was_inserted then
    existing ← get (ds_id dataset) false;
    (* [if existing:] holds, [existing] being a Dataset object *)
    check_doc_unchanged (metadata_doc existing)
                        (jsonify_document (metadata_doc dataset))
                        "Dataset " (DStr (ds_id dataset))
  else mret tt.

(** Lines 313-317 of [add]. *)
Definition register_location (dataset : Dataset) : M unit :=
  match local_uri dataset with
  | Some uri =>
      except_DuplicateRecordError
        (db_call (fun σ => ensure_dataset_location σ (ds_id dataset) uri))
  | None => mret tt
  end.

(** Lines 289-319 of [add]: what [add] does once the sources are in.
    The result is the exception raised, if any, and the object
    [dataset] as the call leaves it; [None] means that [add] returns
    that object. *)
Definition add_this (dataset : Dataset) (w : World)
  : option exn * Dataset * World :=
  match reader_sources (metadata_doc dataset) with
  | inl e => (Some e, dataset, w)
  | inr sources_tmp =>
  match reader_set_sources (metadata_doc dataset) (DDict []) with
  | inl e => (Some e, dataset, w)
  | inr stripped =>
      let dataset := with_metadata_doc dataset stripped in
      (* try: *)
      let '(outcome, w) := index_and_check dataset w in
      (* finally: *)
      match reader_set_sources (metadata_doc dataset) sources_tmp with
      | inl e => (Some e, dataset, w)
      | inr restored =>
          let dataset := with_metadata_doc dataset restored in
          match outcome with
          | inl e => (Some e, dataset, w)
          | inr _ =>
              match register_location dataset w with
              | (inl e, w) => (Some e, dataset, w)
              | (inr _, w) => (None, dataset, w)
              end
          end
      end
  end
  end.

Fixpoint add (dataset : Dataset) (skip_sources : bool) (w : World)
    {struct dataset} : option exn * Dataset * World :=
  let '(raised, sources', w) :=
    if skip_sources then (None, sources dataset, w)
    else
      (* for source in dataset.sources.values(): self.add(source) *)
      (fix for_each_source (items : list (string * Dataset)) (w : World)
         : option exn * list (string * Dataset) * World :=
         match items with
         | [] => (None, [], w)
         | (classifier, source) :: rest =>
             match add source false w with
             | (Some e, source', w) =>
                 (Some e, (classifier, source') :: rest, w)
             | (None, source', w) =>
                 let '(raised, rest', w) := for_each_source rest w in
                 (raised, (classifier, source') :: rest', w)
             end
         end) (sources dataset) w in
  let dataset := with_sources dataset sources' in
  match raised with
  | Some e => (Some e, dataset, w)
  | None => add_this dataset w
  end.

(** The loop of lines 285-287 by itself. *)
Fixpoint add_sources (items : list (string * Dataset)) (w : World)
  : option exn * list (string * Dataset) * World :=
  match items with
  | [] => (None, [], w)
  | (classifier, source) :: rest =>
      match add source false w with
      | (Some e, source', w) => (Some e, (classifier, source') :: rest, w)
      | (None, source', w) =>
          let '(raised, rest', w) := add_sources rest w in
          (raised, (classifier, source') :: rest', w)
      end
  end.

(** Line 330-332 of [replace]. *)
Fixpoint add_each (units : list Dataset) (w : World)
  : option exn * list Dataset * World :=
  match units with
  | [] => (None, [], w)
  | unit :: rest =>
      match add unit false w with
      | (Some e, unit', w) => (Some e, unit' :: rest, w)
      | (None, unit', w) =>
          let '(raised, rest', w) := add_each rest w in
          (raised, unit' :: rest', w)
      end
  end.

Definition replace (old_datasets new_datasets : list Dataset)
  : World -> option exn * list Dataset * World :=
  with_begin_in_place
    (fun w =>
       match for_each old_datasets
               (fun _ unit =>
                  db_update (fun σ => archive_storage_unit σ (ds_id unit)))
               tt w with
       | (inl e, w) => (Some e, new_datasets, w)
       | (inr _, w) => add_each new_datasets w
       end).

(** [_get_dataset_types(q)], [q] being the address of the dict. *)
Definition _get_dataset_types (q : nat) : M TypesIterable :=
  (* types = set() *)
  keys ← dict_object q;
  if dict_mem "product" keys then
    match dict_get "product" keys with
    | None => raise (KeyError "product")
    | Some product =>
        type_ ← DatasetTypeResource.get_by_name (qv_doc product);
        mret (TypesSet [type_])
    end
  else
    let types := TypesGenerator (dict_keys keys) in
    if negb (truthy types)
    then raise (ValueError "No type of dataset has fields")
    else mret types.

(** [for dataset_type in dataset_types: body]. *)
Definition for_dataset_types {A} (dataset_types : TypesIterable)
    (body : A -> option DatasetType -> M A) (acc : A) : M A :=
  match dataset_types with
  | TypesSet elements => for_each elements body acc
  | TypesGenerator field_names =>
      DatasetTypeResource.for_get_with_fields field_names
        (fun acc type_ => body acc (Some type_)) acc
  end.

(** [dataset_type.id] and [dataset_type.metadata_type.dataset_fields]. *)
Definition attributes (dataset_type : option DatasetType)
  : M (option Z * list (string * Field)) :=
  match dataset_type with
  | None => raise (AttributeError "'NoneType' object has no attribute 'id'")
  | Some t => mret (dt_id t, dataset_fields (metadata_type t))
  end.

Definition id_value (id_ : option Z) : QueryValue :=
  QValue (match id_ with Some n => DInt n | None => DNone end).

(** Lines 420-422 and 441-443: the expressions of one type, compiled
    from [q] once it pins the type. *)
Definition pin_and_compile (q : nat) (dataset_type : option DatasetType)
  : M (list Expression * list (string * Field)) :=
  '(id_, dataset_fields) ← attributes dataset_type;
  pinned ← dict_object q;
  dict_store q (dict_set "dataset_type_id" (id_value id_) pinned);;
  kwargs ← dict_object q;
  query_exprs ←
    lift (to_expressions (fun name => dict_get name dataset_fields) kwargs);
  mret (query_exprs, dataset_fields).

(** [_do_search] is a generator function.  It is modelled for a consumer
    that takes every item: [on_yield] is what the consumer does with an
    item before it asks for the next, and the result lists what the
    consumer made of the items, in order. *)
Definition _do_search {R} (query : nat) (return_fields with_source_ids : bool)
    (on_yield : DatasetResult -> M R) : M (list R) :=
  q ← dict_copy query;
  dataset_types ← _get_dataset_types q;
  keys ← dict_object q;
  (if dict_mem "product" keys
   then dict_store q (dict_del "product" keys)
   else mret tt);;
  for_dataset_types dataset_types
    (fun yielded dataset_type =>
       '(query_exprs, dataset_fields) ← pin_and_compile q dataset_type;
       let select_fields :=
         if return_fields then Some (dict_values dataset_fields) else None in
       found ← db_read (fun σ => search_datasets σ query_exprs select_fields
                                   with_source_ids);
       for_each found
         (fun yielded dataset => r ← on_yield dataset;
                                 mret (yielded ++ [r])%list)
         yielded)
    [].

Definition _do_count (query : nat) : M Z :=
  q ← dict_copy query;
  dataset_types ← _get_dataset_types q;
  let result := 0 in
  keys ← dict_object q;
  (if dict_mem "product" keys
   then dict_store q (dict_del "product" keys)
   else mret tt);;
  for_dataset_types dataset_types
    (fun result dataset_type =>
       '(query_exprs, _) ← pin_and_compile q dataset_type;
       n ← db_read (fun σ => count_datasets σ query_exprs);
       mret (result + n))
    result.

(** The public methods take keyword arguments: a caller that holds its
    query in a mapping calls [search( **mapping )], and the method's
    [query] is a new dict with the mapping's items.  [mapping] is the
    address of the caller's dict. *)
Definition search (mapping : nat) : M (list Dataset) :=
  query ← dict_copy mapping;
  _do_search query false false (fun dataset => _make (Some dataset)).

Definition count (mapping : nat) : M Z :=
  query ← dict_copy mapping;
  _do_count query.

Definition search_summaries (mapping : nat)
  : M (list (list (string * doc))) :=
  query ← dict_copy mapping;
  _do_search query true false
    (fun fs => mret (dict_of_pairs (res_fields fs))).

Definition search_eager (mapping : nat) : M (list Dataset) :=
  query ← dict_copy mapping;
  search query.

(** [list(self.get_field_names(type_name))].  [types] is the generator
    of [get_all()] or the one-element list [[get_by_name(type_name)]];
    iterating the [dataset_fields] dict gives its keys. *)
Definition field_names_of (yielded : list string)
    (type_ : option DatasetType) : M (list string) :=
  match type_ with
  | None =>
      raise (AttributeError
               "'NoneType' object has no attribute 'metadata_type'")
  | Some t => mret (yielded ++ dict_keys (dataset_fields (metadata_type t)))
  end.

Definition get_field_names (type_name : option doc) : M (list string) :=
  match type_name with
  | None =>
      DatasetTypeResource.for_get_all
        (fun yielded type_ => field_names_of yielded (Some type_)) []
  | Some name =>
      type_ ← DatasetTypeResource.get_by_name name;
      for_each [type_] field_names_of []
  end.

(** [get_locations(dataset)]. *)
Definition get_locations (dataset : Dataset) : M (list string) :=
  db_read (fun σ => get_locations σ (ds_id dataset)).
End Methods.
End DatasetResource.

(** ** A small catalogue to run the code on *)

Module Sample.
(** Field registry of a metadata type: the native fields and one field
    per key of the definition's [search_fields]. *)
Definition fields_of (row : MetadataTypeRow) : list (string * Field) :=
  [("id", mkField "id" ["id"]);
   ("dataset_type_id", mkField "dataset_type_id" [])] ++
  match doc_getitem (mtr_definition row) "dataset" with
  | inr (DDict dataset_) =>
      match dict_get "search_fields" dataset_ with
      | Some (DDict fs) => map (fun kv => (fst kv, mkField (fst kv) [fst kv])) fs
      | _ => []
      end
  | _ => []
  end.

Definition value_at (f : Field) (r : DatasetRow) : doc :=
  if String.eqb (field_name f) "dataset_type_id" then
    match dsr_dataset_type_ref r with Some n => DInt n | None => DNone end
  else
    match doc_getitem (dsr_metadata r) (field_name f) with
    | inr v => v
    | inl _ => DNone
    end.

Definition holds (e : Expression) (r : DatasetRow) : bool :=
  match expr_value e, value_at (expr_field e) r with
  | QValue v, x => bool_decide (x = v)
  | QRange (DInt lo) (DInt hi), DInt x => (lo <=? x) && (x <=? hi)
  | QRange _ _, _ => false
  end.

Definition compile (get_field : string -> option Field) (query : Query)
  : exn + list Expression :=
  fold_right
    (fun kv acc =>
       match acc, get_field (fst kv) with
       | inl e, _ => inl e
       | inr _, None => inl (RuntimeError "Unknown field")
       | inr es, Some f => inr (mkExpression f (snd kv) :: es)
       end)
    (inr []) query.

(** The rows of the dataset and of everything one source edge away from
    it, each with its own edges (or the single NULL of the outer join). *)
Definition batch_of (σ : PostgresDb) (dataset_id : string)
  : list DatasetResult :=
  let edges_of id_ :=
    List.filter (fun e => bool_decide (src_dataset_ref e = id_))
                (dataset_source_tbl σ) in
  let row_of (r : DatasetRow) :=
    let es := edges_of (dsr_id r) in
    mkDatasetResult (dsr_id r) (dsr_dataset_type_ref r) (dsr_metadata r) None
      (if bool_decide (es = []) then [None]
       else map (fun e => Some (src_source_dataset_ref e)) es)
      (if bool_decide (es = []) then [EmptyString] else map src_classifier es)
      [] in
  let wanted :=
    dataset_id :: map src_source_dataset_ref (edges_of dataset_id) in
  map row_of
      (List.filter (fun r => bool_decide (dsr_id r ∈ wanted))
                   (dataset_tbl σ)).

Definition collaborators : Collaborators := {|
  jsonify_document := fun d => d;
  metadata_type_valid := fun _ => true;
  dataset_type_valid := fun _ => true;
  get_dataset_fields := fields_of;
  get_dataset_sources := batch_of;
  to_expressions := compile;
  expr_holds := holds;
  field_value := value_at;
  source_conflict := fun e e' =>
    bool_decide (src_dataset_ref e = src_dataset_ref e') &&
    (bool_decide (src_classifier e = src_classifier e') ||
     bool_decide (src_source_dataset_ref e = src_source_dataset_ref e'));
  duplicate_raises := false
|}.

Definition eo_definition : doc :=
  DDict [("name", DStr "eo");
         ("dataset",
          DDict [("id", DList [DStr "id"]);
                 ("sources", DList [DStr "lineage"; DStr "source_datasets"]);
                 ("search_fields", DDict [("platform", DStr "string")])])].

Definition ls8_definition : doc :=
  DDict [("name", DStr "ls8_nbar");
         ("metadata_type", DStr "eo");
         ("metadata", DDict [("platform", DStr "LANDSAT_8")])].

Definition ls8_changed : doc :=
  DDict [("name", DStr "ls8_nbar");
         ("metadata_type", DStr "eo");
         ("metadata", DDict [("platform", DStr "LANDSAT_7")])].

Definition empty_db : PostgresDb := mkPostgresDb [] [] [] [] [].

Definition empty_world : World :=
  mkWorld empty_db 0 [] [] [] [] [] [].

(** The catalogue with the metadata type and the product registered. *)
Definition catalogue : PostgresDb :=
  mkPostgresDb
    [mkMetadataTypeRow 1 (DStr "eo") eo_definition]
    [mkDatasetTypeRow 1 (DStr "ls8_nbar")
       (DDict [("platform", DStr "LANDSAT_8")]) (Some 1) ls8_definition]
    [] [] [].

Definition world : World := mkWorld catalogue 0 [] [] [] [] [] [].

Definition eo : MetadataType :=
  mkMetadataType (DStr "eo")
    (DDict [("id", DList [DStr "id"]);
            ("sources", DList [DStr "lineage"; DStr "source_datasets"]);
            ("search_fields", DDict [("platform", DStr "string")])])
    [("id", mkField "id" ["id"]);
     ("dataset_type_id", mkField "dataset_type_id" []);
     ("platform", mkField "platform" ["platform"])]
    (Some 1).

Definition ls8 : DatasetType := mkDatasetType eo ls8_definition (Some 1).

Definition document (id_ platform : string) (lineage : list (string * doc))
  : doc :=
  DDict [("id", DStr id_); ("platform", DStr platform);
         ("lineage", DDict [("source_datasets", DDict lineage)])].

Definition raw : Dataset :=
  mkDataset "raw" ls8 (document "raw" "LANDSAT_8" []) None [].

Definition ancillary : Dataset :=
  mkDataset "anc" ls8 (document "anc" "LANDSAT_8" [])
            (Some "file:///anc.yaml") [].

Definition nbar : Dataset :=
  mkDataset "nbar" ls8
    (document "nbar" "LANDSAT_8"
              [("raw", metadata_doc raw); ("ancillary", metadata_doc ancillary)])
    (Some "file:///nbar.yaml")
    [("raw", raw); ("ancillary", ancillary)].

(** The same id as [nbar] with another document. *)
Definition nbar_changed : Dataset :=
  mkDataset "nbar" ls8
    (document "nbar" "LANDSAT_7"
              [("raw", metadata_doc raw); ("ancillary", metadata_doc ancillary)])
    (Some "file:///nbar.yaml")
    [("raw", raw); ("ancillary", ancillary)].

(** A dataset that names the same source under two classifiers. *)
Definition twice : Dataset :=
  mkDataset "twice" ls8 (document "twice" "LANDSAT_8" []) None
            [("a", raw); ("b", raw); ("c", ancillary)].

(** A product of [nbar]: two source edges away from [raw]. *)
Definition pq : Dataset :=
  mkDataset "pq" ls8
    (document "pq" "LANDSAT_8" [("nbar", metadata_doc nbar)])
    None [("nbar", nbar)].

(** The catalogue after [add(nbar)], after [add(pq)], and after
    [add(twice)] has put its sources in. *)
Definition after_nbar : World :=
  snd (@DatasetResource.add collaborators nbar false world).

Definition after_pq : World :=
  snd (@DatasetResource.add collaborators pq false world).

Definition sources_of_twice_in : World :=
  snd (@DatasetResource.add_sources collaborators (sources twice) world).

(** A caller's mapping in a dict object at address 0. *)
Definition colour_query : Query := [("colour", QValue (DStr "red"))].
Definition platform_query : Query :=
  [("platform", QValue (DStr "LANDSAT_8"))].
Definition product_query : Query :=
  [("product", QValue (DStr "ls8_nbar"));
   ("platform", QValue (DStr "LANDSAT_8"))].

Definition holding (q : Query) (w : World) : World := set_heap [q] w.

Definition graph_of_nbar : ProvenanceGraph :=
  match fst (@DatasetResource.get collaborators "nbar" true after_nbar) with
  | inr graph => graph
  | inl _ => mkProvenanceGraph EmptyString []
  end.

(** A dataset whose document has no lineage section, and a dataset that
    names it among its sources. *)
Definition unreadable : Dataset :=
  mkDataset "bad" ls8 (DDict [("id", DStr "bad")]) None [].

Definition mosaic : Dataset :=
  mkDataset "mosaic" ls8 (document "mosaic" "LANDSAT_8" []) None
            [("raw", raw); ("bad", unreadable); ("anc", ancillary)].

Definition after_raw : World :=
  snd (@DatasetResource.add_sources collaborators [("raw", raw)] world).

(** A product that embeds its metadata type, what [add_document] of it
    returns on the empty catalogue, and the state it leaves. *)
Definition ls7_definition : doc :=
  DDict [("name", DStr "ls7_nbar");
         ("metadata_type", eo_definition);
         ("metadata", DDict [("platform", DStr "LANDSAT_7")])].

Definition ls7 : option DatasetType :=
  Some (mkDatasetType eo ls7_definition (Some 1)).

Definition after_ls7 : World :=
  snd (@DatasetTypeResource.add_document collaborators ls7_definition
         empty_world).

(** A query for a product that is not registered. *)
Definition unknown_product_query : Query :=
  [("product", QValue (DStr "ls5_nbar"))].
End Sample.

(** ** Vocabulary of the statements *)

(** Whether the rows a dataset's type is read from are in the database:
    the metadata type with a [dataset] section, the dataset type with a
    metadata type that loads, and this for every stored dataset. *)
Definition metadata_type_loads (σ : PostgresDb) (ref : option Z) : bool :=
  match get_metadata_type σ ref with
  | Some row =>
      match doc_getitem (mtr_definition row) "dataset" with
      | inr _ => true
      | inl _ => false
      end
  | None => false
  end.

Definition dataset_type_loads (σ : PostgresDb) (ref : option Z) : bool :=
  match get_dataset_type σ ref with
  | Some row => metadata_type_loads σ (dtr_metadata_type_ref row)
  | None => false
  end.

Definition types_load (σ : PostgresDb) : bool :=
  forallb (fun r => dataset_type_loads σ (dsr_dataset_type_ref r))
          (dataset_tbl σ).

(** The stored records of a dataset id. *)
Definition records_of (σ : PostgresDb) (dataset_id : string)
  : list DatasetRow :=
  List.filter (fun r => bool_decide (dsr_id r = dataset_id)) (dataset_tbl σ).

(** Two states that differ in the caches at most. *)
Definition same_store (w w' : World) : Prop :=
  db w' = db w /\ heap w' = heap w /\ trace w' = trace w /\ now w' = now w.

(** Every dataset of [σ] is in [σ'] with the same document and type. *)
Definition kept (σ σ' : PostgresDb) : Prop :=
  forall id_ row, find_dataset σ id_ = Some row ->
    exists row', find_dataset σ' id_ = Some row' /\
                 dsr_metadata row' = dsr_metadata row /\
                 dsr_dataset_type_ref row' = dsr_dataset_type_ref row.

(** What [DatasetResource.add] may do to the database, one write at a
    time: a row for a dataset that has none, a source edge, a location. *)
Inductive db_step : PostgresDb -> PostgresDb -> Prop :=
  | step_dataset (σ : PostgresDb) (row : DatasetRow) :
      find_dataset σ (dsr_id row) = None ->
      db_step σ (with_dataset_tbl (dataset_tbl σ ++ [row]) σ)
  | step_source (σ : PostgresDb) (edge : SourceRow) :
      db_step σ (mkPostgresDb (metadata_type_tbl σ) (dataset_type_tbl σ)
                   (dataset_tbl σ) (dataset_source_tbl σ ++ [edge])
                   (dataset_location_tbl σ))
  | step_location (σ : PostgresDb) (location : LocationRow) :
      db_step σ (mkPostgresDb (metadata_type_tbl σ) (dataset_type_tbl σ)
                   (dataset_tbl σ) (dataset_source_tbl σ)
                   (dataset_location_tbl σ ++ [location])).

(** A state reached from another by such writes, the caches being free
    and the log growing. *)
Definition written (w w' : World) : Prop :=
  rtc db_step (db w) (db w') /\ heap w' = heap w /\ now w' = now w /\
  exists events, trace w' = trace w ++ events.

(** What the ordering of [add] promises of a write it logs: when the row
    of a dataset is asked for, every dataset it derives from, directly or
    not, has its row; when a source edge is asked for, the source has. *)
Definition sources_indexed (ev : Event) : Prop :=
  match ev with
  | EvInsertDataset dataset σ =>
      Forall (fun x => contains_dataset σ (ds_id x) = true)
             (descendants dataset)
  | EvInsertDatasetSource _ _ source_dataset σ =>
      contains_dataset σ (ds_id source_dataset) = true
  end.

(** The document of a dataset as [add] hands it to the database: with an
    empty lineage section. *)
Definition stripped_doc (dataset : Dataset) : doc :=
  match reader_set_sources (metadata_doc dataset) (DDict []) with
  | inr stripped => stripped
  | inl _ => metadata_doc dataset
  end.

(** The source edge of one item of [dataset.sources]. *)
Definition edge_of (dataset : Dataset) (item : string * Dataset) : SourceRow :=
  mkSourceRow (fst item) (ds_id dataset) (ds_id (snd item)).

(** Two states with the same caches. *)
Definition same_caches (w w' : World) : Prop :=
  cache_metadata_type_get w' = cache_metadata_type_get w /\
  cache_metadata_type_get_by_name w' = cache_metadata_type_get_by_name w /\
  cache_dataset_type_get w' = cache_dataset_type_get w /\
  cache_dataset_type_get_by_name w' = cache_dataset_type_get_by_name w.

(** A dataset with everything it derives from; a document that has a
    lineage section; and datasets that can all be inserted: every
    document has its lineage section, no id is indexed, no id comes
    twice. *)
Definition tree (dataset : Dataset) : list Dataset :=
  dataset :: descendants dataset.

Definition has_lineage (x : Dataset) : bool :=
  match reader_sources (metadata_doc x) with
  | inr _ => true
  | inl _ => false
  end.

Definition insertable (σ : PostgresDb) (forest : list Dataset) : bool :=
  forallb has_lineage forest &&
  forallb (fun x => negb (contains_dataset σ (ds_id x))) forest &&
  bool_decide (NoDup (map ds_id forest)).

Section Vocabulary.
Context `{Collaborators}.

(** Lines 285-287 of [add]: the sources first, unless [skip_sources]. *)
Definition fan_out (dataset : Dataset) (skip_sources : bool) (w : World)
  : option exn * list (string * Dataset) * World :=
  if skip_sources then (None, sources dataset, w)
  else DatasetResource.add_sources (sources dataset) w.

(** Whether the edge table takes an edge, and a list of them in turn. *)
Definition accepted (tbl : list SourceRow) (edge : SourceRow) : bool :=
  negb (existsb (source_conflict edge) tbl).

Fixpoint all_accepted (tbl : list SourceRow) (edges : list SourceRow)
  : bool :=
  match edges with
  | [] => true
  | e :: rest => accepted tbl e && all_accepted (tbl ++ [e]) rest
  end.
End Vocabulary.

(** ** Vocabulary of the proofs *)

(** A method that leaves the dict objects at addresses below [n] alone,
    allocates at most, and returns values that satisfy [Q]. *)
Definition heap_safe {A} (n : nat) (m : M A) (Q : A -> Prop) : Prop :=
  forall w, (n <= length (heap w))%nat ->
    (length (heap w) <= length (heap (snd (m w))))%nat /\
    take n (heap (snd (m w))) = take n (heap w) /\
    (forall a, fst (m w) = inr a -> Q a).

(** Two tables with the same keys. *)
Definition same_keys {V V'} (t : list (string * V)) (t' : list (string * V'))
  : Prop :=
  forall k, is_Some (dict_get k t) <-> is_Some (dict_get k t').

(** A method that neither reads nor writes the dict objects. *)
Definition heap_oblivious {A} (m : M A) : Prop :=
  forall h w, m (set_heap h w) = (fst (m w), set_heap h (snd (m w))).

Section Loading.
Context `{Collaborators}.

(** What [MetadataTypeResource._make] makes of the row of an id. *)
Definition load_metadata_type (σ : PostgresDb) (ref : option Z)
  : exn + MetadataType :=
  match get_metadata_type σ ref with
  | None => inl (TypeError "'NoneType' object is not subscriptable")
  | Some row =>
      match doc_getitem (mtr_definition row) "dataset" with
      | inl e => inl e
      | inr dataset_ =>
          inr (mkMetadataType (mtr_name row) dataset_
                              (get_dataset_fields row) (Some (mtr_id row)))
      end
  end.

(** The cache of [MetadataTypeResource.get] holds what the table
    holds. *)
Definition coherent (w : World) : Prop :=
  Forall (fun e => load_metadata_type (db w) (ce_key e) = inr (ce_value e))
         (cache_metadata_type_get w).
End Loading.

Section Invariants.
Context `{Collaborators}.
Import DatasetResource.

Definition source_event (dataset : Dataset) (items : list (string * Dataset))
    (tbl : list DatasetRow) (ev : Event) : Prop :=
  exists c s σ, ev = EvInsertDatasetSource c dataset s σ /\
                In (c, s) items /\ dataset_tbl σ = tbl.

Definition inserted_row (dataset : Dataset) : DatasetRow :=
  mkDatasetRow (ds_id dataset) (dt_id (ds_type dataset))
               (jsonify_document (metadata_doc dataset)) false.

Definition indexed (σ : PostgresDb) (x : Dataset) : Prop :=
  contains_dataset σ (ds_id x) = true.

(** The outcome of [add], stated for one dataset: used for the dataset
    itself and, by induction, for each of its sources. *)
Definition add_outcome (dataset : Dataset) : Prop :=
  forall skip_sources w,
  exists r w' events,
    add dataset skip_sources w = (r, dataset, w') /\
    rtc db_step (db w) (db w') /\
    heap w' = heap w /\ now w' = now w /\
    trace w' = trace w ++ events /\
    (r = None ->
     exists stripped row,
       reader_set_sources (metadata_doc dataset) (DDict []) = inr stripped /\
       find_dataset (db w') (ds_id dataset) = Some row /\
       dsr_metadata row = jsonify_document stripped /\
       exists σ, In (EvInsertDataset (with_metadata_doc dataset stripped) σ)
                    events) /\
    (skip_sources = false ->
     Forall sources_indexed events /\
     (r = None -> Forall (indexed (db w')) (dataset :: descendants dataset))).

Definition add_again (dataset : Dataset) : Prop :=
  forall skip_sources w w1,
    add dataset skip_sources w = (None, dataset, w1) ->
    forall w2, kept (db w1) (db w2) -> types_load (db w2) = true ->
    exists w3,
      add dataset skip_sources w2 = (None, dataset, w3) /\
      dataset_tbl (db w3) = dataset_tbl (db w2) /\
      metadata_type_tbl (db w3) = metadata_type_tbl (db w2) /\
      dataset_type_tbl (db w3) = dataset_type_tbl (db w2).

Definition archive_all (old_datasets : list Dataset) (σ : PostgresDb)
  : PostgresDb :=
  fold_left (fun σ unit => archive_storage_unit σ (ds_id unit))
            old_datasets σ.

(** An object whose sources are resolved against a table. *)
Definition resolved (datasets : list (string * LinkedDataset))
    (linked : LinkedDataset) : Prop :=
  comprehension datasets (source_pairs (ld_result linked)) []
    = inr (ld_sources linked) /\
  ld_source_datasets linked = Some (ld_sources linked).

(** A step that keeps the tables, the dicts and the coherence. *)
Definition steady (w w' : World) : Prop :=
  db w' = db w /\ heap w' = heap w /\ (coherent w -> coherent w').

Definition load_dataset_type (σ : PostgresDb) (row : DatasetTypeRow)
  : exn + DatasetType :=
  match load_metadata_type σ (dtr_metadata_type_ref row) with
  | inl e => inl e
  | inr mt => inr (mkDatasetType mt (dtr_definition row) (Some (dtr_id row)))
  end.

(** The two runs side by side: the same tables, coherent caches, and the
    same items in the dict each run works on. *)
Definition side_by_side (qc qs : nat) (wc ws : World) : Prop :=
  db wc = db ws /\ coherent wc /\ coherent ws /\
  exists d, heap wc !! qc = Some d /\ heap ws !! qs = Some d.

Definition count_body (q : nat) (result : Z)
    (dataset_type : option DatasetType) : M Z :=
  '(query_exprs, _) ← pin_and_compile q dataset_type;
  n ← db_read (fun σ => count_datasets σ query_exprs);
  mret (result + n).

Definition search_body (q : nat) (yielded : list Dataset)
    (dataset_type : option DatasetType) : M (list Dataset) :=
  '(query_exprs, dataset_fields) ← pin_and_compile q dataset_type;
  let select_fields := @None (list Field) in
  found ← db_read (fun σ => search_datasets σ query_exprs select_fields false);
  for_each found
    (fun yielded dataset => r ← DatasetResource._make (Some dataset);
                            mret (yielded ++ [r])) yielded.

Definition generated {A} (field_names : list string)
    (body : A -> option DatasetType -> M A) (acc : A)
    (record : DatasetTypeRow) : M A :=
  type_ ← DatasetTypeResource._make (Some record);
  if DatasetTypeResource.has_all_fields type_ field_names
  then body acc (Some type_)
  else mret acc.
(** The ids that [add] may give a row, and an [add] that goes through. *)
Definition ids_within (dataset : Dataset) : Prop :=
  forall skip_sources w id_,
    contains_dataset (db (snd (add dataset skip_sources w))) id_ = true ->
    contains_dataset (db w) id_ = true \/ In id_ (map ds_id (tree dataset)).

Definition goes_through (dataset : Dataset) : Prop :=
  forall w, insertable (db w) (tree dataset) = true ->
    exists w', add dataset false w = (None, dataset, w').
End Invariants.

(** ** Vocabulary of the further properties *)

(** A database that gained rows of datasets, source edges and locations
    at the end of its tables, and nothing else. *)
Definition grown (σ σ' : PostgresDb) : Prop :=
  metadata_type_tbl σ' = metadata_type_tbl σ /\
  dataset_type_tbl σ' = dataset_type_tbl σ /\
  dataset_tbl σ `prefix_of` dataset_tbl σ' /\
  dataset_source_tbl σ `prefix_of` dataset_source_tbl σ' /\
  dataset_location_tbl σ `prefix_of` dataset_location_tbl σ'.

(** A source edge asked for when the dataset it starts from has its
    row. *)
Definition dependent_indexed (ev : Event) : Prop :=
  match ev with
  | EvInsertDataset _ _ => True
  | EvInsertDatasetSource _ dataset _ σ =>
      contains_dataset σ (ds_id dataset) = true
  end.

(** The registry of types: no name twice, and a registry that gained
    types at the end of its two tables, and nothing else. *)
Definition unique_names (σ : PostgresDb) : Prop :=
  NoDup (map mtr_name (metadata_type_tbl σ)) /\
  NoDup (map dtr_name (dataset_type_tbl σ)).

Definition registered (σ σ' : PostgresDb) : Prop :=
  metadata_type_tbl σ `prefix_of` metadata_type_tbl σ' /\
  dataset_type_tbl σ `prefix_of` dataset_type_tbl σ' /\
  dataset_tbl σ' = dataset_tbl σ /\
  dataset_source_tbl σ' = dataset_source_tbl σ /\
  dataset_location_tbl σ' = dataset_location_tbl σ.

Definition keeps_registry {A} (m : M A) : Prop :=
  forall w,
    registered (db w) (db (snd (m w))) /\
    (unique_names (db w) -> unique_names (db (snd (m w)))).

(** One registration: a type under a name that has none. *)
Inductive type_step : PostgresDb -> PostgresDb -> Prop :=
  | step_metadata_type (σ : PostgresDb) (name definition : doc)
      (concurrently : bool) :
      get_metadata_type_by_name σ name = None ->
      type_step σ (add_metadata_type σ name definition concurrently)
  | step_dataset_type (σ : PostgresDb) (name metadata : doc)
      (metadata_type_id : option Z) (definition : doc) :
      get_dataset_type_by_name σ name = None ->
      type_step σ (add_dataset_type σ name metadata metadata_type_id
                                    definition).

Definition registers {A} (m : M A) : Prop :=
  forall w, rtc type_step (db w) (db (snd (m w))).

(** A method that leaves the database and the log of writes alone. *)
Definition reads_only {A} (m : M A) : Prop :=
  forall w, db (snd (m w)) = db w /\ trace (snd (m w)) = trace w.

(** A cache that serves [k] with [v] and is not reordered by serving
    it. *)
Definition settled {K V} `{EqDecision K} (time : nat) (k : K) (v : V)
    (c : Cache K V) : Prop :=
  cache_getitem time k c = Some (v, c).

(** What the methods of the dataset types leave alone: the clock, the
    cache of [MetadataTypeResource.get_by_name] and the metadata
    types. *)
Definition aside (w w' : World) : Prop :=
  now w' = now w /\
  cache_metadata_type_get_by_name w' = cache_metadata_type_get_by_name w /\
  metadata_type_tbl (db w') = metadata_type_tbl (db w).

(** [dataset_type.id] on the [None] that [get_by_name] returned. *)
Definition no_type : exn :=
  AttributeError "'NoneType' object has no attribute 'id'".

Section Records.
Context `{Collaborators}.

(** The row that [add] inserts for a dataset, and what an [add] without
    its sources may have written. *)
Definition own_row (dataset : Dataset) : DatasetRow :=
  mkDatasetRow (ds_id dataset) (dt_id (ds_type dataset))
               (jsonify_document (stripped_doc dataset)) false.

Definition own_records (dataset : Dataset) (σ σ' : PostgresDb) : Prop :=
  metadata_type_tbl σ' = metadata_type_tbl σ /\
  dataset_type_tbl σ' = dataset_type_tbl σ /\
  (dataset_tbl σ' = dataset_tbl σ \/
   contains_dataset σ (ds_id dataset) = false /\
   dataset_tbl σ' = dataset_tbl σ ++ [own_row dataset]) /\
  (exists edges,
      dataset_source_tbl σ' = dataset_source_tbl σ ++ edges /\
      edges `prefix_of` map (edge_of dataset) (sources dataset)) /\
  (dataset_location_tbl σ' = dataset_location_tbl σ \/
   exists uri, local_uri dataset = Some uri /\
     dataset_location_tbl σ' =
       dataset_location_tbl σ ++ [mkLocationRow (ds_id dataset) uri]).

Definition row_first (dataset : Dataset) : Prop :=
  forall skip_sources w,
  exists events,
    trace (snd (DatasetResource.add dataset skip_sources w))
      = trace w ++ events /\
    Forall dependent_indexed events.
End Records.

(** * Properties *)

(** ** Dicts and the lineage reader *)

Lemma dict_get_set_eq {V} (k : string) (v : V) (d : list (string * V)) :
  dict_get k (dict_set k v d) = Some v.
Proof.
  induction d as [| [k' v'] d IH]; simpl.
  - now rewrite String.eqb_refl.
  - destruct (String.eqb k k') eqn:E; simpl; rewrite E; auto.
Qed.

Lemma dict_set_set_back {V} (k : string) (v0 v1 : V) (d : list (string * V)) :
  dict_get k d = Some v0 -> dict_set k v0 (dict_set k v1 d) = d.
Proof.
  induction d as [| [k' v'] d IH]; simpl; [discriminate |].
  destruct (String.eqb k k') eqn:E; simpl; rewrite E.
  - now intros [= ->].
  - intros Hd. now rewrite IH.
Qed.

Lemma dict_get_set_ne {V} (k k' : string) (v : V) (d : list (string * V)) :
  k <> k' -> dict_get k (dict_set k' v d) = dict_get k d.
Proof.
  intros Hne. induction d as [| [k'' v''] d IH]; simpl.
  - destruct (String.eqb k k') eqn:E; [apply String.eqb_eq in E; easy | easy].
  - destruct (String.eqb k' k'') eqn:E; simpl.
    + apply String.eqb_eq in E. subst k''.
      destruct (String.eqb k k') eqn:E'; [apply String.eqb_eq in E'|]; easy.
    + now rewrite IH.
Qed.

Lemma dict_keys_set {V} (k : string) (v : V) (d : list (string * V)) :
  is_Some (dict_get k d) -> dict_keys (dict_set k v d) = dict_keys d.
Proof.
  unfold dict_keys. induction d as [| [k' v'] d IH]; simpl.
  - intros [? [=]].
  - destruct (String.eqb k k') eqn:E; simpl; [easy |].
    intros Hs. now rewrite IH.
Qed.

(** Writing back what was read undoes a write to the lineage section. *)
Lemma reader_restore (d d1 tmp v : doc) :
  reader_sources d = inr tmp ->
  reader_set_sources d v = inr d1 ->
  reader_set_sources d1 tmp = inr d.
Proof.
  unfold reader_sources, reader_set_sources, doc_getitem, doc_setitem.
  destruct d as [| | | | |entries]; try discriminate.
  destruct (dict_get "lineage" entries) as [lineage|] eqn:El;
    [| discriminate].
  destruct lineage as [| | | | |inner]; try discriminate.
  destruct (dict_get "source_datasets" inner) as [x|] eqn:Es;
    [| discriminate].
  intros [= ->] [= <-].
  rewrite dict_get_set_eq.
  rewrite (dict_set_set_back _ _ _ _ Es).
  now rewrite (dict_set_set_back _ _ _ _ El).
Qed.

(** A write to the lineage section succeeds where a read does. *)
Lemma reader_set_after_get (d tmp v : doc) :
  reader_sources d = inr tmp -> exists d1, reader_set_sources d v = inr d1.
Proof.
  unfold reader_sources, reader_set_sources, doc_getitem, doc_setitem.
  destruct d as [| | | | |entries]; try discriminate.
  destruct (dict_get "lineage" entries) as [lineage|]; [| discriminate].
  destruct lineage as [| | | | |inner]; try discriminate.
  eauto.
Qed.

(** ** Induction on a dataset and its sources *)

Fixpoint Dataset_ind (P : Dataset -> Prop)
    (step : forall id_ type_ md uri srcs,
        Forall (fun cs => P (snd cs)) srcs ->
        P (mkDataset id_ type_ md uri srcs))
    (d : Dataset) {struct d} : P d :=
  match d with
  | mkDataset id_ type_ md uri srcs =>
      step id_ type_ md uri srcs
        ((fix all (l : list (string * Dataset))
            : Forall (fun cs => P (snd cs)) l :=
            match l with
            | [] => List.Forall_nil _
            | cs :: l' =>
                @List.Forall_cons _ (fun cs => P (snd cs)) cs l'
                  (Dataset_ind P step (snd cs)) (all l')
            end) srcs)
  end.

Lemma with_metadata_doc_back (d : Dataset) (x : doc) :
  with_metadata_doc (with_metadata_doc d x) (metadata_doc d) = d.
Proof. now destruct d. Qed.

Lemma with_sources_same (d : Dataset) : with_sources d (sources d) = d.
Proof. now destruct d. Qed.

Ltac unfold_m :=
  unfold MetadataTypeResource._make, DatasetTypeResource._make,
    DatasetResource._make in *;
  unfold mbind, M_bind, bind, mret, M_ret, ret, raise, lift, db_read,
    db_call, db_update, log, dict_object, dict_store, dict_copy in *.

Lemma same_store_refl w : same_store w w.
Proof. now repeat split. Qed.

Lemma same_store_trans w1 w2 w3 :
  same_store w1 w2 -> same_store w2 w3 -> same_store w1 w3.
Proof. unfold same_store. intuition congruence. Qed.

Section Properties.
Context `{Collaborators}.
Import DatasetResource.

(** [add] is its loop over the sources followed by [add_this]. *)
Lemma add_unfold (dataset : Dataset) (skip_sources : bool) (w : World) :
  add dataset skip_sources w =
  let '(raised, sources', w) :=
    if skip_sources then (None, sources dataset, w)
    else add_sources (sources dataset) w in
  match raised with
  | Some e => (Some e, with_sources dataset sources', w)
  | None => add_this (with_sources dataset sources') w
  end.
Proof.
  destruct dataset as [id_ type_ md uri srcs]. simpl.
  destruct skip_sources; [reflexivity |].
  change ((fix for_each_source (items : list (string * Dataset)) (w0 : World)
             {struct items} : option exn * list (string * Dataset) * World :=
             match items with
             | [] => (None, [], w0)
             | (classifier, source) :: rest =>
                 match add source false w0 with
                 | (Some e, source', w1) =>
                     (Some e, (classifier, source') :: rest, w1)
                 | (None, source', w1) =>
                     let '(raised, rest', w2) := for_each_source rest w1 in
                     (raised, (classifier, source') :: rest', w2)
                 end
             end) srcs w) with (add_sources srcs w).
  destruct (add_sources srcs w) as [[raised sources'] w'].
  reflexivity.
Qed.

(** *** The document is put back *)

Lemma add_this_same_object (dataset : Dataset) (w : World) :
  snd (fst (add_this dataset w)) = dataset.
Proof.
  unfold add_this.
  destruct (reader_sources (metadata_doc dataset)) as [e|tmp] eqn:Eg;
    [reflexivity |].
  destruct (reader_set_sources (metadata_doc dataset) (DDict []))
    as [e|stripped] eqn:Es; [reflexivity |].
  destruct (index_and_check _ w) as [outcome w1].
  pose proof (reader_restore _ _ _ _ Eg Es) as Hback.
  simpl. rewrite Hback.
  rewrite with_metadata_doc_back.
  destruct outcome as [e|u]; [reflexivity |].
  destruct (register_location dataset w1) as [[e|u'] w2]; reflexivity.
Qed.

Lemma add_sources_same_objects (items : list (string * Dataset)) :
  Forall (fun cs => forall skip w, snd (fst (add (snd cs) skip w)) = snd cs)
         items ->
  forall w, snd (fst (add_sources items w)) = items.
Proof.
  induction 1 as [| [c s] items Hs _ IH]; intros w; [reflexivity |].
  simpl in *. specialize (Hs false w).
  destruct (add s false w) as [[[e|] s'] w1]; simpl in Hs; subst s';
    [reflexivity |].
  specialize (IH w1).
  destruct (add_sources items w1) as [[raised rest'] w2]. simpl in *.
  now subst.
Qed.

Lemma add_same_object (dataset : Dataset) :
  forall skip_sources w, snd (fst (add dataset skip_sources w)) = dataset.
Proof.
  induction dataset as [id_ type_ md uri srcs IH] using Dataset_ind.
  intros skip w. rewrite add_unfold.
  pose proof (add_sources_same_objects srcs IH w) as Hsrcs.
  simpl sources.
  destruct skip.
  - simpl. apply add_this_same_object.
  - destruct (add_sources srcs w) as [[raised sources'] w1].
    simpl in Hsrcs. subst sources'. simpl.
    destruct raised; [reflexivity | apply add_this_same_object].
Qed.

(** A decorated method leaves the store alone when the method does. *)
Lemma cached_same_store {K V} `{EqDecision K}
    (cache : World -> Cache K V) (set_cache : Cache K V -> World -> World)
    (func : K -> M V) (k : K) (w : World) :
  (forall c w, same_store w (set_cache c w)) ->
  (forall w, same_store w (snd (func k w))) ->
  same_store w (snd (cached cache set_cache func k w)).
Proof.
  intros Hset Hfunc. unfold cached.
  destruct (cache_getitem (now w) k (cache w)) as [[v c]|]; simpl.
  - apply Hset.
  - specialize (Hfunc w). destruct (func k w) as [[e|v] w']; simpl in *.
    + exact Hfunc.
    + eapply same_store_trans; [exact Hfunc | apply Hset].
Qed.

(** A decorated method returns where the method does. *)
Lemma cached_returns {K V} `{EqDecision K}
    (cache : World -> Cache K V) (set_cache : Cache K V -> World -> World)
    (func : K -> M V) (k : K) (w : World) :
  (exists v w', func k w = (inr v, w')) ->
  exists v w', cached cache set_cache func k w = (inr v, w').
Proof.
  intros (v & w' & Hf). unfold cached.
  destruct (cache_getitem (now w) k (cache w)) as [[v0 c]|]; [eauto |].
  rewrite Hf. eauto.
Qed.

Lemma metadata_type_get_same_store ref w :
  same_store w (snd (MetadataTypeResource.get ref w)).
Proof.
  apply cached_same_store; [intros; now repeat split |].
  intros w0. unfold_m. simpl.
  destruct (get_metadata_type (db w0) ref) as [row|]; simpl;
    [| apply same_store_refl].
  destruct (doc_getitem (mtr_definition row) "dataset"); simpl;
    apply same_store_refl.
Qed.

Lemma metadata_type_get_returns ref w :
  metadata_type_loads (db w) ref = true ->
  exists v w', MetadataTypeResource.get ref w = (inr v, w').
Proof.
  unfold metadata_type_loads. intros Hl.
  apply cached_returns. unfold_m. simpl.
  destruct (get_metadata_type (db w) ref) as [row|]; [| discriminate].
  simpl. destruct (doc_getitem (mtr_definition row) "dataset");
    [discriminate | simpl; eauto].
Qed.

Lemma dataset_type_get_same_store ref w :
  same_store w (snd (DatasetTypeResource.get ref w)).
Proof.
  apply cached_same_store; [intros; now repeat split |].
  intros w0. unfold_m. simpl.
  destruct (get_dataset_type (db w0) ref) as [row|]; simpl;
    [| apply same_store_refl].
  pose proof (metadata_type_get_same_store (dtr_metadata_type_ref row) w0).
  destruct (MetadataTypeResource.get _ w0) as [[e|v] w1]; simpl in *; auto.
Qed.

Lemma dataset_type_get_returns ref w :
  dataset_type_loads (db w) ref = true ->
  exists v w', DatasetTypeResource.get ref w = (inr v, w').
Proof.
  unfold dataset_type_loads. intros Hl.
  apply cached_returns. unfold_m. simpl.
  destruct (get_dataset_type (db w) ref) as [row|]; [| discriminate].
  simpl.
  destruct (metadata_type_get_returns _ _ Hl) as (v & w' & ->). eauto.
Qed.

(** [get(id)] returns the stored document when the row and its type are
    there, and touches nothing but the caches. *)
Lemma get_stored_document id_ row w :
  find_dataset (db w) id_ = Some row ->
  dataset_type_loads (db w) (dsr_dataset_type_ref row) = true ->
  exists existing w',
    DatasetResource.get id_ false w = (inr existing, w') /\
    metadata_doc existing = dsr_metadata row /\
    same_store w w'.
Proof.
  intros Hrow Hl. unfold DatasetResource.get, get_dataset. unfold_m.
  rewrite Hrow. simpl.
  pose proof (dataset_type_get_same_store (dsr_dataset_type_ref row) w)
    as Hs.
  destruct (dataset_type_get_returns _ _ Hl) as (v & w' & Hg).
  rewrite Hg in *. simpl in *. eauto.
Qed.

Lemma get_same_store id_ w :
  same_store w (snd (DatasetResource.get id_ false w)).
Proof.
  unfold DatasetResource.get, get_dataset. unfold_m.
  destruct (find_dataset (db w) id_) as [row|]; simpl;
    [| apply same_store_refl].
  pose proof (dataset_type_get_same_store (dsr_dataset_type_ref row) w)
    as Hs.
  destruct (DatasetTypeResource.get _ w) as [[e|v] w']; simpl in *; auto.
Qed.

(** *** What a write keeps *)

Lemma find_app {A} (f : A -> bool) (l l' : list A) :
  List.find f (l ++ l') =
  match List.find f l with Some x => Some x | None => List.find f l' end.
Proof. induction l as [| x l IH]; simpl; [| destruct (f x)]; auto. Qed.

Lemma find_dataset_app σ rows id_ :
  find_dataset (with_dataset_tbl (dataset_tbl σ ++ rows) σ) id_ =
  match find_dataset σ id_ with
  | Some r => Some r
  | None => List.find (fun r => bool_decide (dsr_id r = id_)) rows
  end.
Proof.
  unfold find_dataset. simpl. generalize (dataset_tbl σ) as tbl.
  induction tbl as [| r tbl IH]; simpl; [reflexivity |].
  destruct (bool_decide (dsr_id r = id_)); auto.
Qed.

Lemma contains_dataset_find σ id_ :
  contains_dataset σ id_ = true <-> is_Some (find_dataset σ id_).
Proof. unfold contains_dataset. apply bool_decide_eq_true. Qed.

Lemma contains_dataset_none σ id_ :
  contains_dataset σ id_ = false <-> find_dataset σ id_ = None.
Proof.
  unfold contains_dataset. rewrite bool_decide_eq_false.
  rewrite <- eq_None_not_Some. reflexivity.
Qed.

Lemma kept_refl σ : kept σ σ.
Proof. intros id_ row Hr. eauto. Qed.

Lemma kept_trans σ1 σ2 σ3 : kept σ1 σ2 -> kept σ2 σ3 -> kept σ1 σ3.
Proof.
  intros H12 H23 id_ row Hr.
  destruct (H12 _ _ Hr) as (r2 & Hr2 & Hm2 & Ht2).
  destruct (H23 _ _ Hr2) as (r3 & Hr3 & Hm3 & Ht3).
  exists r3. repeat split; congruence.
Qed.

Lemma kept_same_table σ σ' : dataset_tbl σ' = dataset_tbl σ -> kept σ σ'.
Proof.
  intros Ht id_ row Hr. exists row. unfold find_dataset in *.
  rewrite Ht. auto.
Qed.

Lemma db_step_kept σ σ' : db_step σ σ' -> kept σ σ'.
Proof.
  destruct 1 as [σ row Hnew | σ edge | σ location];
    [| now apply kept_same_table ..].
  intros id_ r Hr. exists r. rewrite find_dataset_app, Hr. auto.
Qed.

Lemma db_steps_kept σ σ' : rtc db_step σ σ' -> kept σ σ'.
Proof.
  induction 1 as [| σ1 σ2 σ3 Hs _ IH]; [apply kept_refl |].
  eapply kept_trans; [apply db_step_kept, Hs | exact IH].
Qed.

Lemma db_steps_types σ σ' :
  rtc db_step σ σ' ->
  metadata_type_tbl σ' = metadata_type_tbl σ /\
  dataset_type_tbl σ' = dataset_type_tbl σ.
Proof.
  induction 1 as [| σ1 σ2 σ3 Hs _ [IH1 IH2]]; [auto |].
  rewrite IH1, IH2. destruct Hs; auto.
Qed.

Lemma kept_contains σ σ' id_ :
  kept σ σ' -> contains_dataset σ id_ = true ->
  contains_dataset σ' id_ = true.
Proof.
  rewrite !contains_dataset_find. intros Hk [row Hr].
  destruct (Hk _ _ Hr) as (r' & -> & _). eauto.
Qed.

Lemma find_dataset_id σ id_ row :
  find_dataset σ id_ = Some row -> dsr_id row = id_ /\ In row (dataset_tbl σ).
Proof.
  unfold find_dataset. intros Hf. apply find_some in Hf as [Hin Hd].
  apply bool_decide_eq_true in Hd. auto.
Qed.

Lemma find_dataset_none_notin σ id_ :
  find_dataset σ id_ = None <-> ~ In id_ (map dsr_id (dataset_tbl σ)).
Proof.
  unfold find_dataset. induction (dataset_tbl σ) as [| r tbl IH]; simpl.
  - tauto.
  - destruct (bool_decide (dsr_id r = id_)) eqn:E.
    + apply bool_decide_eq_true in E. split; [discriminate | tauto].
    + apply bool_decide_eq_false in E. rewrite IH. tauto.
Qed.

Lemma db_steps_nodup σ σ' :
  rtc db_step σ σ' ->
  NoDup (map dsr_id (dataset_tbl σ)) ->
  NoDup (map dsr_id (dataset_tbl σ')).
Proof.
  induction 1 as [| σ1 σ2 σ3 Hs _ IH]; [auto |].
  intros Hn. apply IH. destruct Hs as [σ row Hnew | |]; simpl; auto.
  rewrite map_app. simpl. apply find_dataset_none_notin in Hnew.
  apply NoDup_app. repeat split; auto.
  - intros x Hx Hx'. apply list_elem_of_In in Hx.
    apply list_elem_of_singleton in Hx'. now subst.
  - apply NoDup_singleton.
Qed.

Lemma records_of_one σ id_ row :
  NoDup (map dsr_id (dataset_tbl σ)) ->
  find_dataset σ id_ = Some row ->
  records_of σ id_ = [row].
Proof.
  unfold records_of, find_dataset.
  induction (dataset_tbl σ) as [| r tbl IH]; simpl; [discriminate |].
  intros Hn. inversion Hn as [| ? ? Hnotin Hn']; subst.
  rewrite list_elem_of_In in Hnotin.
  destruct (bool_decide (dsr_id r = id_)) eqn:E.
  - intros [= ->]. f_equal. apply bool_decide_eq_true in E. subst id_.
    clear IH Hn Hn'. induction tbl as [| r' tbl IH]; simpl; [reflexivity |].
    simpl in Hnotin.
    destruct (bool_decide (dsr_id r' = dsr_id row)) eqn:E'.
    + apply bool_decide_eq_true in E'. tauto.
    + apply IH. tauto.
  - auto.
Qed.

Lemma written_refl w : written w w.
Proof. repeat split; [apply rtc_refl |]. exists []. now rewrite app_nil_r. Qed.

Lemma written_trans w1 w2 w3 : written w1 w2 -> written w2 w3 -> written w1 w3.
Proof.
  intros (Hd & Hh & Hn & ev & Ht) (Hd' & Hh' & Hn' & ev' & Ht').
  repeat split; try congruence.
  - eapply rtc_trans; eauto.
  - exists (ev ++ ev'). rewrite Ht', Ht. now rewrite app_assoc.
Qed.

Lemma same_store_written w w' : same_store w w' -> written w w'.
Proof.
  intros (Hd & Hh & Ht & Hn). repeat split; auto.
  - rewrite Hd. apply rtc_refl.
  - exists []. now rewrite app_nil_r.
Qed.

Lemma get_returns_row id_ w existing w' :
  DatasetResource.get id_ false w = (inr existing, w') ->
  exists row, find_dataset (db w) id_ = Some row /\
              metadata_doc existing = dsr_metadata row.
Proof.
  unfold DatasetResource.get, get_dataset. unfold_m.
  destruct (find_dataset (db w) id_) as [row|]; simpl; [| discriminate].
  destruct (DatasetTypeResource.get _ w) as [[e|v] w1]; [discriminate |].
  intros [= <- <-]. eauto.
Qed.

(** *** The writes of [add] *)

Lemma insert_sources_spec dataset items w :
  exists r w' events,
    insert_sources dataset items w = (r, w') /\
    (r = inr tt \/ exists m, r = inl (DuplicateRecordError m)) /\
    rtc db_step (db w) (db w') /\
    dataset_tbl (db w') = dataset_tbl (db w) /\
    heap w' = heap w /\ now w' = now w /\
    trace w' = trace w ++ events /\
    Forall (source_event dataset items (dataset_tbl (db w))) events.
Proof.
  revert w. induction items as [| [c s] items IH]; intros w.
  - exists (inr tt), w, []. simpl. unfold_m.
    repeat split; auto using rtc_refl, app_nil_r.
  - simpl. unfold_m. simpl. unfold insert_dataset_source.
    destruct (existsb _ (dataset_source_tbl (db w))); simpl.
    + eexists _, _, [_]. repeat split; eauto using rtc_refl.
      constructor; [| constructor]. exists c, s, (db w). simpl. auto.
    + match goal with |- context [insert_sources dataset items ?w1] =>
        destruct (IH w1) as (r & w' & evs & -> & Hr & Hs & Ht & Hh & Hn & Htr & Hev)
      end.
      simpl in *.
      exists r, w', (EvInsertDatasetSource c dataset s (db w) :: evs).
      repeat split; auto.
      * eapply rtc_l; [apply step_source | exact Hs].
      * rewrite Htr. now rewrite <- app_assoc.
      * constructor.
        -- exists c, s, (db w). simpl. auto.
        -- eapply Forall_impl; [exact Hev |].
           intros ev (c' & s' & σ & -> & Hin & Hσ). exists c', s', σ.
           simpl. auto.
Qed.

Lemma index_transaction_spec dataset w :
  exists was_inserted w' events,
    index_transaction dataset w = (inr was_inserted, w') /\
    contains_dataset (db w) (ds_id dataset) = negb was_inserted /\
    dataset_tbl (db w') =
      (if was_inserted
       then dataset_tbl (db w) ++ [inserted_row dataset]
       else dataset_tbl (db w)) /\
    rtc db_step (db w) (db w') /\
    heap w' = heap w /\ now w' = now w /\
    trace w' = trace w ++ EvInsertDataset dataset (db w) :: events /\
    Forall (source_event dataset (sources dataset) (dataset_tbl (db w')))
           events.
Proof.
  unfold index_transaction, with_begin. unfold_m. simpl.
  unfold insert_dataset.
  destruct (contains_dataset (db w) (ds_id dataset)) eqn:Ec.
  - destruct duplicate_raises; simpl.
    + exists false, (set_trace (trace w ++ [EvInsertDataset dataset (db w)]) w), [].
      simpl. repeat split; auto using rtc_refl.
    + match goal with |- context [insert_sources dataset ?it ?w1] =>
        destruct (insert_sources_spec dataset it w1)
          as (r & w' & evs & Hi & Hr & Hs & Ht & Hh & Hn & Htr & Hev)
      end.
      rewrite Hi. simpl in *.
      exists false, w', evs.
      repeat split; auto.
      * destruct Hr as [-> | [m ->]]; reflexivity.
      * rewrite Htr. now rewrite <- app_assoc.
      * now rewrite Ht.
  - simpl.
    match goal with |- context [insert_sources dataset ?it ?w1] =>
      destruct (insert_sources_spec dataset it w1)
        as (r & w' & evs & Hi & Hr & Hs & Ht & Hh & Hn & Htr & Hev)
    end.
    rewrite Hi. simpl in *.
    exists true, w', evs.
    repeat split; auto.
    + destruct Hr as [-> | [m ->]]; reflexivity.
    + eapply rtc_l; [| exact Hs].
      apply (step_dataset (db w) (inserted_row dataset)).
      now apply contains_dataset_none.
    + rewrite Htr. now rewrite <- app_assoc.
    + now rewrite Ht.
Qed.

Lemma contains_same_table σ σ' id_ :
  dataset_tbl σ' = dataset_tbl σ ->
  contains_dataset σ' id_ = contains_dataset σ id_.
Proof.
  intros Ht. unfold contains_dataset, find_dataset. now rewrite Ht.
Qed.

Lemma register_location_spec dataset w :
  exists w', register_location dataset w = (inr tt, w') /\
    rtc db_step (db w) (db w') /\
    dataset_tbl (db w') = dataset_tbl (db w) /\
    heap w' = heap w /\ now w' = now w /\ trace w' = trace w.
Proof.
  unfold register_location, except_DuplicateRecordError. unfold_m.
  destruct (local_uri dataset) as [uri|];
    [| exists w; repeat split; auto using rtc_refl].
  unfold ensure_dataset_location.
  destruct (existsb _ (dataset_location_tbl (db w))).
  - destruct duplicate_raises; simpl.
    + exists w. repeat split; auto using rtc_refl.
    + eexists. split; [reflexivity |]. simpl.
      destruct w as [σ ? ? ? ? ? ? ?]. simpl.
      repeat split; auto using rtc_refl.
  - simpl. eexists. split; [reflexivity |]. simpl.
    repeat split; auto. apply rtc_once, step_location.
Qed.

Lemma descendants_with_metadata_doc dataset d :
  descendants (with_metadata_doc dataset d) = descendants dataset.
Proof. now destruct dataset. Qed.

Lemma source_in_descendants dataset c s :
  In (c, s) (sources dataset) -> In s (descendants dataset).
Proof.
  destruct dataset as [id_ type_ md uri srcs]. simpl.
  induction srcs as [| [c' s'] srcs IH]; simpl; [tauto |].
  intros [[= -> ->] | Hin]; [now left |].
  right. apply in_or_app. right. auto.
Qed.

Lemma index_and_check_eq dataset w :
  index_and_check dataset w =
  match index_transaction dataset w with
  | (inl e, w1) => (inl e, w1)
  | (inr true, w1) => (inr tt, w1)
  | (inr false, w1) =>
      match get (ds_id dataset) false w1 with
      | (inl e, w2) => (inl e, w2)
      | (inr existing, w2) =>
          if bool_decide (metadata_doc existing =
                          jsonify_document (metadata_doc dataset))
          then (inr tt, w2)
          else (inl (ConflictError "Dataset " (DStr (ds_id dataset))), w2)
      end
  end.
Proof.
  unfold index_and_check. unfold mbind, M_bind, bind.
  destruct (index_transaction dataset w) as [[e|[|]] w1]; try reflexivity.
  change (negb false) with true. cbv beta iota.
  destruct (get (ds_id dataset) false w1) as [[e|existing] w2];
    try reflexivity.
  unfold check_doc_unchanged.
  now destruct (bool_decide (metadata_doc existing = _)).
Qed.

Lemma add_this_eq dataset w tmp stripped :
  reader_sources (metadata_doc dataset) = inr tmp ->
  reader_set_sources (metadata_doc dataset) (DDict []) = inr stripped ->
  add_this dataset w =
  match index_and_check (with_metadata_doc dataset stripped) w with
  | (inl e, w1) => (Some e, dataset, w1)
  | (inr _, w1) =>
      match register_location dataset w1 with
      | (inl e, w2) => (Some e, dataset, w2)
      | (inr _, w2) => (None, dataset, w2)
      end
  end.
Proof.
  intros Eg Es. unfold add_this. rewrite Eg, Es.
  destruct (index_and_check _ w) as [outcome w1].
  simpl. rewrite (reader_restore _ _ _ _ Eg Es).
  rewrite with_metadata_doc_back. now destruct outcome.
Qed.

(** What [add] does once the sources are in. *)
Lemma add_this_spec dataset w :
  exists r w' events,
    add_this dataset w = (r, dataset, w') /\
    rtc db_step (db w) (db w') /\
    heap w' = heap w /\ now w' = now w /\
    trace w' = trace w ++ events /\
    (r = None ->
     exists stripped row,
       reader_set_sources (metadata_doc dataset) (DDict []) = inr stripped /\
       find_dataset (db w') (ds_id dataset) = Some row /\
       dsr_metadata row = jsonify_document stripped /\
       In (EvInsertDataset (with_metadata_doc dataset stripped) (db w))
          events) /\
    (Forall (fun x => contains_dataset (db w) (ds_id x) = true)
            (descendants dataset) ->
     Forall sources_indexed events).
Proof.
  destruct (reader_sources (metadata_doc dataset)) as [e|tmp] eqn:Eg.
  { exists (Some e), w, []. rewrite app_nil_r. unfold add_this. rewrite Eg.
    repeat split; auto using rtc_refl. discriminate. }
  destruct (reader_set_sources (metadata_doc dataset) (DDict []))
    as [e|stripped] eqn:Es.
  { exists (Some e), w, []. rewrite app_nil_r. unfold add_this.
    rewrite Eg, Es. repeat split; auto using rtc_refl. discriminate. }
  rewrite (add_this_eq _ _ _ _ Eg Es), index_and_check_eq.
  set (ds := with_metadata_doc dataset stripped) in *.
  destruct (index_transaction_spec ds w)
    as (b & w1 & evs & Hi & Hc & Ht & Hs & Hh & Hn & Htr & Hev).
  rewrite Hi.
  assert (Hgood : Forall (fun x => contains_dataset (db w) (ds_id x) = true)
                         (descendants dataset) ->
                  Forall sources_indexed
                         (EvInsertDataset ds (db w) :: evs)).
  { intros Hd. constructor.
    - unfold sources_indexed. subst ds.
      rewrite descendants_with_metadata_doc. exact Hd.
    - eapply Forall_impl; [exact Hev |].
      intros ev (c & s & σ & -> & Hin & Hσ). simpl.
      rewrite Forall_forall in Hd.
      assert (Hin' : In s (descendants dataset)).
      { apply (source_in_descendants dataset c). subst ds.
        now destruct dataset. }
      apply list_elem_of_In in Hin'. specialize (Hd _ Hin').
      eapply kept_contains; [| exact Hd].
      eapply kept_trans; [apply db_steps_kept, Hs |].
      now apply kept_same_table. }
  assert (Hid : ds_id ds = ds_id dataset) by (subst ds; now destruct dataset).
  assert (Hmd : metadata_doc ds = stripped) by (subst ds; now destruct dataset).
  rewrite ?Hid, ?Hmd. rewrite Hid in Hc.
  destruct b.
  - (* the row was inserted *)
    destruct (register_location_spec dataset w1)
      as (w2 & Hl & Hs2 & Ht2 & Hh2 & Hn2 & Htr2).
    rewrite Hl.
    exists None, w2, (EvInsertDataset ds (db w) :: evs).
    split; [reflexivity |].
    split; [eapply rtc_trans; eauto |].
    split; [congruence |]. split; [congruence |].
    split; [rewrite Htr2; exact Htr |].
    split; [| exact Hgood].
    intros _. exists stripped, (inserted_row ds).
    split; [reflexivity |].
    split; [| split; [unfold inserted_row; simpl; congruence | now left]].
    unfold find_dataset. rewrite Ht2, Ht.
    apply contains_dataset_none in Hc. unfold find_dataset in Hc.
    rewrite find_app, Hc. unfold inserted_row. simpl.
    rewrite bool_decide_eq_true_2; [reflexivity | exact Hid].
  - (* it was there: the stored document is compared *)
    simpl in Hc.
    pose proof (get_same_store (ds_id dataset) w1) as Hss.
    destruct (get (ds_id dataset) false w1) as [[e|existing] w2] eqn:Eget;
      destruct Hss as (Hd2 & Hh2 & Htr2 & Hn2); simpl in *.
    + exists (Some e), w2, (EvInsertDataset ds (db w) :: evs).
      split; [reflexivity |].
      split; [now rewrite Hd2 |].
      split; [congruence |]. split; [congruence |].
      split; [rewrite Htr2; exact Htr |].
      split; [discriminate | exact Hgood].
    + destruct (get_returns_row _ _ _ _ Eget) as (row & Hrow & Hm).
      destruct (bool_decide (metadata_doc existing = jsonify_document stripped))
        eqn:Eq.
      * destruct (register_location_spec dataset w2)
          as (w3 & Hl & Hs3 & Ht3 & Hh3 & Hn3 & Htr3).
        rewrite Hl.
        exists None, w3, (EvInsertDataset ds (db w) :: evs).
        split; [reflexivity |].
        split; [eapply rtc_trans; [exact Hs |]; now rewrite <- Hd2 |].
        split; [congruence |]. split; [congruence |].
        split; [rewrite Htr3, Htr2; exact Htr |].
        split; [| exact Hgood].
        intros _. exists stripped, row. split; [reflexivity |].
        split; [| split; [| now left]].
        -- unfold find_dataset in *. now rewrite Ht3, Hd2.
        -- apply bool_decide_eq_true in Eq. congruence.
      * exists (Some (ConflictError "Dataset " (DStr (ds_id dataset)))), w2,
          (EvInsertDataset ds (db w) :: evs).
        split; [reflexivity |].
        split; [now rewrite Hd2 |].
        split; [congruence |]. split; [congruence |].
        split; [rewrite Htr2; exact Htr |].
        split; [discriminate | exact Hgood].
Qed.

Lemma Forall_descendants (P : Dataset -> Prop) dataset :
  Forall P (descendants dataset) <->
  Forall (fun cs => Forall P (snd cs :: descendants (snd cs)))
         (sources dataset).
Proof.
  destruct dataset as [id_ type_ md uri srcs]. simpl.
  induction srcs as [| [c s] srcs IH]; simpl.
  - split; constructor.
  - rewrite Forall_cons, Forall_app, IH, !Forall_cons. simpl. tauto.
Qed.

Lemma indexed_kept σ σ' x : kept σ σ' -> indexed σ x -> indexed σ' x.
Proof. intros Hk. now apply kept_contains. Qed.

Lemma add_sources_outcome items :
  Forall (fun cs => add_outcome (snd cs)) items ->
  forall w,
  exists r w' events,
    add_sources items w = (r, items, w') /\
    rtc db_step (db w) (db w') /\
    heap w' = heap w /\ now w' = now w /\
    trace w' = trace w ++ events /\
    Forall sources_indexed events /\
    (r = None ->
     Forall (fun cs => Forall (indexed (db w'))
                              (snd cs :: descendants (snd cs))) items).
Proof.
  induction 1 as [| [c s] items Hs _ IH]; intros w.
  - exists None, w, []. simpl. rewrite app_nil_r.
    repeat split; auto using rtc_refl.
  - simpl in Hs. simpl.
    destruct (Hs false w)
      as (r & w1 & ev1 & -> & Hst1 & Hh1 & Hn1 & Htr1 & _ & Hsk1).
    destruct (Hsk1 eq_refl) as [Hev1 Hidx1].
    destruct r as [e|].
    + exists (Some e), w1, ev1. repeat split; auto. discriminate.
    + destruct (IH w1)
        as (r & w2 & ev2 & -> & Hst2 & Hh2 & Hn2 & Htr2 & Hev2 & Hidx2).
      exists r, w2, (ev1 ++ ev2).
      split; [reflexivity |].
      split; [eapply rtc_trans; eauto |].
      split; [congruence |]. split; [congruence |].
      split; [rewrite Htr2, Htr1; now rewrite app_assoc |].
      split; [apply Forall_app; auto |].
      intros Hr. constructor; [| auto]. simpl.
      eapply Forall_impl; [apply Hidx1; reflexivity |].
      intros x. apply indexed_kept. now apply db_steps_kept.
Qed.

Lemma add_outcome_all dataset : add_outcome dataset.
Proof.
  induction dataset as [id_ type_ md uri srcs IH] using Dataset_ind.
  intros skip w. rewrite add_unfold. simpl sources.
  set (d := mkDataset id_ type_ md uri srcs).
  destruct skip.
  - cbv beta iota. change (with_sources d srcs) with d.
    destruct (add_this_spec d w)
      as (r & w' & evs & -> & Hst & Hh & Hn & Htr & Hrow & _).
    exists r, w', evs. repeat split; auto; try discriminate.
    intros Hr. destruct (Hrow Hr) as (st & row & ? & ? & ? & ?).
    exists st, row. eauto.
  - destruct (add_sources_outcome srcs IH w)
      as (r & w1 & ev1 & -> & Hst1 & Hh1 & Hn1 & Htr1 & Hev1 & Hidx1).
    cbv beta iota. change (with_sources d srcs) with d.
    destruct r as [e|].
    + exists (Some e), w1, ev1. repeat split; auto; discriminate.
    + specialize (Hidx1 eq_refl).
      apply (Forall_descendants (indexed (db w1)) d) in Hidx1.
      destruct (add_this_spec d w1)
        as (r & w' & ev2 & -> & Hst & Hh & Hn & Htr & Hrow & Hev2).
      exists r, w', (ev1 ++ ev2).
      split; [reflexivity |].
      split; [eapply rtc_trans; eauto |].
      split; [congruence |]. split; [congruence |].
      split; [rewrite Htr, Htr1; now rewrite app_assoc |].
      split.
      { intros Hr. destruct (Hrow Hr) as (st & row & ? & ? & ? & Hin).
        exists st, row. repeat split; auto. exists (db w1).
        apply in_or_app. now right. }
      intros _. split; [apply Forall_app; auto |].
      intros Hr. constructor.
      * destruct (Hrow Hr) as (st & row & _ & Hf & _).
        apply contains_dataset_find. eauto.
      * eapply Forall_impl; [exact Hidx1 |].
        intros x. apply indexed_kept. now apply db_steps_kept.
Qed.

(** *** Adding what is there *)

Lemma dataset_type_loads_same σ σ' ref :
  metadata_type_tbl σ' = metadata_type_tbl σ ->
  dataset_type_tbl σ' = dataset_type_tbl σ ->
  dataset_type_loads σ' ref = dataset_type_loads σ ref.
Proof.
  intros Hm Hd.
  unfold dataset_type_loads, metadata_type_loads, get_dataset_type,
    get_metadata_type.
  now rewrite Hm, Hd.
Qed.

Lemma types_load_same σ σ' :
  metadata_type_tbl σ' = metadata_type_tbl σ ->
  dataset_type_tbl σ' = dataset_type_tbl σ ->
  dataset_tbl σ' = dataset_tbl σ ->
  types_load σ' = types_load σ.
Proof.
  intros Hm Hd Ht. unfold types_load. rewrite Ht. clear Ht.
  generalize (dataset_tbl σ) as tbl.
  induction tbl as [| r tbl IH]; simpl; [reflexivity |].
  rewrite IH. now rewrite (dataset_type_loads_same σ σ' _ Hm Hd).
Qed.

Lemma types_load_row σ id_ row :
  types_load σ = true -> find_dataset σ id_ = Some row ->
  dataset_type_loads σ (dsr_dataset_type_ref row) = true.
Proof.
  unfold types_load. rewrite forallb_forall. intros Hall Hf.
  apply find_dataset_id in Hf as [_ Hin]. now apply Hall.
Qed.

(** [add] of a dataset whose row is there: the stored document decides. *)
Lemma add_this_again dataset w tmp stripped row :
  reader_sources (metadata_doc dataset) = inr tmp ->
  reader_set_sources (metadata_doc dataset) (DDict []) = inr stripped ->
  find_dataset (db w) (ds_id dataset) = Some row ->
  dataset_type_loads (db w) (dsr_dataset_type_ref row) = true ->
  exists w',
    add_this dataset w =
      (if bool_decide (dsr_metadata row = jsonify_document stripped)
       then None
       else Some (ConflictError "Dataset " (DStr (ds_id dataset))),
       dataset, w') /\
    rtc db_step (db w) (db w') /\
    dataset_tbl (db w') = dataset_tbl (db w).
Proof.
  intros Eg Es Hrow Hload.
  rewrite (add_this_eq _ _ _ _ Eg Es), index_and_check_eq.
  set (ds := with_metadata_doc dataset stripped).
  assert (Hid : ds_id ds = ds_id dataset) by (subst ds; now destruct dataset).
  assert (Hmd : metadata_doc ds = stripped) by (subst ds; now destruct dataset).
  destruct (index_transaction_spec ds w)
    as (b & w1 & evs & -> & Hc & Ht & Hs & _).
  rewrite Hid in *. rewrite Hmd.
  assert (Hcon : contains_dataset (db w) (ds_id dataset) = true)
    by (apply contains_dataset_find; eauto).
  rewrite Hcon in Hc. destruct b; [discriminate |].
  destruct (db_steps_types _ _ Hs) as [Hmt Hdt].
  assert (Hrow1 : find_dataset (db w1) (ds_id dataset) = Some row)
    by (unfold find_dataset in *; now rewrite Ht).
  assert (Hload1 : dataset_type_loads (db w1) (dsr_dataset_type_ref row) = true)
    by (now rewrite (dataset_type_loads_same (db w) (db w1))).
  destruct (get_stored_document _ _ _ Hrow1 Hload1)
    as (existing & w2 & -> & Hm & Hd2 & _).
  rewrite Hm.
  destruct (bool_decide (dsr_metadata row = jsonify_document stripped)).
  - destruct (register_location_spec dataset w2)
      as (w3 & -> & Hs3 & Ht3 & _).
    exists w3. split; [reflexivity |].
    split; [| congruence].
    eapply rtc_trans; [exact Hs |]. now rewrite <- Hd2.
  - exists w2. split; [reflexivity |]. split; [| congruence].
    now rewrite Hd2.
Qed.

Lemma add_this_twice dataset w w1 w2 :
  add_this dataset w = (None, dataset, w1) ->
  kept (db w1) (db w2) -> types_load (db w2) = true ->
  exists w3,
    add_this dataset w2 = (None, dataset, w3) /\
    dataset_tbl (db w3) = dataset_tbl (db w2) /\
    metadata_type_tbl (db w3) = metadata_type_tbl (db w2) /\
    dataset_type_tbl (db w3) = dataset_type_tbl (db w2).
Proof.
  intros Hadd Hk Hl.
  destruct (add_this_spec dataset w)
    as (r & w' & evs & Heq & _ & _ & _ & _ & Hrow & _).
  rewrite Hadd in Heq. injection Heq as <- <-.
  destruct (Hrow eq_refl) as (stripped & row & Es & Hf & Hm & _).
  destruct (Hk _ _ Hf) as (row2 & Hf2 & Hm2 & _).
  assert (exists tmp, reader_sources (metadata_doc dataset) = inr tmp)
    as [tmp Eg].
  { destruct (reader_sources (metadata_doc dataset)) as [e|tmp] eqn:Eg;
      [| eauto].
    unfold add_this in Hadd. rewrite Eg in Hadd. discriminate. }
  destruct (add_this_again dataset w2 tmp stripped row2 Eg Es Hf2
              (types_load_row _ _ _ Hl Hf2)) as (w3 & Heq & Hs & Ht).
  rewrite bool_decide_eq_true_2 in Heq by congruence.
  exists w3. destruct (db_steps_types _ _ Hs). auto.
Qed.

Lemma add_sources_again items :
  Forall (fun cs => add_again (snd cs)) items ->
  forall w w0,
    add_sources items w = (None, items, w0) ->
    forall w2, kept (db w0) (db w2) -> types_load (db w2) = true ->
    exists w3,
      add_sources items w2 = (None, items, w3) /\
      dataset_tbl (db w3) = dataset_tbl (db w2) /\
      metadata_type_tbl (db w3) = metadata_type_tbl (db w2) /\
      dataset_type_tbl (db w3) = dataset_type_tbl (db w2).
Proof.
  induction 1 as [| [c s] items Hs Hall IH]; intros w w0 Hadd w2 Hk Hl.
  - exists w2. simpl. auto.
  - simpl in Hs. simpl in Hadd |- *.
    destruct (add_outcome_all s false w) as (r & wa & ev & Ha & _).
    rewrite Ha in Hadd. destruct r as [e|]; [discriminate |].
    assert (Hout : Forall (fun cs => add_outcome (snd cs)) items)
      by (apply Forall_forall; intros; apply add_outcome_all).
    destruct (add_sources_outcome items Hout wa)
      as (r & wb & evb & Hb & Hsb & _).
    rewrite Hb in Hadd. injection Hadd as -> <-.
    assert (Hka : kept (db wa) (db w2))
      by (eapply kept_trans; [apply db_steps_kept, Hsb | exact Hk]).
    destruct (Hs false w wa Ha w2 Hka Hl) as (w3a & -> & Ht & Hm & Hd).
    assert (Hk3 : kept (db wb) (db w3a))
      by (eapply kept_trans; [exact Hk | now apply kept_same_table]).
    assert (Hl3 : types_load (db w3a) = true)
      by (now rewrite (types_load_same (db w2) (db w3a))).
    destruct (IH wa wb Hb w3a Hk3 Hl3) as (w3 & -> & Ht' & Hm' & Hd').
    exists w3. repeat split; congruence.
Qed.

Lemma add_again_all dataset : add_again dataset.
Proof.
  induction dataset as [id_ type_ md uri srcs IH] using Dataset_ind.
  intros skip w w1 Hadd w2 Hk Hl.
  rewrite add_unfold in Hadd |- *. simpl sources in *.
  set (d := mkDataset id_ type_ md uri srcs) in *.
  destruct skip.
  - cbv beta iota in Hadd |- *. change (with_sources d srcs) with d in *.
    now apply (add_this_twice d w w1 w2).
  - assert (Hout : Forall (fun cs => add_outcome (snd cs)) srcs)
      by (apply Forall_forall; intros; apply add_outcome_all).
    destruct (add_sources_outcome srcs Hout w)
      as (r & w0 & ev & Ha & _).
    rewrite Ha in Hadd. cbv beta iota in Hadd.
    change (with_sources d srcs) with d in *.
    destruct r as [e|]; [discriminate |].
    destruct (add_this_spec d w0) as (r & w' & evs & Heq & Hs & _).
    rewrite Hadd in Heq. injection Heq as <- <-.
    assert (Hk0 : kept (db w0) (db w2))
      by (eapply kept_trans; [apply db_steps_kept, Hs | exact Hk]).
    destruct (add_sources_again srcs IH w w0 Ha w2 Hk0 Hl)
      as (w3 & -> & Ht & Hm & Hd).
    cbv beta iota. change (with_sources d srcs) with d.
    assert (Hk3 : kept (db w1) (db w3))
      by (eapply kept_trans; [exact Hk | now apply kept_same_table]).
    assert (Hl3 : types_load (db w3) = true)
      by (now rewrite (types_load_same (db w2) (db w3))).
    destruct (add_this_twice d w0 w1 w3 Hadd Hk3 Hl3)
      as (w4 & -> & Ht' & Hm' & Hd').
    exists w4. repeat split; congruence.
Qed.

Lemma add_unfold_fan_out dataset skip_sources w :
  add dataset skip_sources w =
  let '(raised, sources', w0) := fan_out dataset skip_sources w in
  match raised with
  | Some e => (Some e, with_sources dataset sources', w0)
  | None => add_this (with_sources dataset sources') w0
  end.
Proof. rewrite add_unfold. unfold fan_out. now destruct skip_sources. Qed.

Lemma fan_out_steps dataset skip_sources w r srcs w0 :
  fan_out dataset skip_sources w = (r, srcs, w0) ->
  srcs = sources dataset /\ rtc db_step (db w) (db w0).
Proof.
  unfold fan_out. destruct skip_sources.
  - intros [= <- <- <-]. auto using rtc_refl.
  - assert (Hout : Forall (fun cs => add_outcome (snd cs)) (sources dataset))
      by (apply Forall_forall; intros; apply add_outcome_all).
    destruct (add_sources_outcome _ Hout w) as (r' & w' & ev & -> & Hs & _).
    intros [= <- <- <-]. auto.
Qed.

Lemma db_steps_types_load σ σ' :
  rtc db_step σ σ' -> types_load σ' = true -> types_load σ = true.
Proof.
  induction 1 as [| σ1 σ2 σ3 Hs _ IH]; [auto |].
  intros Hl. specialize (IH Hl). clear Hl.
  destruct Hs as [σ row Hnew | σ edge | σ location]; auto.
  unfold types_load in *. simpl in IH.
  rewrite forallb_app in IH. apply andb_true_iff in IH as [IH _].
  exact IH.
Qed.

Lemma stripped_doc_eq dataset stripped :
  reader_set_sources (metadata_doc dataset) (DDict []) = inr stripped ->
  stripped_doc dataset = stripped.
Proof. unfold stripped_doc. now intros ->. Qed.

(** C1: after a successful [add], the same call again succeeds and
    leaves the dataset table as it is; and an [add] of any dataset with
    the same id (its sources having gone in) compares the stored
    document with its own document, stripped of its lineage sources and
    then normalized: it succeeds when the two are equal and raises the
    ConflictError of 'Dataset <id>' when they differ.  Either way the
    id has exactly one stored record. *)
Theorem add_again_succeeds_or_conflicts
    (dataset : Dataset) (skip_sources : bool) (w : World)
    (after : Dataset) (w1 : World)
    (other : Dataset) (skip_other : bool) (w1' : World) (tmp : doc) :
  add dataset skip_sources w = (None, after, w1) ->
  NoDup (map dsr_id (dataset_tbl (db w))) ->
  ds_id other = ds_id dataset ->
  reader_sources (metadata_doc other) = inr tmp ->
  fan_out other skip_other w1 = (None, sources other, w1') ->
  types_load (db w1') = true ->
  (exists w2,
      add dataset skip_sources w1 = (None, dataset, w2) /\
      dataset_tbl (db w2) = dataset_tbl (db w1)) /\
  (exists w2,
      add other skip_other w1 =
        (if bool_decide (jsonify_document (stripped_doc other) =
                         jsonify_document (stripped_doc dataset))
         then None
         else Some (ConflictError "Dataset " (DStr (ds_id dataset))),
         other, w2) /\
      length (records_of (db w2) (ds_id dataset)) = 1%nat).
Proof.
  intros Hadd Hnodup Hid Eg Hfan Hload'.
  pose proof (add_same_object dataset skip_sources w) as Hsame.
  rewrite Hadd in Hsame. simpl in Hsame. subst after.
  destruct (add_outcome_all dataset skip_sources w)
    as (r & w' & ev & Heq & Hs & _ & _ & _ & Hrow & _).
  rewrite Hadd in Heq. injection Heq as <- <-.
  destruct (Hrow eq_refl) as (stripped & row & Es & Hf & Hm & _).
  destruct (fan_out_steps _ _ _ _ _ _ Hfan) as [_ Hs'].
  pose proof (db_steps_types_load _ _ Hs' Hload') as Hload.
  split.
  - destruct (add_again_all dataset skip_sources w w1 Hadd w1
                (kept_refl _) Hload) as (w2 & Ha & Ht & _).
    eauto.
  - rewrite add_unfold_fan_out, Hfan. cbv beta iota.
    rewrite with_sources_same.
    destruct (db_steps_kept _ _ Hs' _ _ Hf) as (row' & Hf' & Hm' & _).
    destruct (reader_set_after_get _ _ (DDict []) Eg) as [stripped' Es'].
    rewrite <- Hid in Hf'.
    destruct (add_this_again other w1' tmp stripped' row' Eg Es' Hf'
                (types_load_row _ _ _ Hload' Hf')) as (w2 & Ha & Hs2 & Ht2).
    exists w2. rewrite Ha.
    rewrite (stripped_doc_eq _ _ Es), (stripped_doc_eq _ _ Es'), Hid.
    split.
    + rewrite Hm', Hm.
      destruct (bool_decide (jsonify_document stripped =
                             jsonify_document stripped')) eqn:E.
      * apply bool_decide_eq_true in E.
        now rewrite bool_decide_eq_true_2.
      * apply bool_decide_eq_false in E.
        now rewrite bool_decide_eq_false_2.
    + assert (Hf2 : find_dataset (db w2) (ds_id dataset) = Some row').
      { unfold find_dataset in *. rewrite Ht2. now rewrite <- Hid. }
      rewrite (records_of_one _ _ row'); [reflexivity | | exact Hf2].
      eapply db_steps_nodup; [| exact Hnodup].
      eapply rtc_trans; [exact Hs |].
      eapply rtc_trans; [exact Hs' | exact Hs2].
Qed.

(** *** Progress: [add] of what can be inserted *)

Lemma insertable_spec σ forest :
  insertable σ forest = true <->
  Forall (fun x => has_lineage x = true) forest /\
  Forall (fun x => contains_dataset σ (ds_id x) = false) forest /\
  NoDup (map ds_id forest).
Proof.
  unfold insertable. rewrite !andb_true_iff, !forallb_forall, !Forall_forall.
  rewrite bool_decide_eq_true.
  split.
  - intros [[Hl Hf] Hn]. repeat split; auto.
    + intros x Hx. apply Hl. now apply list_elem_of_In.
    + intros x Hx. apply list_elem_of_In in Hx. specialize (Hf x Hx).
      now apply negb_true_iff in Hf.
  - intros (Hl & Hf & Hn). repeat split; auto.
    + intros x Hx. apply Hl. now apply list_elem_of_In.
    + intros x Hx. apply negb_true_iff, Hf. now apply list_elem_of_In.
Qed.

Lemma descendants_concat dataset :
  descendants dataset =
  concat (map (fun cs => tree (snd cs)) (sources dataset)).
Proof.
  destruct dataset as [id_ type_ md uri srcs]. simpl.
  induction srcs as [| [c s] srcs IH]; simpl; [reflexivity |].
  unfold tree at 1. simpl. now rewrite IH.
Qed.

(** The rows of datasets that [add] leaves are those it found and rows
    of the dataset and of what it derives from. *)
Lemma add_this_table dataset w :
  dataset_tbl (db (snd (add_this dataset w))) = dataset_tbl (db w) \/
  exists row, dsr_id row = ds_id dataset /\
    dataset_tbl (db (snd (add_this dataset w))) = dataset_tbl (db w) ++ [row].
Proof.
  destruct (reader_sources (metadata_doc dataset)) as [e|tmp] eqn:Eg.
  { unfold add_this. rewrite Eg. now left. }
  destruct (reader_set_sources (metadata_doc dataset) (DDict []))
    as [e|stripped] eqn:Es.
  { unfold add_this. rewrite Eg, Es. now left. }
  rewrite (add_this_eq _ _ _ _ Eg Es), index_and_check_eq.
  set (ds := with_metadata_doc dataset stripped).
  assert (Hid : ds_id ds = ds_id dataset) by (subst ds; now destruct dataset).
  destruct (index_transaction_spec ds w)
    as (b & w1 & evs & -> & _ & Ht & _).
  assert (H1 : dataset_tbl (db w1) = dataset_tbl (db w) \/
               exists row, dsr_id row = ds_id dataset /\
                 dataset_tbl (db w1) = dataset_tbl (db w) ++ [row]).
  { destruct b; [right | now left].
    exists (inserted_row ds). split; [exact Hid | exact Ht]. }
  assert (Hloc : forall w2, dataset_tbl (db w2) = dataset_tbl (db w1) ->
    dataset_tbl (db (snd (match register_location dataset w2 with
                           | (inl e, w3) => (Some e, dataset, w3)
                           | (inr _, w3) => (None, dataset, w3)
                           end))) = dataset_tbl (db w1)).
  { intros w2 Hw2.
    destruct (register_location_spec dataset w2) as (w3 & -> & _ & Ht3 & _).
    simpl. congruence. }
  destruct b.
  - rewrite (Hloc w1 eq_refl). exact H1.
  - pose proof (get_same_store (ds_id ds) w1) as (Hdb & _).
    destruct (get (ds_id ds) false w1) as [[e|existing] w2]; simpl in Hdb.
    + simpl. rewrite Hdb. exact H1.
    + destruct (bool_decide _).
      * rewrite (Hloc w2) by now rewrite Hdb. exact H1.
      * simpl. rewrite Hdb. exact H1.
Qed.

Lemma contains_appended σ σ' row id_ :
  dataset_tbl σ' = dataset_tbl σ ++ [row] ->
  contains_dataset σ' id_ = true ->
  contains_dataset σ id_ = true \/ id_ = dsr_id row.
Proof.
  intros Ht Hc. apply contains_dataset_find in Hc as [r Hr].
  unfold find_dataset in Hr. rewrite Ht, find_app in Hr.
  destruct (List.find _ (dataset_tbl σ)) as [r0|] eqn:E0.
  - left. apply contains_dataset_find. unfold find_dataset. rewrite E0. eauto.
  - right. simpl in Hr.
    destruct (bool_decide (dsr_id row = id_)) eqn:Eb; [| discriminate].
    now apply bool_decide_eq_true in Eb.
Qed.

Lemma add_this_ids dataset w id_ :
  contains_dataset (db (snd (add_this dataset w))) id_ = true ->
  contains_dataset (db w) id_ = true \/ id_ = ds_id dataset.
Proof.
  destruct (add_this_table dataset w) as [Ht | (row & Hid & Ht)].
  - rewrite (contains_same_table _ _ _ Ht). auto.
  - intros Hc. rewrite <- Hid. eapply contains_appended; eauto.
Qed.

Lemma add_sources_ids items :
  Forall (fun cs => ids_within (snd cs)) items ->
  forall w id_,
    contains_dataset (db (snd (add_sources items w))) id_ = true ->
    contains_dataset (db w) id_ = true \/
    In id_ (map ds_id (concat (map (fun cs => tree (snd cs)) items))).
Proof.
  induction 1 as [| [c s] items Hs _ IH]; intros w id_.
  - cbn. auto.
  - cbn [snd] in Hs. cbn [add_sources map concat snd].
    specialize (Hs false w id_). rewrite map_app.
    destruct (add s false w) as [[[e|] s'] w1]; cbn [snd] in Hs |- *.
    + intros Hc. destruct (Hs Hc) as [? | Hin]; [now left | right].
      apply in_or_app. now left.
    + specialize (IH w1 id_).
      destruct (add_sources items w1) as [[r rest'] w2]. cbn [snd] in IH |- *.
      intros Hc.
      destruct (IH Hc) as [Hc1 | Hin]; [| right; apply in_or_app; now right].
      destruct (Hs Hc1) as [? | Hin]; [now left | right].
      apply in_or_app. now left.
Qed.

Lemma add_ids dataset : ids_within dataset.
Proof.
  induction dataset as [id_ type_ md uri srcs IH] using Dataset_ind.
  intros skip w i. rewrite add_unfold. simpl sources.
  set (d := mkDataset id_ type_ md uri srcs).
  destruct skip.
  - cbv beta iota. change (with_sources d srcs) with d.
    intros Hc. apply add_this_ids in Hc as [? | ->]; [now left | right].
    now left.
  - pose proof (add_sources_ids srcs IH w i) as Hsrc.
    pose proof (add_sources_same_objects srcs) as Hobj.
    destruct (add_sources srcs w) as [[r srcs'] w1] eqn:Es.
    simpl in Hsrc.
    assert (Hdesc : map ds_id (concat (map (fun cs => tree (snd cs)) srcs))
                    = map ds_id (descendants d)).
    { now rewrite (descendants_concat d). }
    rewrite Hdesc in Hsrc.
    destruct r as [e|].
    + simpl. intros Hc. destruct (Hsrc Hc) as [? | Hin]; [now left | right].
      now right.
    + intros Hc. apply add_this_ids in Hc as [Hc | ->].
      * destruct (Hsrc Hc) as [? | Hin]; [now left | right]. now right.
      * right. left. now destruct d.
Qed.

(** [add] goes through for datasets that can be inserted. *)
Lemma add_this_fresh dataset w :
  has_lineage dataset = true ->
  contains_dataset (db w) (ds_id dataset) = false ->
  exists w', add_this dataset w = (None, dataset, w').
Proof.
  unfold has_lineage. intros Hl Hc.
  destruct (reader_sources (metadata_doc dataset)) as [e|tmp] eqn:Eg;
    [discriminate |].
  destruct (reader_set_after_get _ _ (DDict []) Eg) as [stripped Es].
  rewrite (add_this_eq _ _ _ _ Eg Es), index_and_check_eq.
  set (ds := with_metadata_doc dataset stripped).
  assert (Hid : ds_id ds = ds_id dataset) by (subst ds; now destruct dataset).
  destruct (index_transaction_spec ds w) as (b & w1 & evs & -> & Hb & _).
  rewrite Hid, Hc in Hb. destruct b; [| discriminate].
  destruct (register_location_spec dataset w1) as (w2 & -> & _). eauto.
Qed.

Lemma insertable_app σ forest forest' :
  insertable σ (forest ++ forest') = true ->
  insertable σ forest = true /\ insertable σ forest' = true /\
  forall x, In x forest' -> ~ In (ds_id x) (map ds_id forest).
Proof.
  rewrite !insertable_spec, !Forall_app, map_app, NoDup_app.
  intros ((Hl & Hl') & (Hf & Hf') & Hn & Hd & Hn').
  repeat split; auto.
  intros x Hx Hin. apply (Hd (ds_id x)).
  - now apply list_elem_of_In.
  - apply list_elem_of_In. now apply in_map.
Qed.

Lemma insertable_after σ σ' forest :
  insertable σ forest = true ->
  (forall x, In x forest -> contains_dataset σ' (ds_id x) = true ->
             contains_dataset σ (ds_id x) = true) ->
  insertable σ' forest = true.
Proof.
  rewrite !insertable_spec. intros (Hl & Hf & Hn) Hback.
  repeat split; auto.
  rewrite Forall_forall in Hf |- *. intros x Hx.
  specialize (Hf x Hx). apply list_elem_of_In in Hx.
  destruct (contains_dataset σ' (ds_id x)) eqn:Ec; [| reflexivity].
  rewrite (Hback x Hx Ec) in Hf. discriminate.
Qed.

Lemma add_sources_fresh items :
  Forall (fun cs => goes_through (snd cs)) items ->
  forall w,
    insertable (db w) (concat (map (fun cs => tree (snd cs)) items)) = true ->
    exists w', add_sources items w = (None, items, w').
Proof.
  induction 1 as [| [c s] items Hs _ IH]; intros w Hins.
  - simpl. eauto.
  - cbn [snd] in Hs. cbn [map concat snd] in Hins. cbn [add_sources].
    apply insertable_app in Hins as (Hs1 & Hrest & Hdisj).
    destruct (Hs w Hs1) as (w1 & Hadd). rewrite Hadd.
    destruct (IH w1) as (w2 & ->); [| eauto].
    eapply insertable_after; [exact Hrest |].
    intros x Hx Hc.
    pose proof (add_ids s false w (ds_id x)) as Hids.
    rewrite Hadd in Hids. destruct (Hids Hc) as [? | Hin]; [assumption |].
    now destruct (Hdisj x Hx).
Qed.

Lemma goes_through_all dataset : goes_through dataset.
Proof.
  induction dataset as [id_ type_ md uri srcs IH] using Dataset_ind.
  intros w Hins. rewrite add_unfold. simpl sources.
  set (d := mkDataset id_ type_ md uri srcs) in *.
  unfold tree in Hins. rewrite (descendants_concat d) in Hins.
  change (d :: ?l) with ([d] ++ l) in Hins.
  apply insertable_app in Hins as (Hd & Hrest & Hdisj).
  destruct (add_sources_fresh srcs IH w Hrest) as (w1 & Hsrc).
  rewrite Hsrc. cbv beta iota. change (with_sources d srcs) with d.
  apply insertable_spec in Hd as (Hl & Hf & _).
  apply Forall_cons in Hl as [Hl _]. apply Forall_cons in Hf as [Hf _].
  apply add_this_fresh; [exact Hl |].
  destruct (contains_dataset (db w1) (ds_id d)) eqn:Ec; [| reflexivity].
  pose proof (add_sources_ids srcs) as Hids.
  specialize (Hids (proj2 (Forall_forall _ _) (fun cs _ => add_ids (snd cs)))
                   w (ds_id d)).
  rewrite Hsrc in Hids. destruct (Hids Ec) as [Hc | Hin]; [congruence |].
  apply in_map_iff in Hin as (x & Hx & Hin).
  destruct (Hdisj x Hin). rewrite Hx. now left.
Qed.

(** C5: in [add(dataset)] with the sources not skipped, every write is
    asked for after the sources it depends on are in.  When the row of
    a dataset is asked for, each dataset reachable from it through
    [sources] has its row; when a source edge is asked for, the row of
    its source is there ([has(source)] holds).  And when [add] returns,
    the row of [dataset] was asked for, and [dataset] and all it was
    derived from are indexed.  [add] does return when the dataset and
    what it derives from can all be inserted: each document has its
    lineage section, none of the ids is indexed, no id comes twice; so
    each of those rows is then written by this call, the sources'
    before the dataset's. *)
Theorem add_indexes_sources_first (dataset : Dataset) (w : World) :
  (exists outcome w' events,
      add dataset false w = (outcome, dataset, w') /\
      trace w' = trace w ++ events /\
      Forall sources_indexed events /\
      (outcome = None ->
       (exists σ, In (EvInsertDataset
                        (with_metadata_doc dataset (stripped_doc dataset)) σ)
                     events) /\
       Forall (fun x => contains_dataset (db w') (ds_id x) = true)
              (dataset :: descendants dataset))) /\
  (insertable (db w) (tree dataset) = true ->
   fst (fst (add dataset false w)) = None).
Proof.
  split.
  - destruct (add_outcome_all dataset false w)
      as (r & w' & ev & Heq & _ & _ & _ & Htr & Hrow & Hev).
    destruct (Hev eq_refl) as [Hgood Hidx].
    exists r, w', ev.
    split; [exact Heq |]. split; [exact Htr |]. split; [exact Hgood |].
    intros Hr. split; [| now apply Hidx].
    destruct (Hrow Hr) as (stripped & row & Es & _ & _ & σ & Hin).
    exists σ. now rewrite (stripped_doc_eq _ _ Es).
  - intros Hins. destruct (goes_through_all dataset w Hins) as (w' & ->).
    reflexivity.
Qed.

(** C6: [add] hands back the object it was given, and whichever way it
    is left, by [return] or by an exception (ConflictError included),
    the object is as it was before the call, its metadata_doc with the
    lineage sources it had.  The document the database was given is the
    stripped one all the same. *)
Theorem add_leaves_dataset_as_submitted
    (dataset : Dataset) (skip_sources : bool) (w : World) :
  exists outcome w',
    add dataset skip_sources w = (outcome, dataset, w') /\
    (outcome = None ->
     exists row,
       find_dataset (db w') (ds_id dataset) = Some row /\
       dsr_metadata row = jsonify_document (stripped_doc dataset)).
Proof.
  destruct (add_outcome_all dataset skip_sources w)
    as (r & w' & ev & Heq & _ & _ & _ & _ & Hrow & _).
  exists r, w'. split; [exact Heq |].
  intros Hr. destruct (Hrow Hr) as (stripped & row & Es & Hf & Hm & _).
  exists row. now rewrite (stripped_doc_eq _ _ Es).
Qed.


Lemma same_caches_refl w : same_caches w w.
Proof. now repeat split. Qed.

Lemma insert_sources_accepted dataset items more w :
  all_accepted (dataset_source_tbl (db w)) (map (edge_of dataset) items)
    = true ->
  exists w',
    insert_sources dataset (items ++ more) w =
      insert_sources dataset more w' /\
    dataset_source_tbl (db w') =
      dataset_source_tbl (db w) ++ map (edge_of dataset) items /\
    dataset_tbl (db w') = dataset_tbl (db w) /\
    same_caches w w'.
Proof.
  revert w. induction items as [| [c s] items IH]; intros w Hacc.
  - exists w. simpl. rewrite app_nil_r. auto using same_caches_refl.
  - simpl in Hacc. apply andb_true_iff in Hacc as [Ha Hrest].
    unfold accepted in Ha. apply negb_true_iff in Ha.
    simpl. unfold_m. simpl. unfold insert_dataset_source.
    unfold edge_of in Ha. simpl in Ha. rewrite Ha. simpl.
    match goal with |- context [insert_sources dataset (items ++ more) ?w1] =>
      destruct (IH w1) as (w' & -> & Hsrc & Htbl & Hc)
    end.
    { simpl. exact Hrest. }
    exists w'. simpl in *. split; [reflexivity |].
    split; [rewrite Hsrc; now rewrite <- app_assoc |].
    split; [exact Htbl | exact Hc].
Qed.

Lemma insert_sources_refused dataset item rest w :
  accepted (dataset_source_tbl (db w)) (edge_of dataset item) = false ->
  exists m w',
    insert_sources dataset (item :: rest) w =
      (inl (DuplicateRecordError m), w') /\
    db w' = db w /\ same_caches w w'.
Proof.
  destruct item as [c s]. unfold accepted, edge_of. simpl.
  intros Ha. apply negb_false_iff in Ha.
  unfold_m. simpl. unfold insert_dataset_source. rewrite Ha. simpl.
  eexists _, _. split; [reflexivity |]. simpl. split; [reflexivity |].
  now repeat split.
Qed.

Lemma same_caches_trans w1 w2 w3 :
  same_caches w1 w2 -> same_caches w2 w3 -> same_caches w1 w3.
Proof. unfold same_caches. intuition congruence. Qed.

Lemma register_location_caches dataset w :
  exists w', register_location dataset w = (inr tt, w') /\
    dataset_tbl (db w') = dataset_tbl (db w) /\
    dataset_source_tbl (db w') = dataset_source_tbl (db w) /\
    same_caches w w'.
Proof.
  unfold register_location, except_DuplicateRecordError. unfold_m.
  destruct (local_uri dataset) as [uri|];
    [| exists w; auto using same_caches_refl].
  unfold ensure_dataset_location.
  destruct (existsb _ (dataset_location_tbl (db w))).
  - destruct duplicate_raises; simpl.
    + exists w. auto using same_caches_refl.
    + eexists. split; [reflexivity |]. simpl. now repeat split.
  - simpl. eexists. split; [reflexivity |]. simpl. now repeat split.
Qed.

(** C9: when the row of [dataset] is new and one of its source edges is
    refused with DuplicateRecordError, the edges before it are written
    and the ones after it are not asked for; the transaction is left
    normally with [was_inserted] true, so the row and the edges written
    stay; [add] returns, and it has not compared documents: no cache
    was read, which the call of [get] would have done. *)
Theorem add_keeps_partial_edges_on_duplicate_source
    (dataset : Dataset) (skip_sources : bool) (w w0 : World)
    (before rest : list (string * Dataset)) (item : string * Dataset)
    (tmp : doc) :
  fan_out dataset skip_sources w = (None, sources dataset, w0) ->
  contains_dataset (db w0) (ds_id dataset) = false ->
  reader_sources (metadata_doc dataset) = inr tmp ->
  sources dataset = before ++ item :: rest ->
  all_accepted (dataset_source_tbl (db w0)) (map (edge_of dataset) before)
    = true ->
  accepted (dataset_source_tbl (db w0) ++ map (edge_of dataset) before)
           (edge_of dataset item) = false ->
  exists w1 w',
    index_transaction (with_metadata_doc dataset (stripped_doc dataset)) w0
      = (inr true, w1) /\
    add dataset skip_sources w = (None, dataset, w') /\
    dataset_tbl (db w') =
      dataset_tbl (db w0) ++
      [mkDatasetRow (ds_id dataset) (dt_id (ds_type dataset))
                    (jsonify_document (stripped_doc dataset)) false] /\
    dataset_source_tbl (db w') =
      dataset_source_tbl (db w0) ++ map (edge_of dataset) before /\
    same_caches w0 w'.
Proof.
  intros Hfan Hnew Eg Hsrc Hacc Hrefused.
  destruct (reader_set_after_get _ _ (DDict []) Eg) as [stripped Es].
  rewrite (stripped_doc_eq _ _ Es).
  set (ds := with_metadata_doc dataset stripped).
  assert (Hid : ds_id ds = ds_id dataset) by (subst ds; now destruct dataset).
  assert (Hds : sources ds = sources dataset)
    by (subst ds; now destruct dataset).
  assert (Hedge : forall it, edge_of ds it = edge_of dataset it)
    by (intros it; unfold edge_of; now rewrite Hid).
  assert (Htxn : exists w1,
             index_transaction ds w0 = (inr true, w1) /\
             dataset_tbl (db w1) =
               dataset_tbl (db w0) ++ [inserted_row ds] /\
             dataset_source_tbl (db w1) =
               dataset_source_tbl (db w0) ++ map (edge_of dataset) before /\
             same_caches w0 w1).
  { unfold index_transaction, with_begin. unfold_m. simpl.
    unfold insert_dataset. rewrite ?Hid, Hnew. simpl.
    rewrite ?Hds, Hsrc.
    match goal with |- context [insert_sources ds _ ?wa] =>
      destruct (insert_sources_accepted ds before (item :: rest) wa)
        as (wb & -> & Hsb & Htb & Hcb)
    end.
    { simpl. erewrite map_ext; [exact Hacc | apply Hedge]. }
    destruct (insert_sources_refused ds item rest wb)
      as (m & wc & -> & Hdc & Hcc).
    { rewrite Hsb. simpl. erewrite map_ext; [| apply Hedge].
      rewrite Hedge. exact Hrefused. }
    exists wc. split; [reflexivity |]. rewrite Hdc.
    split; [exact Htb |].
    split; [rewrite Hsb; simpl; f_equal; apply map_ext, Hedge |].
    eapply same_caches_trans; [| exact Hcc].
    eapply same_caches_trans; [| exact Hcb]. now repeat split. }
  destruct Htxn as (w1 & Htxn & Ht1 & Hs1 & Hc1).
  destruct (register_location_caches dataset w1)
    as (w' & Hloc & Ht' & Hs' & Hc').
  exists w1, w'. split; [exact Htxn |].
  split.
  - rewrite add_unfold_fan_out, Hfan. cbv beta iota.
    rewrite with_sources_same.
    rewrite (add_this_eq _ _ _ _ Eg Es), index_and_check_eq.
    fold ds. now rewrite Htxn, Hloc.
  - split; [rewrite Ht', Ht1; unfold inserted_row; subst ds;
            now destruct dataset |].
    split; [congruence |].
    eapply same_caches_trans; eauto.
Qed.

(** *** [replace] *)

Lemma db_step_find σ σ' id_ row :
  db_step σ σ' -> find_dataset σ id_ = Some row ->
  find_dataset σ' id_ = Some row.
Proof.
  destruct 1 as [σ r Hnew | σ edge | σ location]; auto.
  intros Hf. now rewrite find_dataset_app, Hf.
Qed.

Lemma db_steps_find σ σ' id_ row :
  rtc db_step σ σ' -> find_dataset σ id_ = Some row ->
  find_dataset σ' id_ = Some row.
Proof. induction 1; eauto using db_step_find. Qed.

Lemma add_each_outcome units w :
  exists r w',
    add_each units w = (r, units, w') /\
    rtc db_step (db w) (db w') /\
    (r = None -> Forall (indexed (db w')) units).
Proof.
  revert w. induction units as [| unit units IH]; intros w.
  - exists None, w. simpl. auto using rtc_refl.
  - simpl.
    destruct (add_outcome_all unit false w)
      as (r & w1 & ev & -> & Hs1 & _ & _ & _ & _ & Hidx).
    destruct r as [e|].
    + exists (Some e), w1. repeat split; auto. discriminate.
    + destruct (IH w1) as (r & w2 & -> & Hs2 & Hidx2).
      exists r, w2. split; [reflexivity |].
      split; [eapply rtc_trans; eauto |].
      intros Hr. constructor; [| auto].
      destruct (Hidx eq_refl) as [_ Hall].
      specialize (Hall eq_refl). apply Forall_cons in Hall as [Hu _].
      eapply indexed_kept; [apply db_steps_kept, Hs2 | exact Hu].
Qed.

Lemma archive_each old_datasets w :
  for_each old_datasets
    (fun _ unit => db_update (fun σ => archive_storage_unit σ (ds_id unit)))
    tt w =
  (inr tt,
   set_db (fold_left (fun σ unit => archive_storage_unit σ (ds_id unit))
                     old_datasets (db w)) w).
Proof.
  revert w. induction old_datasets as [| unit units IH]; intros w; simpl.
  - now destruct w.
  - unfold_m. simpl. rewrite IH. now destruct w.
Qed.

Lemma archive_find σ id_ id' row0 :
  find_dataset σ id' = Some row0 ->
  exists row,
    find_dataset (archive_storage_unit σ id_) id' = Some row /\
    (id' = id_ -> dsr_archived row = true) /\
    (dsr_archived row0 = true -> dsr_archived row = true).
Proof.
  unfold find_dataset, archive_storage_unit. simpl.
  induction (dataset_tbl σ) as [| r tbl IH]; simpl; [discriminate |].
  destruct (bool_decide (dsr_id r = id')) eqn:E'.
  - intros [= ->].
    destruct (bool_decide (dsr_id row0 = id_)) eqn:E; simpl; rewrite E'.
    + eexists. split; [reflexivity |]. simpl. auto.
    + eexists. split; [reflexivity |].
      apply bool_decide_eq_true in E'. apply bool_decide_eq_false in E.
      split; [congruence | auto].
  - intros Hf.
    destruct (bool_decide (dsr_id r = id_)); simpl; rewrite E'; auto.
Qed.

Lemma archive_all_find old_datasets σ id_ row0 :
  find_dataset σ id_ = Some row0 ->
  exists row,
    find_dataset (archive_all old_datasets σ) id_ = Some row /\
    (dsr_archived row0 = true -> dsr_archived row = true) /\
    ((exists old, In old old_datasets /\ ds_id old = id_) ->
     dsr_archived row = true).
Proof.
  revert σ row0.
  induction old_datasets as [| u units IH]; intros σ row0 Hf; simpl.
  - exists row0. repeat split; auto. intros (old & [] & _).
  - destruct (archive_find σ (ds_id u) id_ row0 Hf)
      as (row1 & Hf1 & Hhere & Hmono).
    destruct (IH _ _ Hf1) as (row & Hf2 & Hmono2 & Hin2).
    exists row. split; [exact Hf2 |]. split; [auto |].
    intros (old & [-> | Hin] & Hid); eauto.
Qed.

Lemma archive_ids σ id_ :
  map dsr_id (dataset_tbl (archive_storage_unit σ id_)) =
  map dsr_id (dataset_tbl σ).
Proof.
  unfold archive_storage_unit. simpl. rewrite map_map.
  apply map_ext. intros r. now destruct (bool_decide (dsr_id r = id_)).
Qed.

Lemma contains_by_ids σ σ' id_ :
  map dsr_id (dataset_tbl σ') = map dsr_id (dataset_tbl σ) ->
  contains_dataset σ' id_ = contains_dataset σ id_.
Proof.
  intros Hids.
  destruct (contains_dataset σ id_) eqn:Ec.
  - apply contains_dataset_find. apply contains_dataset_find in Ec.
    destruct (find_dataset σ' id_) eqn:Ef; [eauto |].
    apply find_dataset_none_notin in Ef. rewrite Hids in Ef.
    destruct Ec as [r Hr]. destruct Ef.
    apply find_dataset_id in Hr as [<- Hin]. now apply in_map.
  - apply contains_dataset_none. apply contains_dataset_none in Ec.
    apply find_dataset_none_notin. rewrite Hids.
    now apply find_dataset_none_notin.
Qed.

Lemma archive_all_ids old_datasets σ :
  map dsr_id (dataset_tbl (archive_all old_datasets σ)) =
  map dsr_id (dataset_tbl σ).
Proof.
  revert σ. induction old_datasets as [| u units IH]; intros σ;
    [reflexivity |].
  unfold archive_all in *. simpl. rewrite IH. apply archive_ids.
Qed.

Lemma insertable_archived old_datasets σ forest :
  insertable (archive_all old_datasets σ) forest = insertable σ forest.
Proof.
  unfold insertable. f_equal. f_equal.
  induction forest as [| x forest IH]; simpl; [reflexivity |].
  rewrite IH. f_equal. f_equal. apply contains_by_ids, archive_all_ids.
Qed.

Lemma add_each_fresh units :
  forall w,
    insertable (db w) (concat (map tree units)) = true ->
    exists w', add_each units w = (None, units, w').
Proof.
  induction units as [| u units IH]; intros w Hins.
  - simpl. eauto.
  - cbn [map concat] in Hins. cbn [add_each].
    apply insertable_app in Hins as (Hu & Hrest & Hdisj).
    destruct (goes_through_all u w Hu) as (w1 & Hadd). rewrite Hadd.
    destruct (IH w1) as (w2 & ->); [| eauto].
    eapply insertable_after; [exact Hrest |].
    intros x Hx Hc.
    pose proof (add_ids u false w (ds_id x)) as Hids.
    rewrite Hadd in Hids. destruct (Hids Hc) as [? | Hin]; [assumption |].
    now destruct (Hdisj x Hx).
Qed.

(** C4: [replace] archives every old dataset and then adds every new
    one, in order and by [add], inside one transaction block; a block
    that [add] opens inside it is part of that transaction.  Its outcome
    is the outcome of those [add]s on the archived database.  If an
    [add] raises, [replace] raises and the database is the one it found:
    no archival stays.  If none raises, every old dataset that had a row
    is archived and every new dataset is indexed.  And none raises when
    the new datasets and what they derive from can all be inserted. *)
Theorem replace_is_one_transaction
    (old_datasets new_datasets : list Dataset) (w : World) :
  let r := replace old_datasets new_datasets w in
  let inner :=
    add_each new_datasets (set_db (archive_all old_datasets (db w)) w) in
  let outcome := fst (fst r) in
  let w' := snd r in
  snd (fst r) = new_datasets /\
  outcome = fst (fst inner) /\
  rtc db_step (archive_all old_datasets (db w)) (db (snd inner)) /\
  (outcome <> None -> db w' = db w /\ w' = set_db (db w) (snd inner)) /\
  (outcome = None ->
   w' = snd inner /\
   (forall old row0,
       In old old_datasets ->
       find_dataset (db w) (ds_id old) = Some row0 ->
       exists row, find_dataset (db w') (ds_id old) = Some row /\
                   dsr_archived row = true) /\
   (forall new, In new new_datasets ->
                contains_dataset (db w') (ds_id new) = true)) /\
  (insertable (db w) (concat (map tree new_datasets)) = true ->
   outcome = None).
Proof.
  cbv zeta. unfold replace, with_begin_in_place. rewrite archive_each.
  fold (archive_all old_datasets (db w)).
  set (wa := set_db (archive_all old_datasets (db w)) w).
  assert (Hprogress :
    insertable (db w) (concat (map tree new_datasets)) = true ->
    fst (fst (add_each new_datasets wa)) = None).
  { intros Hins. destruct (add_each_fresh new_datasets wa) as (w2 & ->);
      [| reflexivity].
    subst wa. simpl. now rewrite insertable_archived. }
  destruct (add_each_outcome new_datasets wa) as (r & w' & Heq & Hs & Hidx).
  rewrite Heq in *. simpl in Hs, Hprogress.
  destruct r as [e|]; simpl.
  - split; [reflexivity |]. split; [reflexivity |]. split; [exact Hs |].
    split; [auto |]. split; [discriminate |].
    intros Hins. now apply Hprogress.
  - split; [reflexivity |]. split; [reflexivity |]. split; [exact Hs |].
    split; [congruence |]. split; [| reflexivity].
    intros _. split; [reflexivity |]. split.
    + intros old row0 Hin Hf.
      destruct (archive_all_find old_datasets _ _ _ Hf)
        as (row & Hfa & _ & Harch).
      exists row. split; [eapply db_steps_find; eauto | eauto].
    + intros new Hin. specialize (Hidx eq_refl).
      rewrite Forall_forall in Hidx. apply Hidx. now apply list_elem_of_In.
Qed.


Lemma heap_safe_weaken {A} n (m : M A) (Q Q' : A -> Prop) :
  heap_safe n m Q -> (forall a, Q a -> Q' a) -> heap_safe n m Q'.
Proof.
  intros Hm HQ w Hn. destruct (Hm w Hn) as (? & ? & ?). auto.
Qed.

Lemma heap_safe_same {A} n (m : M A) :
  (forall w, heap (snd (m w)) = heap w) -> heap_safe n m (fun _ => True).
Proof. intros Hm w Hn. rewrite Hm. auto. Qed.

Lemma heap_safe_bind {A B} n (m : M A) (k : A -> M B) Q Q' :
  heap_safe n m Q -> (forall a, Q a -> heap_safe n (k a) Q') ->
  heap_safe n (m ≫= k) Q'.
Proof.
  intros Hm Hk w Hn. unfold mbind, M_bind, bind.
  destruct (Hm w Hn) as (Hlen & Htake & HQ).
  destruct (m w) as [[e|a] w1]; simpl in *.
  - repeat split; auto. discriminate.
  - destruct (Hk a (HQ a eq_refl) w1) as (Hlen' & Htake' & HQ'); [lia |].
    repeat split; [lia | congruence | auto].
Qed.

Lemma heap_safe_ret {A} n (a : A) (Q : A -> Prop) :
  Q a -> heap_safe n (mret a) Q.
Proof. intros Ha w Hn. simpl. repeat split; auto. now intros ? [= <-]. Qed.

Lemma heap_safe_raise {A} n e (Q : A -> Prop) : heap_safe n (raise e) Q.
Proof. intros w Hn. simpl. repeat split; auto. discriminate. Qed.

Lemma heap_safe_lift {A} n (r : exn + A) : heap_safe n (lift r) (fun _ => True).
Proof. now apply heap_safe_same. Qed.

Lemma heap_safe_db_read {A} n (f : PostgresDb -> A) :
  heap_safe n (db_read f) (fun _ => True).
Proof. now apply heap_safe_same. Qed.

Lemma heap_safe_for_each {X A} n (items : list X) (body : A -> X -> M A) acc :
  (forall acc x, heap_safe n (body acc x) (fun _ => True)) ->
  heap_safe n (for_each items body acc) (fun _ => True).
Proof.
  intros Hbody. revert acc. induction items as [| x items IH]; intros acc.
  - now apply heap_safe_ret.
  - simpl. eapply heap_safe_bind; [apply Hbody | auto].
Qed.

Lemma heap_safe_dict_object n q : heap_safe n (dict_object q) (fun _ => True).
Proof. now apply heap_safe_same. Qed.

Lemma heap_safe_dict_copy n q :
  heap_safe n (dict_copy q) (fun a => (n <= a)%nat).
Proof.
  intros w Hn. unfold dict_copy. simpl. rewrite length_app. simpl.
  repeat split; [lia | | now intros ? [= <-]].
  now rewrite take_app_le.
Qed.

Lemma heap_safe_dict_store n q d :
  (n <= q)%nat -> heap_safe n (dict_store q d) (fun _ => True).
Proof.
  intros Hq w Hn. unfold dict_store. simpl. rewrite length_insert.
  repeat split; auto. now rewrite take_insert_ge.
Qed.

Lemma dataset_type_make_same_store row w :
  same_store w (snd (DatasetTypeResource._make row w)).
Proof.
  destruct row as [row|]; [| apply same_store_refl].
  unfold DatasetTypeResource._make. unfold_m.
  pose proof (metadata_type_get_same_store (dtr_metadata_type_ref row) w).
  destruct (MetadataTypeResource.get _ w) as [[e|v] w1]; simpl in *; auto.
Qed.

Lemma dataset_type_get_by_name_same_store name w :
  same_store w (snd (DatasetTypeResource.get_by_name name w)).
Proof.
  apply cached_same_store; [intros; now repeat split |].
  intros w0. unfold mbind, M_bind, bind, db_read.
  destruct (get_dataset_type_by_name (db w0) name) as [row|];
    [| apply same_store_refl].
  pose proof (dataset_type_make_same_store (Some row) w0).
  destruct (DatasetTypeResource._make (Some row) w0) as [[e|v] w1];
    simpl in *; auto.
Qed.

Lemma dataset_make_same_store row w :
  same_store w (snd (DatasetResource._make row w)).
Proof.
  destruct row as [row|]; [| apply same_store_refl].
  unfold DatasetResource._make. unfold mbind, M_bind, bind.
  pose proof (dataset_type_get_same_store (res_dataset_type_ref row) w).
  destruct (DatasetTypeResource.get _ w) as [[e|v] w1]; simpl in *; auto.
Qed.

Lemma same_store_heap {A} n (m : M A) :
  (forall w, same_store w (snd (m w))) -> heap_safe n m (fun _ => True).
Proof. intros Hm. apply heap_safe_same. intros w. apply Hm. Qed.

Lemma heap_safe_for_dataset_types {A} n types
    (body : A -> option DatasetType -> M A) acc :
  (forall acc t, heap_safe n (body acc t) (fun _ => True)) ->
  heap_safe n (for_dataset_types types body acc) (fun _ => True).
Proof.
  intros Hbody. destruct types as [elements | field_names]; simpl.
  - now apply heap_safe_for_each.
  - unfold DatasetTypeResource.for_get_with_fields,
      DatasetTypeResource.for_get_all.
    eapply heap_safe_bind; [apply heap_safe_db_read |].
    intros records _. apply heap_safe_for_each. intros acc' record.
    eapply heap_safe_bind;
      [apply same_store_heap, dataset_type_make_same_store |].
    intros type_ _. destruct (DatasetTypeResource.has_all_fields _ _);
      [apply Hbody | now apply heap_safe_ret].
Qed.

Lemma heap_safe_get_dataset_types n q :
  heap_safe n (_get_dataset_types q) (fun _ => True).
Proof.
  unfold _get_dataset_types.
  eapply heap_safe_bind; [apply heap_safe_dict_object |].
  intros keys _. destruct (dict_mem "product" keys).
  - destruct (dict_get "product" keys) as [product|];
      [| apply heap_safe_raise].
    eapply heap_safe_bind;
      [apply same_store_heap, dataset_type_get_by_name_same_store |].
    intros t _. now apply heap_safe_ret.
  - simpl. now apply heap_safe_ret.
Qed.

Lemma heap_safe_pin_and_compile n q t :
  (n <= q)%nat -> heap_safe n (pin_and_compile q t) (fun _ => True).
Proof.
  intros Hq. unfold pin_and_compile, attributes.
  eapply heap_safe_bind with (Q := fun _ => True).
  { destruct t; [now apply heap_safe_ret | apply heap_safe_raise]. }
  intros [id_ fields] _.
  eapply heap_safe_bind; [apply heap_safe_dict_object |]. intros pinned _.
  eapply heap_safe_bind; [now apply heap_safe_dict_store |]. intros _ _.
  eapply heap_safe_bind; [apply heap_safe_dict_object |]. intros kwargs _.
  eapply heap_safe_bind; [apply heap_safe_lift |]. intros exprs _.
  now apply heap_safe_ret.
Qed.

Lemma heap_safe_drop_product n q keys :
  (n <= q)%nat ->
  heap_safe n (if dict_mem "product" keys
               then dict_store q (dict_del "product" keys)
               else mret tt) (fun _ => True).
Proof.
  intros Hq. destruct (dict_mem "product" keys);
    [now apply heap_safe_dict_store | now apply heap_safe_ret].
Qed.

Lemma heap_safe_do_search {R} n query return_fields with_source_ids
    (on_yield : DatasetResult -> M R) :
  (forall row, heap_safe n (on_yield row) (fun _ => True)) ->
  heap_safe n (_do_search query return_fields with_source_ids on_yield)
            (fun _ => True).
Proof.
  intros Hyield. unfold _do_search.
  eapply heap_safe_bind; [apply heap_safe_dict_copy |]. intros q Hq.
  eapply heap_safe_bind; [apply heap_safe_get_dataset_types |].
  intros types _.
  eapply heap_safe_bind; [apply heap_safe_dict_object |]. intros keys _.
  eapply heap_safe_bind; [now apply heap_safe_drop_product |]. intros _ _.
  apply heap_safe_for_dataset_types. intros yielded t.
  eapply heap_safe_bind; [now apply heap_safe_pin_and_compile |].
  intros [exprs fields] _.
  eapply heap_safe_bind; [apply heap_safe_db_read |]. intros found _.
  apply heap_safe_for_each. intros acc row.
  eapply heap_safe_bind; [apply Hyield |]. intros r _.
  now apply heap_safe_ret.
Qed.

Lemma heap_safe_do_count n query :
  heap_safe n (_do_count query) (fun _ => True).
Proof.
  unfold _do_count.
  eapply heap_safe_bind; [apply heap_safe_dict_copy |]. intros q Hq.
  eapply heap_safe_bind; [apply heap_safe_get_dataset_types |].
  intros types _.
  eapply heap_safe_bind; [apply heap_safe_dict_object |]. intros keys _.
  eapply heap_safe_bind; [now apply heap_safe_drop_product |]. intros _ _.
  apply heap_safe_for_dataset_types. intros result t.
  eapply heap_safe_bind; [now apply heap_safe_pin_and_compile |].
  intros [exprs fields] _.
  eapply heap_safe_bind; [apply heap_safe_db_read |]. intros k _.
  now apply heap_safe_ret.
Qed.

Lemma heap_safe_search n mapping :
  heap_safe n (search mapping) (fun _ => True).
Proof.
  unfold search.
  eapply heap_safe_bind; [apply heap_safe_dict_copy |]. intros query _.
  apply heap_safe_do_search. intros row.
  apply same_store_heap, dataset_make_same_store.
Qed.

Lemma heap_safe_prefix {A} (m : M A) w :
  heap_safe (length (heap w)) m (fun _ => True) ->
  take (length (heap w)) (heap (snd (m w))) = heap w.
Proof.
  intros Hm. destruct (Hm w) as (_ & Htake & _); [lia |].
  rewrite Htake. apply firstn_all.
Qed.

(** C10: [search], [count], [search_summaries] and [search_eager] work
    on dict objects of their own: after the call, whether it returned
    or raised, the caller's mapping, as every dict object that was
    there before the call, holds what it held. *)
Theorem search_leaves_query_mapping_unchanged (mapping : nat) (w : World) :
  take (length (heap w)) (heap (snd (search mapping w))) = heap w /\
  take (length (heap w)) (heap (snd (count mapping w))) = heap w /\
  take (length (heap w)) (heap (snd (search_summaries mapping w))) = heap w /\
  take (length (heap w)) (heap (snd (search_eager mapping w))) = heap w.
Proof.
  repeat split; apply heap_safe_prefix.
  - apply heap_safe_search.
  - unfold count.
    eapply heap_safe_bind; [apply heap_safe_dict_copy |]. intros query _.
    apply heap_safe_do_count.
  - unfold search_summaries.
    eapply heap_safe_bind; [apply heap_safe_dict_copy |]. intros query _.
    apply heap_safe_do_search. intros row. now apply heap_safe_ret.
  - unfold search_eager.
    eapply heap_safe_bind; [apply heap_safe_dict_copy |]. intros query _.
    apply heap_safe_search.
Qed.


Lemma cached_miss {K V} `{EqDecision K}
    (cache : World -> Cache K V) (set_cache : Cache K V -> World -> World)
    (func : K -> M V) (k : K) (w : World) :
  cache_getitem (now w) k (cache w) = None ->
  fst (cached cache set_cache func k w) = fst (func k w).
Proof.
  intros Hmiss. unfold cached. rewrite Hmiss.
  now destruct (func k w) as [[e|v] w'].
Qed.

Lemma cached_hit {K V} `{EqDecision K}
    (cache : World -> Cache K V) (set_cache : Cache K V -> World -> World)
    (func : K -> M V) (k : K) (w : World) v c :
  cache_getitem (now w) k (cache w) = Some (v, c) ->
  cached cache set_cache func k w = (inr v, set_cache c w).
Proof. intros Hhit. unfold cached. now rewrite Hhit. Qed.

(** C8, as the code has it: [add] of a metadata type or of a dataset
    type validates, then writes nothing when the name is registered
    with the same definition, raises the ConflictError of the name when
    it is registered with another one, and registers the definition
    when the name is new; a call that has not raised ends with the
    decorated [get_by_name(name)] and returns what that returns, never
    its argument.  That is the record made from the stored row when the
    cache of [get_by_name] has no live entry for the name; when it has
    one, it is the cached value, whatever the table holds. *)
Theorem add_ends_with_the_cached_read
    (definition_ name : doc) (allow_table_lock : bool)
    (type_ : DatasetType) (type_name : doc) (w : World) :
  metadata_type_valid definition_ = true ->
  doc_getitem definition_ "name" = inr name ->
  dataset_type_valid (definition type_) = true ->
  dt_name type_ = inr type_name ->
  (MetadataTypeResource.add definition_ allow_table_lock w =
     match get_metadata_type_by_name (db w) name with
     | Some existing =>
         if bool_decide (mtr_definition existing = definition_)
         then MetadataTypeResource.get_by_name name w
         else (inl (ConflictError "Metadata Type " name), w)
     | None =>
         MetadataTypeResource.get_by_name name
           (set_db (add_metadata_type (db w) name definition_
                                      (negb allow_table_lock)) w)
     end) /\
  (DatasetTypeResource.add type_ w =
     match get_dataset_type_by_name (db w) type_name with
     | Some existing =>
         if bool_decide (dtr_definition existing = definition type_)
         then DatasetTypeResource.get_by_name type_name w
         else (inl (ConflictError "Dataset type " type_name), w)
     | None =>
         match dt_metadata type_ with
         | inl e => (inl e, w)
         | inr metadata =>
             DatasetTypeResource.get_by_name type_name
               (set_db (add_dataset_type (db w) type_name metadata
                          (mt_id (metadata_type type_))
                          (definition type_)) w)
         end
     end) /\
  (forall w' row,
      cache_getitem (now w') name (cache_metadata_type_get_by_name w') = None ->
      get_metadata_type_by_name (db w') name = Some row ->
      fst (MetadataTypeResource.get_by_name name w') =
      match doc_getitem (mtr_definition row) "dataset" with
      | inr dataset_ =>
          inr (Some (mkMetadataType (mtr_name row) dataset_
                       (get_dataset_fields row) (Some (mtr_id row))))
      | inl e => inl e
      end) /\
  (forall w' row made,
      cache_getitem (now w') type_name (cache_dataset_type_get_by_name w')
        = None ->
      get_dataset_type_by_name (db w') type_name = Some row ->
      fst (DatasetTypeResource.get_by_name type_name w') = inr made ->
      exists stored,
        made = Some stored /\
        definition stored = dtr_definition row /\
        dt_id stored = Some (dtr_id row)) /\
  (forall w' cached_value c,
      cache_getitem (now w') name (cache_metadata_type_get_by_name w')
        = Some (cached_value, c) ->
      fst (MetadataTypeResource.get_by_name name w') = inr cached_value) /\
  (forall w' cached_value c,
      cache_getitem (now w') type_name (cache_dataset_type_get_by_name w')
        = Some (cached_value, c) ->
      fst (DatasetTypeResource.get_by_name type_name w') = inr cached_value).
Proof.
  intros Hvalid Hname Hvalid' Hname'.
  split; [| split; [| split; [| split; [| split]]]].
  - unfold MetadataTypeResource.add. rewrite Hvalid, Hname.
    unfold_m. simpl.
    destruct (get_metadata_type_by_name (db w) name) as [existing|];
      [| reflexivity].
    unfold check_doc_unchanged. unfold_m.
    now destruct (bool_decide (mtr_definition existing = definition_)).
  - unfold DatasetTypeResource.add. rewrite Hvalid', Hname'.
    unfold_m. simpl.
    destruct (get_dataset_type_by_name (db w) type_name) as [existing|].
    + unfold check_doc_unchanged. unfold_m.
      now destruct (bool_decide (dtr_definition existing = _)).
    + now destruct (dt_metadata type_).
  - intros w' row Hmiss Hrow. unfold MetadataTypeResource.get_by_name.
    rewrite cached_miss by exact Hmiss. unfold_m. rewrite Hrow. simpl.
    now destruct (doc_getitem (mtr_definition row) "dataset").
  - intros w' row made Hmiss Hrow. unfold DatasetTypeResource.get_by_name.
    rewrite cached_miss by exact Hmiss. unfold_m. rewrite Hrow. simpl.
    destruct (MetadataTypeResource.get (dtr_metadata_type_ref row) w')
      as [[e|mt] w1]; simpl; [discriminate |].
    intros [= <-]. eexists. repeat split.
  - intros w' v c Hhit. unfold MetadataTypeResource.get_by_name.
    now rewrite (cached_hit _ _ _ _ _ _ _ Hhit).
  - intros w' v c Hhit. unfold DatasetTypeResource.get_by_name.
    now rewrite (cached_hit _ _ _ _ _ _ _ Hhit).
Qed.


Lemma dict_get_set {V} k k' (v : V) d :
  dict_get k (dict_set k' v d) =
  if String.eqb k k' then Some v else dict_get k d.
Proof.
  destruct (String.eqb k k') eqn:E.
  - apply String.eqb_eq in E. subst. apply dict_get_set_eq.
  - apply String.eqb_neq in E. now apply dict_get_set_ne.
Qed.

Lemma same_keys_set {V} k (v : V) d :
  is_Some (dict_get k d) -> same_keys d (dict_set k v d).
Proof.
  intros Hk k'. rewrite dict_get_set.
  destruct (String.eqb k' k) eqn:E; [| reflexivity].
  apply String.eqb_eq in E. subst. split; eauto.
Qed.

Lemma same_keys_trans {V} (a b c : list (string * V)) :
  same_keys a b -> same_keys b c -> same_keys a c.
Proof. intros Hab Hbc k. now rewrite (Hab k). Qed.

(** The comprehension looks at the keys of the table only. *)
Lemma comprehension_same_keys datasets datasets' pairs acc :
  same_keys datasets datasets' ->
  comprehension datasets pairs acc = comprehension datasets' pairs acc.
Proof.
  intros Hk. revert acc.
  induction pairs as [| [s c] pairs IH]; intros acc; simpl; [reflexivity |].
  destruct (Hk s) as [H1 H2].
  destruct (dict_get s datasets) as [x|], (dict_get s datasets') as [y|];
    auto.
  - destruct H1 as [? [=]]. eauto.
  - destruct H2 as [? [=]]. eauto.
Qed.



Lemma link_spec datasets entry w r w' :
  link datasets entry w = (r, w') ->
  w' = w /\
  forall datasets', r = inr datasets' ->
    exists linked,
      datasets' = dict_set (fst entry) linked datasets /\
      ld_result linked = ld_result (snd entry) /\
      resolved datasets linked.
Proof.
  unfold link. unfold_m.
  destruct (comprehension datasets (source_pairs (ld_result (snd entry))) [])
    as [e|srcs] eqn:Ec; simpl.
  { intros [= <- <-]. split; [reflexivity | discriminate]. }
  destruct (doc_getitem (metadata_doc (ld_dataset (snd entry))) "lineage")
    as [e|lineage]; simpl.
  { intros [= <- <-]. split; [reflexivity | discriminate]. }
  destruct (doc_setitem lineage "source_datasets" DNone) as [e|x]; simpl.
  { intros [= <- <-]. split; [reflexivity | discriminate]. }
  intros [= <- <-]. split; [reflexivity |].
  intros datasets' [= <-]. eexists. split; [reflexivity |].
  split; [reflexivity |]. split; [exact Ec | reflexivity].
Qed.

Lemma link_all_spec todo datasets w final w' :
  Forall (fun entry => is_Some (dict_get (fst entry) datasets)) todo ->
  for_each todo link datasets w = (inr final, w') ->
  same_keys datasets final /\
  forall k linked, dict_get k final = Some linked ->
    (In k (dict_keys todo) -> resolved final linked) /\
    (~ In k (dict_keys todo) -> dict_get k datasets = Some linked).
Proof.
  revert datasets w.
  induction todo as [| entry todo IH]; intros datasets w Hkeys.
  - simpl. intros [= <- <-]. split; [easy |]. intros k linked Hg.
    split; [intros [] | auto].
  - apply Forall_cons in Hkeys as [Hk Hkeys].
    simpl. unfold mbind, M_bind, bind.
    destruct (link datasets entry w) as [[e|datasets1] w1] eqn:El;
      [discriminate |].
    destruct (link_spec _ _ _ _ _ El) as [-> Hl].
    destruct (Hl datasets1 eq_refl) as (linked1 & -> & Hres & Hresolved).
    pose proof (same_keys_set (fst entry) linked1 datasets Hk) as Hsame1.
    intros Hrest.
    apply IH in Hrest as [Hsame Hall].
    2:{ eapply Forall_impl; [exact Hkeys |]. intros e He. simpl in *.
        now apply Hsame1. }
    split; [eapply same_keys_trans; eauto |].
    intros k linked Hg. destruct (Hall k linked Hg) as [Hin Hout].
    destruct (in_dec String.string_dec k (dict_keys todo)) as [Hi | Hni].
    + split; [auto | simpl; tauto].
    + specialize (Hout Hni). rewrite dict_get_set in Hout.
      destruct (String.eqb k (fst entry)) eqn:E.
      * apply String.eqb_eq in E. subst k. injection Hout as <-.
        split; [| simpl; tauto].
        intros _. destruct Hresolved as [Hc Hsd]. split; [| exact Hsd].
        rewrite <- Hc. symmetry. apply comprehension_same_keys.
        eapply same_keys_trans; eauto.
      * apply String.eqb_neq in E. split; [| auto].
        simpl. intros [Heq | Hi]; [congruence | tauto].
Qed.


Lemma in_entries_key {V} (d : list (string * V)) :
  Forall (fun entry => is_Some (dict_get (fst entry) d)) d.
Proof.
  induction d as [| [k v] d IH]; constructor; simpl.
  - rewrite String.eqb_refl. eauto.
  - eapply Forall_impl; [exact IH |]. intros [k' v'] Hs. simpl in *.
    destruct (String.eqb k' k); eauto.
Qed.



Lemma oblivious_ret {A} (a : A) : heap_oblivious (mret a).
Proof. now intros h w. Qed.

Lemma oblivious_raise {A} e : heap_oblivious (@raise A e).
Proof. now intros h w. Qed.

Lemma oblivious_lift {A} (r : exn + A) : heap_oblivious (lift r).
Proof. now intros h w. Qed.

Lemma oblivious_db_read {A} (f : PostgresDb -> A) :
  heap_oblivious (db_read f).
Proof. now intros h w. Qed.

Lemma oblivious_bind {A B} (m : M A) (k : A -> M B) :
  heap_oblivious m -> (forall a, heap_oblivious (k a)) ->
  heap_oblivious (m ≫= k).
Proof.
  intros Hm Hk h w. unfold mbind, M_bind, bind. rewrite Hm.
  destruct (m w) as [[e|a] w1]; simpl; [reflexivity |]. apply Hk.
Qed.

Lemma oblivious_cached {K V} `{EqDecision K}
    (cache : World -> Cache K V) (set_cache : Cache K V -> World -> World)
    (func : K -> M V) (k : K) :
  (forall h w, cache (set_heap h w) = cache w) ->
  (forall h c w, set_cache c (set_heap h w) = set_heap h (set_cache c w)) ->
  heap_oblivious (func k) ->
  heap_oblivious (cached cache set_cache func k).
Proof.
  intros Hc Hs Hf h w. unfold cached. rewrite Hc. simpl.
  destruct (cache_getitem (now w) k (cache w)) as [[v c]|]; simpl.
  - now rewrite Hs.
  - rewrite Hf. destruct (func k w) as [[e|v] w1]; simpl; [reflexivity |].
    now rewrite Hc, Hs.
Qed.

Lemma oblivious_metadata_type_get ref :
  heap_oblivious (MetadataTypeResource.get ref).
Proof.
  apply oblivious_cached; try easy.
  apply oblivious_bind; [apply oblivious_db_read |].
  intros [row|]; [| apply oblivious_raise].
  apply oblivious_bind; [apply oblivious_lift |]. intros d.
  apply oblivious_ret.
Qed.

Lemma oblivious_dataset_type_make row :
  heap_oblivious (DatasetTypeResource._make row).
Proof.
  destruct row as [row|]; [| apply oblivious_raise].
  apply oblivious_bind; [apply oblivious_metadata_type_get |].
  intros mt. apply oblivious_ret.
Qed.

Lemma oblivious_dataset_type_get_by_name name :
  heap_oblivious (DatasetTypeResource.get_by_name name).
Proof.
  apply oblivious_cached; try easy.
  apply oblivious_bind; [apply oblivious_db_read |].
  intros [row|]; [| apply oblivious_ret].
  apply oblivious_bind; [apply oblivious_dataset_type_make |].
  intros made. apply oblivious_ret.
Qed.

(** *** The caches under [search] and [count] *)

Lemma cache_getitem_in {K V} `{EqDecision K} time (k : K) (c : Cache K V)
    v c' :
  cache_getitem time k c = Some (v, c') ->
  (exists e, In e c /\ ce_key e = k /\ ce_value e = v) /\
  (forall e, In e c' -> In e c).
Proof.
  unfold cache_getitem.
  destruct (List.find _ c) as [e|] eqn:Ef; [| discriminate].
  intros [= <- <-]. apply find_some in Ef as [Hin Hk].
  apply andb_true_iff in Hk as [Hk _]. apply bool_decide_eq_true in Hk.
  split; [eauto |].
  intros e' [<- | Hin']; [exact Hin |].
  now apply filter_In in Hin' as [? _].
Qed.

Lemma in_removelast {A} (x : A) l : In x (removelast l) -> In x l.
Proof.
  induction l as [| y l IH]; simpl; [tauto |].
  destruct l; [tauto |]. intros [-> | Hin]; auto.
Qed.

Lemma cache_setitem_in {K V} `{EqDecision K} time (k : K) (v : V)
    (c : Cache K V) e :
  In e (cache_setitem time k v c) ->
  (ce_key e = k /\ ce_value e = v) \/ In e c.
Proof.
  unfold cache_setitem. intros [<- | Hin]; [now left |]. right.
  destruct (cache_maxsize <=? _)%nat.
  - apply in_removelast in Hin. now apply filter_In in Hin as [? _].
  - now apply filter_In in Hin as [? _].
Qed.

Lemma steady_refl w : steady w w.
Proof. now repeat split. Qed.

Lemma steady_trans w1 w2 w3 : steady w1 w2 -> steady w2 w3 -> steady w1 w3.
Proof. unfold steady. intuition congruence. Qed.

Lemma metadata_type_load_eq ref w :
  (db_read (fun σ => get_metadata_type σ ref)
     ≫= MetadataTypeResource._make) w =
  (load_metadata_type (db w) ref, w).
Proof.
  unfold load_metadata_type. unfold_m.
  destruct (get_metadata_type (db w) ref) as [row|]; [| reflexivity].
  simpl. now destruct (doc_getitem (mtr_definition row) "dataset").
Qed.

Lemma metadata_type_get_steady ref w r w' :
  MetadataTypeResource.get ref w = (r, w') ->
  steady w w' /\
  (coherent w -> forall v, r = inr v ->
                 load_metadata_type (db w) ref = inr v).
Proof.
  unfold MetadataTypeResource.get, cached.
  destruct (cache_getitem (now w) ref (cache_metadata_type_get w))
    as [[v c]|] eqn:Eg.
  - intros [= <- <-].
    destruct (cache_getitem_in _ _ _ _ _ Eg) as [(e & Hin & Hk & Hv) Hsub].
    split.
    + repeat split. unfold coherent. simpl. rewrite !Forall_forall.
      intros Hc e' He'. apply Hc. apply list_elem_of_In.
      apply Hsub. now apply list_elem_of_In.
    + intros Hc v' [= <-]. unfold coherent in Hc.
      rewrite Forall_forall in Hc. specialize (Hc e).
      rewrite Hk, Hv in Hc. apply Hc. now apply list_elem_of_In.
  - cbv beta. rewrite metadata_type_load_eq.
    destruct (load_metadata_type (db w) ref) as [e|v] eqn:El.
    + intros [= <- <-]. split; [apply steady_refl | discriminate].
    + intros [= <- <-]. split; [| now intros _ v' [= <-]].
      repeat split. unfold coherent. simpl. rewrite !Forall_forall.
      intros Hc e' He'. apply list_elem_of_In in He'.
      apply cache_setitem_in in He' as [[-> ->] | Hin]; [exact El |].
      apply Hc. now apply list_elem_of_In.
Qed.

Lemma dataset_type_make_steady row w r w' :
  DatasetTypeResource._make (Some row) w = (r, w') ->
  steady w w' /\
  (coherent w -> forall t, r = inr t -> load_dataset_type (db w) row = inr t).
Proof.
  unfold DatasetTypeResource._make. unfold mbind, M_bind, bind.
  destruct (MetadataTypeResource.get (dtr_metadata_type_ref row) w)
    as [[e|mt] w1] eqn:Eg;
    destruct (metadata_type_get_steady _ _ _ _ Eg) as [Hst Hv];
    intros [= <- <-]; (split; [exact Hst |]); [discriminate |].
  intros Hc t [= <-]. unfold load_dataset_type.
  now rewrite (Hv Hc mt eq_refl).
Qed.

Lemma set_other_cache_steady w w' :
  db w' = db w -> heap w' = heap w ->
  cache_metadata_type_get w' = cache_metadata_type_get w ->
  steady w w'.
Proof.
  intros Hd Hh Hc. repeat split; auto. unfold coherent.
  now rewrite Hd, Hc.
Qed.

Lemma dataset_type_get_steady ref w r w' :
  DatasetTypeResource.get ref w = (r, w') -> steady w w'.
Proof.
  unfold DatasetTypeResource.get, cached.
  destruct (cache_getitem (now w) ref (cache_dataset_type_get w))
    as [[v c]|].
  - intros [= <- <-]. now apply set_other_cache_steady.
  - unfold mbind, M_bind, bind, db_read.
    destruct (get_dataset_type (db w) ref) as [row|].
    + destruct (DatasetTypeResource._make (Some row) w) as [[e|v] w1] eqn:Em;
        destruct (dataset_type_make_steady _ _ _ _ Em) as [Hst _];
        intros [= <- <-]; [exact Hst |].
      eapply steady_trans; [exact Hst |].
      now apply set_other_cache_steady.
    + simpl. intros [= <- <-]. apply steady_refl.
Qed.

Lemma dataset_make_steady row w r w' :
  DatasetResource._make (Some row) w = (r, w') -> steady w w'.
Proof.
  unfold DatasetResource._make. unfold mbind, M_bind, bind.
  destruct (DatasetTypeResource.get (res_dataset_type_ref row) w)
    as [[e|v] w1] eqn:Eg;
    pose proof (dataset_type_get_steady _ _ _ _ Eg) as Hst;
    now intros [= <- <-].
Qed.

Lemma dataset_type_get_by_name_steady name w r w' :
  DatasetTypeResource.get_by_name name w = (r, w') -> steady w w'.
Proof.
  unfold DatasetTypeResource.get_by_name, cached.
  destruct (cache_getitem (now w) name (cache_dataset_type_get_by_name w))
    as [[v c]|].
  - intros [= <- <-]. now apply set_other_cache_steady.
  - unfold mbind, M_bind, bind, db_read.
    destruct (get_dataset_type_by_name (db w) name) as [row|].
    + destruct (DatasetTypeResource._make (Some row) w) as [[e|v] w1] eqn:Em;
        destruct (dataset_type_make_steady _ _ _ _ Em) as [Hst _];
        simpl; intros [= <- <-]; [exact Hst |].
      eapply steady_trans; [exact Hst |].
      now apply set_other_cache_steady.
    + simpl. intros [= <- <-]. now apply set_other_cache_steady.
Qed.

(** *** [count] against [search] *)

Lemma bind_eq {A B} (m : M A) (k : A -> M B) w :
  (m ≫= k) w =
  match m w with
  | (inr a, w') => k a w'
  | (inl e, w') => (inl e, w')
  end.
Proof. reflexivity. Qed.

Lemma for_each_cons {X A} (x : X) xs (body : A -> X -> M A) acc w :
  for_each (x :: xs) body acc w =
  match body acc x w with
  | (inr acc', w') => for_each xs body acc' w'
  | (inl e, w') => (inl e, w')
  end.
Proof. reflexivity. Qed.

Lemma count_datasets_length σ expressions select_fields with_source_ids :
  count_datasets σ expressions =
  Z.of_nat (length (search_datasets σ expressions select_fields
                                    with_source_ids)).
Proof.
  unfold count_datasets, search_datasets. rewrite length_map.
  assert (Hgen : forall tbl n,
    fold_left (fun n r => if selected expressions r then n + 1 else n) tbl n
    = n + Z.of_nat (length (List.filter (selected expressions) tbl))).
  { induction tbl as [| r tbl IH]; intros n; simpl; [lia |].
    rewrite IH. destruct (selected expressions r); simpl; lia. }
  now rewrite Hgen.
Qed.

Lemma dict_at_lookup (h : list Query) q d :
  h !! q = Some d -> dict_at h q = d.
Proof. unfold dict_at. now intros ->. Qed.

Lemma pin_and_compile_eq q t w d :
  heap w !! q = Some d ->
  pin_and_compile q t w =
  match t with
  | None => (inl (AttributeError "'NoneType' object has no attribute 'id'"), w)
  | Some t =>
      let fields := dataset_fields (metadata_type t) in
      let pinned := dict_set "dataset_type_id" (id_value (dt_id t)) d in
      (match to_expressions (fun name => dict_get name fields) pinned with
       | inl e => inl e
       | inr exprs => inr (exprs, fields)
       end,
       set_heap (<[q := pinned]> (heap w)) w)
  end.
Proof.
  intros Hq. unfold pin_and_compile, attributes. unfold_m.
  destruct t as [t|]; [| reflexivity]. simpl.
  rewrite (dict_at_lookup _ _ _ Hq).
  erewrite dict_at_lookup
    by (apply list_lookup_insert_eq; now apply lookup_lt_Some in Hq).
  now destruct (to_expressions _ _).
Qed.

Lemma side_by_side_steady qc qs wc ws wc' ws' :
  side_by_side qc qs wc ws -> steady wc wc' -> steady ws ws' ->
  side_by_side qc qs wc' ws'.
Proof.
  intros (Hd & Hc & Hs & d & Hqc & Hqs) (Hd1 & Hh1 & Hc1) (Hd2 & Hh2 & Hc2).
  repeat split; auto; [congruence |]. exists d. now rewrite Hh1, Hh2.
Qed.

Lemma yield_all_length found ls ws ls' ws' :
  for_each found
    (fun yielded dataset => r ← DatasetResource._make (Some dataset);
                            mret (yielded ++ [r])) ls ws = (inr ls', ws') ->
  length ls' = (length ls + length found)%nat /\ steady ws ws'.
Proof.
  revert ls ws. induction found as [| row found IH]; intros ls ws.
  - simpl. intros [= <- <-]. split; [lia | apply steady_refl].
  - rewrite for_each_cons, bind_eq.
    destruct (DatasetResource._make (Some row) ws) as [[e|r] w1] eqn:Em;
      [intros [=] |].
    pose proof (dataset_make_steady _ _ _ _ Em) as Hst.
    cbv beta iota. unfold mret, M_ret, ret.
    intros Hrest. apply IH in Hrest as [Hlen Hst'].
    rewrite length_app in Hlen. simpl in Hlen. simpl.
    split; [lia | eapply steady_trans; eauto].
Qed.

Lemma body_step qc qs wc ws t result yielded n wc' ls ws' :
  side_by_side qc qs wc ws ->
  count_body qc result t wc = (inr n, wc') ->
  search_body qs yielded t ws = (inr ls, ws') ->
  n - result = Z.of_nat (length ls) - Z.of_nat (length yielded) /\
  side_by_side qc qs wc' ws'.
Proof.
  intros (Hd & Hc & Hs & d & Hqc & Hqs).
  unfold count_body, search_body.
  unfold mbind at 1, M_bind at 1, bind at 1.
  rewrite (pin_and_compile_eq _ _ _ _ Hqc).
  intros Hcount.
  unfold mbind at 1, M_bind at 1, bind at 1.
  rewrite (pin_and_compile_eq _ _ _ _ Hqs).
  destruct t as [t|]; [| intros [=]]. cbv zeta in *.
  destruct (to_expressions _ _) as [e|exprs]; [discriminate |].
  unfold_m. simpl in Hcount |- *. injection Hcount as <- <-.
  intros Hsearch. apply yield_all_length in Hsearch as [Hlen Hst].
  split.
  - rewrite (count_datasets_length _ _ None false), Hd. simpl in *. lia.
  - eapply side_by_side_steady; [| apply steady_refl | exact Hst].
    simpl. repeat split; auto.
    exists (dict_set "dataset_type_id" (id_value (dt_id t)) d). simpl.
    apply lookup_lt_Some in Hqc as Hlc. apply lookup_lt_Some in Hqs as Hls.
    now rewrite !list_lookup_insert_eq.
Qed.

Lemma set_side_by_side qc qs elements :
  forall result yielded wc ws n wc' ls ws',
    side_by_side qc qs wc ws ->
    for_each elements (count_body qc) result wc = (inr n, wc') ->
    for_each elements (search_body qs) yielded ws = (inr ls, ws') ->
    n - result = Z.of_nat (length ls) - Z.of_nat (length yielded).
Proof.
  induction elements as [| t elements IH];
    intros result yielded wc ws n wc' ls ws' Hside.
  - simpl. intros [= <- <-] [= <- <-]. lia.
  - rewrite !for_each_cons.
    destruct (count_body qc result t wc) as [[e|n1] wc1] eqn:Ec;
      [intros [=] |].
    destruct (search_body qs yielded t ws) as [[e|ls1] ws1] eqn:Es;
      [intros _ [=] |].
    destruct (body_step _ _ _ _ _ _ _ _ _ _ _ Hside Ec Es) as [Hstep Hside1].
    intros Hc Hs. specialize (IH _ _ _ _ _ _ _ _ Hside1 Hc Hs). lia.
Qed.

Lemma generator_side_by_side qc qs field_names records :
  forall result yielded wc ws n wc' ls ws',
    side_by_side qc qs wc ws ->
    for_each records (generated field_names (count_body qc)) result wc
      = (inr n, wc') ->
    for_each records (generated field_names (search_body qs)) yielded ws
      = (inr ls, ws') ->
    n - result = Z.of_nat (length ls) - Z.of_nat (length yielded).
Proof.
  induction records as [| record records IH];
    intros result yielded wc ws n wc' ls ws' Hside.
  - simpl. intros [= <- <-] [= <- <-]. lia.
  - rewrite !for_each_cons. unfold generated at 1 3. rewrite !bind_eq.
    destruct (DatasetTypeResource._make (Some record) wc)
      as [[e|tc] wc1] eqn:Emc; [intros [=] |].
    destruct (DatasetTypeResource._make (Some record) ws)
      as [[e|ts] ws1] eqn:Ems; [intros _ [=] |].
    destruct (dataset_type_make_steady _ _ _ _ Emc) as [Hstc Hvc].
    destruct (dataset_type_make_steady _ _ _ _ Ems) as [Hsts Hvs].
    pose proof (side_by_side_steady _ _ _ _ _ _ Hside Hstc Hsts) as Hside1.
    destruct Hside as (Hd & Hc & Hs & _).
    specialize (Hvc Hc tc eq_refl). specialize (Hvs Hs ts eq_refl).
    rewrite Hd, Hvs in Hvc. injection Hvc as <-.
    destruct (DatasetTypeResource.has_all_fields ts field_names).
    + destruct (count_body qc result (Some ts) wc1) as [[e|n1] wc2] eqn:Ec;
        [intros [=] |].
      destruct (search_body qs yielded (Some ts) ws1) as [[e|ls1] ws2] eqn:Es;
        [intros _ [=] |].
      destruct (body_step _ _ _ _ _ _ _ _ _ _ _ Hside1 Ec Es)
        as [Hstep Hside2].
      intros Hcc Hss. specialize (IH _ _ _ _ _ _ _ _ Hside2 Hcc Hss). lia.
    + unfold mret, M_ret, ret. intros Hcc Hss.
      now apply (IH _ _ _ _ _ _ _ _ Hside1 Hcc Hss).
Qed.

Lemma for_dataset_types_side_by_side qc qs types :
  forall wc ws n wc' ls ws',
    side_by_side qc qs wc ws ->
    for_dataset_types types (count_body qc) 0 wc = (inr n, wc') ->
    for_dataset_types types (search_body qs) [] ws = (inr ls, ws') ->
    n = Z.of_nat (length ls).
Proof.
  intros wc ws n wc' ls ws' Hside.
  destruct types as [elements | field_names]; simpl.
  - intros Hc Hs.
    pose proof (set_side_by_side _ _ _ _ _ _ _ _ _ _ _ Hside Hc Hs).
    simpl in *. lia.
  - unfold DatasetTypeResource.for_get_with_fields,
      DatasetTypeResource.for_get_all.
    rewrite !bind_eq. unfold db_read. destruct Hside as (Hd & Hrest).
    rewrite Hd. intros Hc Hs.
    pose proof (generator_side_by_side qc qs field_names
                  (get_all_dataset_types (db ws)) 0 [] wc ws n wc' ls ws'
                  (conj Hd Hrest) Hc Hs).
    simpl in *. lia.
Qed.

Lemma coherent_set_heap h w : coherent (set_heap h w) <-> coherent w.
Proof. reflexivity. Qed.

Lemma set_heap_set_heap h h' w : set_heap h' (set_heap h w) = set_heap h' w.
Proof. reflexivity. Qed.

Lemma lookup_appended {A} (l : list A) x : (l ++ [x]) !! length l = Some x.
Proof. rewrite lookup_app_r by lia. now rewrite Nat.sub_diag. Qed.

(** [_do_count] against the consumed [_do_search], started on dicts
    with the same items in states that differ in their dicts only. *)
Lemma do_count_do_search query_c query_s w (hc hs : list Query) (d : Query)
    n wc' ls ws' :
  coherent w ->
  hc !! query_c = Some d -> hs !! query_s = Some d ->
  _do_count query_c (set_heap hc w) = (inr n, wc') ->
  _do_search query_s false false
    (fun dataset => DatasetResource._make (Some dataset)) (set_heap hs w)
    = (inr ls, ws') ->
  n = Z.of_nat (length ls).
Proof.
  intros Hcoh Hqc Hqs. unfold _do_count, _do_search.
  rewrite !bind_eq. unfold dict_copy at 1 2. simpl heap.
  rewrite (dict_at_lookup _ _ _ Hqc), (dict_at_lookup _ _ _ Hqs).
  cbv beta iota. rewrite !set_heap_set_heap.
  set (qc := length hc). set (qs := length hs).
  set (hc1 := hc ++ [d]). set (hs1 := hs ++ [d]).
  assert (Hc1 : hc1 !! qc = Some d) by apply lookup_appended.
  assert (Hs1 : hs1 !! qs = Some d) by apply lookup_appended.
  (* the types *)
  assert (Htypes :
    exists r w1, steady w w1 /\
      _get_dataset_types qc (set_heap hc1 w) = (r, set_heap hc1 w1) /\
      _get_dataset_types qs (set_heap hs1 w) = (r, set_heap hs1 w1)).
  { unfold _get_dataset_types. rewrite !bind_eq.
    unfold dict_object. cbv beta iota.
    change (heap (set_heap hc1 w)) with hc1.
    change (heap (set_heap hs1 w)) with hs1.
    rewrite (dict_at_lookup _ _ _ Hc1), (dict_at_lookup _ _ _ Hs1).
    cbv beta iota.
    destruct (dict_mem "product" d).
    - destruct (dict_get "product" d) as [product|].
      + rewrite !bind_eq.
        rewrite !(oblivious_dataset_type_get_by_name (qv_doc product)).
        destruct (DatasetTypeResource.get_by_name (qv_doc product) w)
          as [[e|t] w1] eqn:Eg;
          pose proof (dataset_type_get_by_name_steady _ _ _ _ Eg) as Hst;
          simpl; eauto.
      + exists (inl (KeyError "product")), w.
        split; [apply steady_refl | auto].
    - simpl. exists (inr (TypesGenerator (dict_keys d))), w.
      split; [apply steady_refl | auto]. }
  destruct Htypes as (r & w1 & Hst & Htc & Hts).
  rewrite !bind_eq, Htc, Hts.
  destruct r as [e|types]; [intros [=] |].
  rewrite !bind_eq. unfold dict_object at 1 2. cbv beta iota.
  change (heap (set_heap hc1 w1)) with hc1.
  change (heap (set_heap hs1 w1)) with hs1.
  rewrite (dict_at_lookup _ _ _ Hc1), (dict_at_lookup _ _ _ Hs1).
  cbv beta iota.
  set (d0 := if dict_mem "product" d then dict_del "product" d else d).
  assert (Hdrop : forall q (h : list Query), h !! q = Some d ->
    (if dict_mem "product" d
     then dict_store q (dict_del "product" d)
     else mret tt) (set_heap h w1) = (inr tt, set_heap (<[q := d0]> h) w1)).
  { intros q h Hq. subst d0. destruct (dict_mem "product" d).
    - reflexivity.
    - unfold mret, M_ret, ret. now rewrite list_insert_id. }
  rewrite ?bind_eq.
  rewrite (Hdrop qc hc1 Hc1), (Hdrop qs hs1 Hs1). cbv beta iota.
  intros Hcount Hsearch.
  eapply (for_dataset_types_side_by_side qc qs types);
    [| exact Hcount | exact Hsearch].
  destruct Hst as (Hdb & _ & Hcoh1).
  repeat split; [apply Hcoh1, Hcoh | apply Hcoh1, Hcoh |].
  exists d0. simpl.
  apply lookup_lt_Some in Hc1. apply lookup_lt_Some in Hs1.
  now rewrite !list_lookup_insert_eq.
Qed.

(** C7: [count] returns the number of datasets that [search] yields for
    the same mapping in the same state, whenever both go through and
    the cache of [MetadataTypeResource.get] holds what the table
    holds. *)
Theorem count_is_length_of_search
    (mapping : nat) (w wc ws : World) (n : Z) (found : list Dataset) :
  coherent w ->
  count mapping w = (inr n, wc) ->
  search_eager mapping w = (inr found, ws) ->
  n = Z.of_nat (length found).
Proof.
  intros Hcoh. unfold count, search_eager, search.
  rewrite !bind_eq. unfold dict_copy at 1 2. cbv beta iota.
  set (d := dict_at (heap w) mapping).
  rewrite bind_eq. unfold dict_copy. cbv beta iota.
  change (heap (set_heap (heap w ++ [d]) w)) with (heap w ++ [d]).
  rewrite (dict_at_lookup (heap w ++ [d]) (length (heap w)) d)
    by apply lookup_appended.
  change (set_heap ((heap w ++ [d]) ++ [d]) (set_heap (heap w ++ [d]) w))
    with (set_heap ((heap w ++ [d]) ++ [d]) w).
  apply do_count_do_search with (d := d); auto.
  - apply lookup_appended.
  - apply lookup_appended.
Qed.
End Properties.

(** * The code on the sample catalogue *)

(** ** The order of the writes, and a [replace] that fails *)

Example add_pq_writes_in_order :
  map (fun ev =>
         match ev with
         | EvInsertDataset d _ => ("row", ds_id d, "-")
         | EvInsertDatasetSource _ d s _ => ("edge", ds_id d, ds_id s)
         end)
      (trace Sample.after_pq) =
  [("row", "raw", "-"); ("row", "anc", "-"); ("row", "nbar", "-");
   ("edge", "nbar", "raw"); ("edge", "nbar", "anc");
   ("row", "pq", "-"); ("edge", "pq", "nbar")].
Proof. vm_compute. reflexivity. Qed.

Example replace_rolls_archival_back :
  let r := @DatasetResource.replace Sample.collaborators
             [Sample.raw] [Sample.nbar_changed] Sample.after_nbar in
  fst (fst r) = Some (ConflictError "Dataset " (DStr "nbar")) /\
  db (snd r) = db Sample.after_nbar /\
  (dsr_archived <$> find_dataset (db (snd r)) "raw") = Some false.
Proof. vm_compute. repeat split. Qed.

Example count_works_on_its_own_dict :
  heap (snd (@DatasetResource.count Sample.collaborators 0
               (Sample.holding Sample.product_query Sample.after_nbar))) =
  [Sample.product_query; Sample.product_query;
   [("platform", QValue (DStr "LANDSAT_8"));
    ("dataset_type_id", QValue (DInt 1))]].
Proof. vm_compute. reflexivity. Qed.

(** ** C1: a second [add] *)

Lemma add_again_succeeds_or_conflicts_witness :
  (exists w2,
      @DatasetResource.add Sample.collaborators Sample.nbar false
        Sample.after_nbar = (None, Sample.nbar, w2) /\
      dataset_tbl (db w2) = dataset_tbl (db Sample.after_nbar)) /\
  (exists w2,
      @DatasetResource.add Sample.collaborators Sample.nbar_changed true
        Sample.after_nbar =
        (Some (ConflictError "Dataset " (DStr "nbar")),
         Sample.nbar_changed, w2) /\
      length (records_of (db w2) "nbar") = 1%nat).
Proof.
  refine (add_again_succeeds_or_conflicts (H := Sample.collaborators)
            Sample.nbar false Sample.world Sample.nbar Sample.after_nbar
            Sample.nbar_changed true Sample.after_nbar
            (DDict [("raw", metadata_doc Sample.raw);
                    ("ancillary", metadata_doc Sample.ancillary)])
            _ _ _ _ _ _).
  - vm_compute. reflexivity.
  - constructor.
  - reflexivity.
  - reflexivity.
  - reflexivity.
  - vm_compute. reflexivity.
Defined.

(** ** C2: a source id outside the batch *)



(** The sources of [nbar] are resolved, and the NULL source of [raw] and
    of [anc] is left out. *)
Example get_nbar_with_sources :
  map (fun kv => (fst kv, res_sources (ld_result (snd kv)),
                  ld_sources (snd kv)))
      (pg_datasets Sample.graph_of_nbar) =
  [("raw", [None], []); ("anc", [None], []);
   ("nbar", [Some "raw"; Some "anc"],
    [("raw", "raw"); ("ancillary", "anc")])].
Proof. vm_compute. reflexivity. Qed.

(** ** C3: a query whose fields no type has *)

(** C3 fails on the code: the only registered type has no field
    [colour], the mapping has no product key, and [count] returns 0 and
    [search_eager] the empty list; no ValueError is raised, the test
    [if not types] being made on a generator object. *)
Theorem count_of_unmatched_fields_is_zero :
  let w := Sample.holding Sample.colour_query Sample.after_nbar in
  DatasetTypeResource.has_all_fields Sample.ls8
    (dict_keys Sample.colour_query) = false /\
  map dtr_id (dataset_type_tbl (db w)) = [1] /\
  fst (@DatasetResource._get_dataset_types Sample.collaborators 0 w)
    = inr (TypesGenerator ["colour"]) /\
  fst (@DatasetResource.count Sample.collaborators 0 w) = inr 0 /\
  fst (@DatasetResource.search_eager Sample.collaborators 0 w) = inr [].
Proof. vm_compute. repeat split; reflexivity. Qed.

(** ** C7: [count] and [search] *)

Lemma count_is_length_of_search_witness :
  fst (@DatasetResource.count Sample.collaborators 0
         (Sample.holding Sample.platform_query Sample.after_nbar)) = inr 3 /\
  3 = Z.of_nat
        (length
           (match fst (@DatasetResource.search_eager Sample.collaborators 0
                         (Sample.holding Sample.platform_query
                                         Sample.after_nbar)) with
            | inr found => found
            | inl _ => []
            end)).
Proof.
  split; [vm_compute; reflexivity |].
  refine (count_is_length_of_search (H := Sample.collaborators) 0
            (Sample.holding Sample.platform_query Sample.after_nbar)
            (snd (@DatasetResource.count Sample.collaborators 0
                    (Sample.holding Sample.platform_query Sample.after_nbar)))
            (snd (@DatasetResource.search_eager Sample.collaborators 0
                    (Sample.holding Sample.platform_query Sample.after_nbar)))
            3 _ _ _ _).
  - apply List.Forall_nil.
  - vm_compute. reflexivity.
  - vm_compute. reflexivity.
Defined.

(** ** C8: what [add] of a type returns *)

(** A read of the name before it is registered leaves "not found" in the
    cache of [get_by_name]; the [add] that registers the definition then
    returns None, and so does the next [add] of the same definition,
    which finds the record unchanged. *)
Lemma add_returns_cached_not_found :
  let w1 := snd (@MetadataTypeResource.get_by_name Sample.collaborators
                   (DStr "eo") Sample.empty_world) in
  let r2 := @MetadataTypeResource.add Sample.collaborators
              Sample.eo_definition false w1 in
  get_metadata_type_by_name (db w1) (DStr "eo") = None /\
  get_metadata_type_by_name (db (snd r2)) (DStr "eo")
    = Some (mkMetadataTypeRow 1 (DStr "eo") Sample.eo_definition) /\
  fst r2 = inr None /\
  fst (@MetadataTypeResource.add Sample.collaborators
         Sample.eo_definition false (snd r2)) = inr None.
Proof. vm_compute. repeat split; reflexivity. Qed.

Lemma add_ends_with_the_cached_read_witness :
  @MetadataTypeResource.add Sample.collaborators Sample.eo_definition false
    Sample.world =
  @MetadataTypeResource.get_by_name Sample.collaborators (DStr "eo")
    Sample.world.
Proof.
  exact (proj1 (add_ends_with_the_cached_read (H := Sample.collaborators)
                  Sample.eo_definition (DStr "eo") false Sample.ls8
                  (DStr "ls8_nbar") Sample.world
                  eq_refl eq_refl eq_refl eq_refl)).
Defined.

(** ** C9: a source edge that is refused *)

(** [twice] names [raw] under the classifiers [a] and [b]: the edge of
    [a] is written, the edge of [b] is refused, the edge of [c] is never
    asked for. *)
Lemma add_keeps_partial_edges_on_duplicate_source_witness :
  exists w1 w',
    DatasetResource.index_transaction (H := Sample.collaborators)
      (with_metadata_doc Sample.twice (stripped_doc Sample.twice))
      Sample.sources_of_twice_in = (inr true, w1) /\
    @DatasetResource.add Sample.collaborators Sample.twice false Sample.world
      = (None, Sample.twice, w') /\
    dataset_tbl (db w') =
      dataset_tbl (db Sample.sources_of_twice_in) ++
      [mkDatasetRow "twice" (Some 1)
         (stripped_doc Sample.twice) false] /\
    dataset_source_tbl (db w') = [mkSourceRow "a" "twice" "raw"] /\
    same_caches Sample.sources_of_twice_in w'.
Proof.
  refine (add_keeps_partial_edges_on_duplicate_source
            (H := Sample.collaborators) Sample.twice false Sample.world
            Sample.sources_of_twice_in
            [("a", Sample.raw)] [("c", Sample.ancillary)] ("b", Sample.raw)
            (DDict []) _ _ _ _ _ _).
  - vm_compute. reflexivity.
  - vm_compute. reflexivity.
  - reflexivity.
  - reflexivity.
  - vm_compute. reflexivity.
  - vm_compute. reflexivity.
Defined.

(** * Further properties of the code *)

Section More.
Context `{Collaborators}.
Import DatasetResource.

(** ** What [add] writes *)

Lemma grown_refl σ : grown σ σ.
Proof. repeat split; reflexivity. Qed.

Lemma grown_trans σ1 σ2 σ3 : grown σ1 σ2 -> grown σ2 σ3 -> grown σ1 σ3.
Proof.
  intros (Hm & Ht & Hd & Hs & Hl) (Hm' & Ht' & Hd' & Hs' & Hl').
  repeat split; try congruence; etrans; eauto.
Qed.

Lemma db_step_grown σ σ' : db_step σ σ' -> grown σ σ'.
Proof.
  destruct 1; repeat split; simpl; try reflexivity;
    now apply prefix_app_r.
Qed.

Lemma db_steps_grown σ σ' : rtc db_step σ σ' -> grown σ σ'.
Proof.
  induction 1 as [| σ1 σ2 σ3 Hs _ IH]; [apply grown_refl |].
  eapply grown_trans; [apply db_step_grown, Hs | exact IH].
Qed.

(** X1: whatever [add] does, returning or raising, it leaves the two
    tables of types as they are, and every row of a dataset, a source
    edge or a location that the index held is still there, unchanged
    and in its place: [add] never deletes, rewrites or archives. *)
Theorem add_only_appends (dataset : Dataset) (skip_sources : bool) (w : World) :
  grown (db w) (db (snd (add dataset skip_sources w))).
Proof.
  destruct (add_outcome_all dataset skip_sources w)
    as (r & w' & events & -> & Hsteps & _).
  now apply db_steps_grown.
Qed.

Lemma get_stored_dataset id_ row w :
  find_dataset (db w) id_ = Some row ->
  dataset_type_loads (db w) (dsr_dataset_type_ref row) = true ->
  exists existing w',
    get id_ false w = (inr existing, w') /\
    ds_id existing = id_ /\
    metadata_doc existing = dsr_metadata row /\
    sources existing = [] /\
    same_store w w'.
Proof.
  intros Hrow Hl. unfold get, get_dataset. unfold_m.
  rewrite Hrow. simpl.
  pose proof (dataset_type_get_same_store (dsr_dataset_type_ref row) w)
    as Hs.
  destruct (dataset_type_get_returns _ _ Hl) as (v & w' & Hg).
  rewrite Hg in *. simpl in *.
  destruct (find_dataset_id _ _ _ Hrow) as [Hid _].
  eexists _, _. split; [reflexivity |]. simpl. auto.
Qed.

(** X2: after an [add] that returned, [has] answers True, and [get] of
    the id (without sources) returns a new object with that id, whose
    document is the normalised document of the dataset with an empty
    lineage section, and which has no sources, as long as the types of
    the stored datasets can be read. *)
Theorem get_after_add_returns_stored_document
    (dataset after : Dataset) (skip_sources : bool) (w w' : World) :
  add dataset skip_sources w = (None, after, w') ->
  types_load (db w') = true ->
  has dataset w' = (inr true, w') /\
  exists existing w'',
    get (ds_id dataset) false w' = (inr existing, w'') /\
    ds_id existing = ds_id dataset /\
    metadata_doc existing = jsonify_document (stripped_doc dataset) /\
    sources existing = [] /\
    db w'' = db w'.
Proof.
  intros Hadd Hload.
  destruct (add_outcome_all dataset skip_sources w)
    as (r & w1 & events & Hadd' & _ & _ & _ & _ & Hrow & _).
  rewrite Hadd in Hadd'. injection Hadd' as <- _ <-.
  destruct (Hrow eq_refl) as (stripped & row & Hstrip & Hfind & Hdoc & _).
  split.
  - unfold has. unfold_m. f_equal. f_equal.
    apply contains_dataset_find. eauto.
  - destruct (get_stored_dataset _ _ _ Hfind (types_load_row _ _ _ Hload Hfind))
      as (existing & w'' & Hget & Hid & Hmd & Hsrc & Hdb & _).
    exists existing, w''. repeat split; auto.
    rewrite Hmd, Hdoc. now rewrite (stripped_doc_eq _ _ Hstrip).
Qed.


(** insert_sources: the accepted prefix *)
Lemma insert_sources_edges dataset items w :
  exists edges,
    edges `prefix_of` map (edge_of dataset) items /\
    dataset_source_tbl (db (snd (insert_sources dataset items w))) =
      dataset_source_tbl (db w) ++ edges /\
    dataset_tbl (db (snd (insert_sources dataset items w))) = dataset_tbl (db w) /\
    dataset_location_tbl (db (snd (insert_sources dataset items w))) =
      dataset_location_tbl (db w) /\
    metadata_type_tbl (db (snd (insert_sources dataset items w))) =
      metadata_type_tbl (db w) /\
    dataset_type_tbl (db (snd (insert_sources dataset items w))) =
      dataset_type_tbl (db w).
Proof.
  revert w. induction items as [| [c s] items IH]; intros w.
  - exists []. simpl. rewrite app_nil_r. repeat split; reflexivity.
  - simpl. unfold_m. simpl. unfold insert_dataset_source.
    destruct (existsb _ (dataset_source_tbl (db w))); simpl.
    + exists []. rewrite app_nil_r. repeat split; auto. apply prefix_nil.
    + match goal with |- context [insert_sources dataset items ?w1] =>
        destruct (IH w1) as (edges & Hp & He & Hd & Hl & Hm & Ht)
      end.
      simpl in *.
      exists (edge_of dataset (c, s) :: edges).
      split; [now apply prefix_cons |].
      rewrite He, <- app_assoc. repeat split; auto.
Qed.

Lemma index_transaction_writes dataset w :
  let σ := db w in
  let σ' := db (snd (index_transaction dataset w)) in
  metadata_type_tbl σ' = metadata_type_tbl σ /\
  dataset_type_tbl σ' = dataset_type_tbl σ /\
  (dataset_tbl σ' = dataset_tbl σ \/
   contains_dataset σ (ds_id dataset) = false /\
   dataset_tbl σ' = dataset_tbl σ ++ [inserted_row dataset]) /\
  (exists edges,
      dataset_source_tbl σ' = dataset_source_tbl σ ++ edges /\
      edges `prefix_of` map (edge_of dataset) (sources dataset)) /\
  dataset_location_tbl σ' = dataset_location_tbl σ.
Proof.
  unfold index_transaction, with_begin. unfold_m. simpl.
  unfold insert_dataset.
  destruct (contains_dataset (db w) (ds_id dataset)) eqn:Ec.
  - destruct duplicate_raises; simpl.
    + repeat split; auto. exists []. rewrite app_nil_r. split; auto.
      apply prefix_nil.
    + match goal with |- context [insert_sources dataset ?it ?w1] =>
        destruct (insert_sources_edges dataset it w1)
          as (edges & Hp & He & Hd & Hl & Hm & Ht);
        pose proof (insert_sources_spec dataset it w1)
          as (r & w' & evs & Hi & Hr & _);
        rewrite Hi in *
      end.
      simpl in *.
      destruct Hr as [-> | [m ->]]; simpl; repeat split; eauto.
  - simpl.
    match goal with |- context [insert_sources dataset ?it ?w1] =>
      destruct (insert_sources_edges dataset it w1)
        as (edges & Hp & He & Hd & Hl & Hm & Ht);
      pose proof (insert_sources_spec dataset it w1)
        as (r & w' & evs & Hi & Hr & _);
      rewrite Hi in *
    end.
    simpl in *.
    destruct Hr as [-> | [m ->]]; simpl; repeat split; eauto.
Qed.


Lemma register_location_writes dataset w :
  let σ := db w in
  let σ' := db (snd (register_location dataset w)) in
  metadata_type_tbl σ' = metadata_type_tbl σ /\
  dataset_type_tbl σ' = dataset_type_tbl σ /\
  dataset_tbl σ' = dataset_tbl σ /\
  dataset_source_tbl σ' = dataset_source_tbl σ /\
  (dataset_location_tbl σ' = dataset_location_tbl σ \/
   exists uri, local_uri dataset = Some uri /\
     dataset_location_tbl σ' =
       dataset_location_tbl σ ++ [mkLocationRow (ds_id dataset) uri]).
Proof.
  unfold register_location, except_DuplicateRecordError. unfold_m.
  destruct (local_uri dataset) as [uri|]; [| simpl; repeat split; auto].
  unfold ensure_dataset_location.
  destruct (existsb _ (dataset_location_tbl (db w))).
  - destruct duplicate_raises; simpl; repeat split; auto.
  - simpl. repeat split; eauto.
Qed.

(** X3: with [skip_sources=True], [add] writes records of the dataset
    itself at most: its row when the id has none, source edges for a
    leading part of its own [sources], and its location.  The sources
    get no row.  When [add] raises, no location was written. *)
Theorem add_skip_sources_writes_own_records (dataset : Dataset) (w : World) :
  let outcome := fst (fst (add dataset true w)) in
  let w' := snd (add dataset true w) in
  own_records dataset (db w) (db w') /\
  (outcome <> None ->
   dataset_location_tbl (db w') = dataset_location_tbl (db w)).
Proof.
  cbv zeta. rewrite add_unfold. cbv beta iota. rewrite with_sources_same.
  assert (Hnone : forall σ, (exists edges : list SourceRow,
             dataset_source_tbl σ = dataset_source_tbl σ ++ edges /\
             edges `prefix_of` map (edge_of dataset) (sources dataset))).
  { intros σ. exists []. rewrite app_nil_r.
    split; [reflexivity | apply prefix_nil]. }
  destruct (reader_sources (metadata_doc dataset)) as [e|tmp] eqn:Eg.
  { unfold add_this. rewrite Eg. simpl. repeat split; auto. }
  destruct (reader_set_sources (metadata_doc dataset) (DDict []))
    as [e|stripped] eqn:Es.
  { unfold add_this. rewrite Eg, Es. simpl. repeat split; auto. }
  rewrite (add_this_eq _ _ _ _ Eg Es), index_and_check_eq.
  set (ds := with_metadata_doc dataset stripped) in *.
  assert (Hrow : inserted_row ds = own_row dataset).
  { unfold inserted_row, own_row. subst ds.
    rewrite (stripped_doc_eq _ _ Es). now destruct dataset. }
  assert (Hid : ds_id ds = ds_id dataset) by (subst ds; now destruct dataset).
  assert (Hedges : map (edge_of ds) (sources ds) =
                   map (edge_of dataset) (sources dataset)).
  { subst ds. now destruct dataset. }
  pose proof (index_transaction_writes ds w) as Hw. cbv zeta in Hw.
  rewrite Hrow, Hid, Hedges in Hw.
  destruct (index_transaction_spec ds w) as (b & w1 & evs & Hi & _).
  rewrite Hi in *. simpl in Hw.
  destruct Hw as (Hm & Ht & Hd & He & Hl).
  assert (Hfin : forall w2, db w2 = db w1 ->
    let r := match register_location dataset w2 with
             | (inl e, w3) => (Some e, dataset, w3)
             | (inr _, w3) => (None, dataset, w3)
             end in
    own_records dataset (db w) (db (snd r)) /\
    (fst (fst r) <> None ->
     dataset_location_tbl (db (snd r)) = dataset_location_tbl (db w))).
  { intros w2 Hdb. cbv zeta.
    pose proof (register_location_writes dataset w2) as Hr. cbv zeta in Hr.
    destruct (register_location_spec dataset w2) as (w3 & Hreg & _).
    rewrite Hreg in *. simpl in *.
    rewrite Hdb in Hr. destruct Hr as (Hm' & Ht' & Hd' & Hs' & Hloc).
    rewrite Hl in Hloc.
    split; [| congruence].
    unfold own_records. rewrite Hm', Ht', Hd', Hs'.
    exact (conj Hm (conj Ht (conj Hd (conj He Hloc)))). }
  assert (Hstop : forall w2, db w2 = db w1 ->
    own_records dataset (db w) (db w2) /\
    dataset_location_tbl (db w2) = dataset_location_tbl (db w)).
  { intros w2 ->. split; [| exact Hl].
    exact (conj Hm (conj Ht (conj Hd (conj He (or_introl Hl))))). }
  destruct b.
  - now apply Hfin.
  - pose proof (get_same_store (ds_id ds) w1) as (Hdb & _).
    destruct (get (ds_id ds) false w1) as [[e|existing] w2]; simpl in Hdb.
    + simpl. split; [now apply Hstop | intros _; now apply Hstop].
    + destruct (bool_decide _).
      * now apply Hfin.
      * simpl. split; [now apply Hstop | intros _; now apply Hstop].
Qed.

Lemma add_sources_app before rest w :
  add_sources (before ++ rest) w =
  match add_sources before w with
  | (Some e, before', w1) => (Some e, before' ++ rest, w1)
  | (None, before', w1) =>
      let '(r, rest', w2) := add_sources rest w1 in (r, before' ++ rest', w2)
  end.
Proof.
  revert w. induction before as [| [c s] before IH]; intros w; simpl.
  - now destruct (add_sources rest w) as [[r rest'] w2].
  - destruct (add s false w) as [[[e|] s'] w1]; [reflexivity |].
    rewrite IH.
    destruct (add_sources before w1) as [[[e|] before'] w2]; [reflexivity |].
    now destruct (add_sources rest w2) as [[r rest'] w3].
Qed.

(** X4: the loop over the sources has no [try] and no transaction.
    When the [add] of a source raises, [add] of the dataset raises the
    same exception in the state that source left: the sources before it
    stay indexed with all their own sources, the later ones and the
    dataset itself are not attempted. *)
Theorem add_stops_at_first_failing_source
    (dataset : Dataset) (before rest : list (string * Dataset))
    (classifier : string) (source after : Dataset) (e : exn)
    (w w1 w2 : World) :
  sources dataset = before ++ (classifier, source) :: rest ->
  add_sources before w = (None, before, w1) ->
  add source false w1 = (Some e, after, w2) ->
  add dataset false w = (Some e, dataset, w2) /\
  Forall (fun cs => Forall (indexed (db w2)) (snd cs :: descendants (snd cs)))
         before.
Proof.
  intros Hsrc Hbefore Hfail.
  pose proof (add_same_object source false w1) as Hobj.
  rewrite Hfail in Hobj. simpl in Hobj. subst after.
  split.
  - rewrite add_unfold. cbv beta iota. rewrite Hsrc, add_sources_app, Hbefore.
    simpl. rewrite Hfail. rewrite <- Hsrc. now rewrite with_sources_same.
  - destruct (add_sources_outcome before) with (w := w)
      as (r & w1' & evs & Hs & _ & _ & _ & _ & _ & Hidx).
    { apply Forall_forall. intros cs _. apply add_outcome_all. }
    rewrite Hbefore in Hs. injection Hs as <- <-.
    eapply Forall_impl; [apply Hidx; reflexivity |].
    intros cs Hcs. eapply Forall_impl; [exact Hcs |]. intros x.
    apply indexed_kept, db_steps_kept.
    destruct (add_outcome_all source false w1) as (r & w' & ev & Ha & Hst & _).
    rewrite Hfail in Ha. now injection Ha as <- <-.
Qed.

(** ** The row before its edges, the other rows under [replace], the
    batch of [get] *)

(** *** replace *)

Lemma archive_other σ id_ id' :
  id_ <> id' ->
  find_dataset (archive_storage_unit σ id') id_ = find_dataset σ id_.
Proof.
  intros Hne. unfold find_dataset, archive_storage_unit. simpl.
  induction (dataset_tbl σ) as [| r tbl IH]; simpl; [reflexivity |].
  destruct (bool_decide (dsr_id r = id')) eqn:E'; simpl.
  - apply bool_decide_eq_true in E'.
    rewrite (bool_decide_eq_false_2 (dsr_id r = id_)) by congruence.
    exact IH.
  - destruct (bool_decide (dsr_id r = id_)); [reflexivity | exact IH].
Qed.

Lemma archive_all_other old_datasets σ id_ :
  ~ In id_ (map ds_id old_datasets) ->
  find_dataset (archive_all old_datasets σ) id_ = find_dataset σ id_.
Proof.
  revert σ. induction old_datasets as [| u units IH]; intros σ Hn;
    [reflexivity |].
  simpl in *. unfold archive_all in *. simpl. rewrite IH by tauto.
  apply archive_other. intros ->. tauto.
Qed.

(** X6: [replace] leaves the row of every dataset that is not among
    the old ones as it was, its archival marker included, whether it
    returns or raises. *)
Theorem replace_leaves_other_datasets
    (old_datasets new_datasets : list Dataset) (w : World)
    (id_ : string) (row : DatasetRow) :
  find_dataset (db w) id_ = Some row ->
  ~ In id_ (map ds_id old_datasets) ->
  find_dataset (db (snd (replace old_datasets new_datasets w))) id_ = Some row.
Proof.
  intros Hrow Hother. unfold replace, with_begin_in_place.
  rewrite archive_each. fold (archive_all old_datasets (db w)).
  match goal with |- context [add_each new_datasets ?wa] =>
    destruct (add_each_outcome new_datasets wa) as (r & w' & -> & Hs & _)
  end.
  simpl in Hs. destruct r as [e|]; simpl; [exact Hrow |].
  eapply db_steps_find; [exact Hs |].
  now rewrite archive_all_other.
Qed.

(** *** get with sources *)

Lemma made_keys batch :
  forall acc w datasets w1,
    for_each batch
      (fun datasets result =>
         made ← _make (Some result);
         mret (dict_set (res_id result)
                        (mkLinkedDataset made result None []) datasets))
      acc w = (inr datasets, w1) ->
    forall k, is_Some (dict_get k datasets) <->
              is_Some (dict_get k acc) \/ In k (map res_id batch).
Proof.
  induction batch as [| result batch IH]; intros acc w datasets w1.
  - simpl. intros [= <- <-] k. simpl. tauto.
  - rewrite for_each_cons, bind_eq.
    destruct (_make (Some result) w) as [[e|made] w0]; [discriminate |].
    unfold mret, M_ret, ret. cbv beta iota. intros Hrest k.
    rewrite (IH _ _ _ _ Hrest k). rewrite dict_get_set. simpl.
    destruct (String.eqb k (res_id result)) eqn:E.
    + apply String.eqb_eq in E. subst k. split; eauto.
    + apply String.eqb_neq in E. split.
      * intros [? | ?]; auto.
      * intros [? | [? | ?]]; auto. congruence.
Qed.

(** X7: when [get(id, include_sources=True)] returns, the table it
    built holds exactly the ids of the rows that the database returned
    for [id], and [id] is one of them: for an id that is not in its own
    batch the call raises. *)
Theorem get_with_sources_holds_its_batch
    (id_ : string) (w w' : World) (graph : ProvenanceGraph) :
  get id_ true w = (inr graph, w') ->
  pg_root graph = id_ /\
  In id_ (map res_id (get_dataset_sources (db w) id_)) /\
  forall key, is_Some (dict_get key (pg_datasets graph)) <->
              In key (map res_id (get_dataset_sources (db w) id_)).
Proof.
  unfold get. rewrite bind_eq. unfold db_read at 1. cbv beta iota.
  rewrite bind_eq.
  match goal with |- context [for_each ?batch ?body [] w] =>
    destruct (for_each batch body [] w) as [[e|datasets] w1] eqn:Em;
      [discriminate |]
  end.
  rewrite bind_eq.
  destruct (for_each datasets link datasets w1) as [[e|final] w2] eqn:El;
    [discriminate |].
  destruct (dict_get id_ final) as [root|] eqn:Er; [| discriminate].
  intros [= <- <-]. simpl.
  destruct (link_all_spec _ _ _ _ _ (in_entries_key datasets) El)
    as [Hsame _].
  assert (Hkeys : forall k, is_Some (dict_get k final) <->
                            In k (map res_id (get_dataset_sources (db w) id_))).
  { intros k. rewrite <- (Hsame k). rewrite (made_keys _ _ _ _ _ Em k).
    simpl. split; [intros [[? [=]] | ?]; auto | auto]. }
  split; [reflexivity |]. split; [| exact Hkeys].
  apply Hkeys. eauto.
Qed.

(** *** the row before its edges *)

Lemma index_transaction_row_first dataset w :
  exists events,
    trace (snd (index_transaction dataset w)) = trace w ++ events /\
    Forall dependent_indexed events.
Proof.
  destruct (index_transaction_spec dataset w)
    as (b & w' & evs & -> & Hc & Ht & _ & _ & _ & Htr & Hev).
  simpl. exists (EvInsertDataset dataset (db w) :: evs).
  split; [exact Htr |]. constructor; [exact I |].
  eapply Forall_impl; [exact Hev |].
  intros ev (c & s & σ & -> & _ & Hσ). simpl.
  unfold contains_dataset, find_dataset. rewrite Hσ, Ht.
  apply bool_decide_eq_true_2.
  destruct b.
  - rewrite find_app.
    destruct (List.find _ (dataset_tbl (db w))); [eauto |].
    simpl. rewrite bool_decide_eq_true_2 by reflexivity. eauto.
  - simpl in Hc. now apply contains_dataset_find in Hc.
Qed.

Lemma add_this_row_first dataset w :
  exists events,
    trace (snd (add_this dataset w)) = trace w ++ events /\
    Forall dependent_indexed events.
Proof.
  assert (Hnil : exists events, trace w = trace w ++ events /\
                                Forall dependent_indexed events).
  { exists []. now rewrite app_nil_r. }
  destruct (reader_sources (metadata_doc dataset)) as [e|tmp] eqn:Eg.
  { unfold add_this. rewrite Eg. exact Hnil. }
  destruct (reader_set_sources (metadata_doc dataset) (DDict []))
    as [e|stripped] eqn:Es.
  { unfold add_this. rewrite Eg, Es. exact Hnil. }
  rewrite (add_this_eq _ _ _ _ Eg Es), index_and_check_eq.
  set (ds := with_metadata_doc dataset stripped).
  destruct (index_transaction_row_first ds w) as (evs & Htr & Hev).
  destruct (index_transaction_spec ds w) as (b & w1 & evs' & Hi & _).
  rewrite Hi in *. simpl in Htr.
  assert (Hloc : forall w2, trace w2 = trace w1 ->
    exists events,
      trace (snd (match register_location dataset w2 with
                  | (inl e, w3) => (Some e, dataset, w3)
                  | (inr _, w3) => (None, dataset, w3)
                  end)) = trace w ++ events /\
      Forall dependent_indexed events).
  { intros w2 Hw2.
    destruct (register_location_spec dataset w2)
      as (w3 & -> & _ & _ & _ & _ & Htr3).
    simpl. exists evs. split; [congruence | exact Hev]. }
  destruct b.
  - now apply Hloc.
  - pose proof (get_same_store (ds_id ds) w1) as (_ & _ & Htr2 & _).
    destruct (get (ds_id ds) false w1) as [[e|existing] w2]; simpl in Htr2.
    + simpl. exists evs. split; [congruence | exact Hev].
    + destruct (bool_decide _).
      * now apply Hloc.
      * simpl. exists evs. split; [congruence | exact Hev].
Qed.

Lemma add_sources_row_first items :
  Forall (fun cs => row_first (snd cs)) items ->
  forall w,
  exists events,
    trace (snd (add_sources items w)) = trace w ++ events /\
    Forall dependent_indexed events.
Proof.
  induction 1 as [| [c s] items Hs _ IH]; intros w.
  - exists []. simpl. now rewrite app_nil_r.
  - simpl in Hs. simpl.
    destruct (Hs false w) as (ev1 & Htr1 & Hev1).
    destruct (add s false w) as [[[e|] s'] w1]; simpl in Htr1.
    + simpl. eauto.
    + destruct (IH w1) as (ev2 & Htr2 & Hev2).
      destruct (add_sources items w1) as [[r rest'] w2]. simpl in *.
      exists (ev1 ++ ev2). split; [| now apply Forall_app].
      rewrite Htr2, Htr1. now rewrite app_assoc.
Qed.

Lemma row_first_all dataset : row_first dataset.
Proof.
  induction dataset as [id_ type_ md uri srcs IH] using Dataset_ind.
  intros skip w. rewrite add_unfold. simpl sources.
  set (d := mkDataset id_ type_ md uri srcs).
  destruct skip.
  - cbv beta iota. change (with_sources d srcs) with d.
    apply add_this_row_first.
  - destruct (add_sources_row_first srcs IH w) as (ev1 & Htr1 & Hev1).
    pose proof (add_same_object d false w) as Hobj.
    destruct (add_sources srcs w) as [[r srcs'] w1] eqn:Es. simpl in Htr1.
    destruct r as [e|].
    + simpl. eauto.
    + destruct (add_this_row_first (with_sources d srcs') w1)
        as (ev2 & Htr2 & Hev2).
      exists (ev1 ++ ev2). split; [| now apply Forall_app].
      cbv beta iota. rewrite Htr2, Htr1. now rewrite app_assoc.
Qed.

(** X5: every source edge that [add] asks the database for, at any
    depth of the recursion, is asked for when the dataset the edge
    starts from has its row. *)
Theorem add_writes_each_row_before_its_edges
    (dataset : Dataset) (skip_sources : bool) (w : World) :
  exists events,
    trace (snd (add dataset skip_sources w)) = trace w ++ events /\
    Forall dependent_indexed events.
Proof. apply row_first_all. Qed.

(** ** Queries with a product *)

(** The types and the dict after [_get_dataset_types] and the removal of
    the product key, for a query with a product key. *)
Lemma product_types q (h : list Query) d product w :
  h !! q = Some d ->
  dict_get "product" d = Some product ->
  _get_dataset_types q (set_heap h w) =
  (match fst (DatasetTypeResource.get_by_name (qv_doc product) w) with
   | inl e => inl e
   | inr type_ => inr (TypesSet [type_])
   end,
   set_heap h (snd (DatasetTypeResource.get_by_name (qv_doc product) w))).
Proof.
  intros Hq Hp. unfold _get_dataset_types. rewrite bind_eq.
  unfold dict_object. cbv beta iota.
  change (heap (set_heap h w)) with h. rewrite (dict_at_lookup _ _ _ Hq).
  unfold dict_mem. rewrite Hp. rewrite bind_eq.
  rewrite (oblivious_dataset_type_get_by_name (qv_doc product)).
  now destruct (DatasetTypeResource.get_by_name (qv_doc product) w)
    as [[e|t] w1].
Qed.

Lemma do_count_product query (h : list Query) d product type_ w :
  h !! query = Some d ->
  dict_get "product" d = Some product ->
  fst (DatasetTypeResource.get_by_name (qv_doc product) w) = inr type_ ->
  fst (_do_count query (set_heap h w)) =
  match type_ with
  | None => inl no_type
  | Some t =>
      match to_expressions
              (fun name => dict_get name (dataset_fields (metadata_type t)))
              (dict_set "dataset_type_id" (id_value (dt_id t))
                        (dict_del "product" d)) with
      | inl e => inl e
      | inr exprs => inr (count_datasets (db w) exprs)
      end
  end.
Proof.
  intros Hq Hp Hg. unfold _do_count.
  rewrite bind_eq. unfold dict_copy at 1. cbv beta iota.
  change (heap (set_heap h w)) with h. rewrite (dict_at_lookup _ _ _ Hq).
  rewrite set_heap_set_heap.
  set (q := length h). set (h1 := h ++ [d]).
  assert (H1 : h1 !! q = Some d) by apply lookup_appended.
  rewrite bind_eq, (product_types _ _ _ _ _ H1 Hp), Hg.
  pose proof (dataset_type_get_by_name_same_store (qv_doc product) w)
    as (Hdb & _).
  set (w1 := snd (DatasetTypeResource.get_by_name (qv_doc product) w)) in *.
  rewrite bind_eq. unfold dict_object at 1. cbv beta iota.
  change (heap (set_heap h1 w1)) with h1. rewrite (dict_at_lookup _ _ _ H1).
  unfold dict_mem. rewrite Hp. rewrite bind_eq.
  unfold dict_store at 1. cbv beta iota.
  change (heap (set_heap h1 w1)) with h1. rewrite set_heap_set_heap.
  cbn [for_dataset_types]. rewrite for_each_cons. rewrite bind_eq.
  erewrite pin_and_compile_eq
    by (apply list_lookup_insert_eq; now apply lookup_lt_Some in H1).
  destruct type_ as [t|]; [| reflexivity].
  cbv zeta. destruct (to_expressions _ _) as [e|exprs]; [reflexivity |].
  cbv beta iota. unfold_m. simpl. now rewrite Hdb.
Qed.

Lemma do_search_no_type {R} query return_fields with_source_ids
    (on_yield : DatasetResult -> M R) (h : list Query) d product w :
  h !! query = Some d ->
  dict_get "product" d = Some product ->
  fst (DatasetTypeResource.get_by_name (qv_doc product) w) = inr None ->
  fst (_do_search query return_fields with_source_ids on_yield (set_heap h w))
    = inl no_type.
Proof.
  intros Hq Hp Hg. unfold _do_search.
  rewrite bind_eq. unfold dict_copy at 1. cbv beta iota.
  change (heap (set_heap h w)) with h. rewrite (dict_at_lookup _ _ _ Hq).
  rewrite set_heap_set_heap.
  set (q := length h). set (h1 := h ++ [d]).
  assert (H1 : h1 !! q = Some d) by apply lookup_appended.
  rewrite bind_eq, (product_types _ _ _ _ _ H1 Hp), Hg.
  set (w1 := snd (DatasetTypeResource.get_by_name (qv_doc product) w)) in *.
  rewrite bind_eq. unfold dict_object at 1. cbv beta iota.
  change (heap (set_heap h1 w1)) with h1. rewrite (dict_at_lookup _ _ _ H1).
  unfold dict_mem. rewrite Hp. rewrite bind_eq.
  unfold dict_store at 1. cbv beta iota.
  change (heap (set_heap h1 w1)) with h1. rewrite set_heap_set_heap.
  cbn [for_dataset_types]. rewrite for_each_cons. rewrite bind_eq.
  erewrite pin_and_compile_eq
    by (apply list_lookup_insert_eq; now apply lookup_lt_Some in H1).
  reflexivity.
Qed.

Lemma kwargs_lookup mapping w :
  (heap w ++ [dict_at (heap w) mapping]) !! length (heap w)
  = Some (dict_at (heap w) mapping).
Proof. apply lookup_appended. Qed.

(** X8: a query whose [product] names no dataset type that
    [get_by_name] knows makes [count] and [search_eager] raise
    AttributeError ([None] has no [id]), and so do [search] and
    [search_summaries] once their generator is asked for an item. *)
Theorem search_of_unregistered_product_raises
    (mapping : nat) (product : QueryValue) (w : World) :
  dict_get "product" (dict_at (heap w) mapping) = Some product ->
  fst (DatasetTypeResource.get_by_name (qv_doc product) w) = inr None ->
  fst (count mapping w) = inl no_type /\
  fst (search mapping w) = inl no_type /\
  fst (search_summaries mapping w) = inl no_type /\
  fst (search_eager mapping w) = inl no_type.
Proof.
  intros Hp Hg.
  pose proof (kwargs_lookup mapping w) as Hk.
  split; [| split; [| split]].
  - unfold count. rewrite bind_eq. unfold dict_copy. cbv beta iota.
    now rewrite (do_count_product _ _ _ _ _ _ Hk Hp Hg).
  - unfold search. rewrite bind_eq. unfold dict_copy. cbv beta iota.
    now rewrite (do_search_no_type _ _ _ _ _ _ _ _ Hk Hp Hg).
  - unfold search_summaries. rewrite bind_eq. unfold dict_copy. cbv beta iota.
    now rewrite (do_search_no_type _ _ _ _ _ _ _ _ Hk Hp Hg).
  - unfold search_eager, search. rewrite bind_eq. unfold dict_copy at 1.
    cbv beta iota. rewrite bind_eq. unfold dict_copy. cbv beta iota.
    change (heap (set_heap ?h w)) with h. rewrite set_heap_set_heap.
    rewrite (dict_at_lookup _ _ _ Hk).
    now rewrite (do_search_no_type _ _ _ _ _ _ _ _ (lookup_appended _ _) Hp Hg).
Qed.

(** X9: for a query with a [product] that [get_by_name] knows,
    [count] is the database's count for the expressions compiled, with
    the fields of that type, from the query without its [product] key
    and with [dataset_type_id] set to the id of the type; an exception
    of the compilation is the exception of [count]. *)
Theorem count_of_product_pins_its_type
    (mapping : nat) (product : QueryValue) (type_ : DatasetType) (w : World) :
  dict_get "product" (dict_at (heap w) mapping) = Some product ->
  fst (DatasetTypeResource.get_by_name (qv_doc product) w) = inr (Some type_) ->
  fst (count mapping w) =
  match to_expressions
          (fun name => dict_get name (dataset_fields (metadata_type type_)))
          (dict_set "dataset_type_id" (id_value (dt_id type_))
                    (dict_del "product" (dict_at (heap w) mapping))) with
  | inl e => inl e
  | inr exprs => inr (count_datasets (db w) exprs)
  end.
Proof.
  intros Hp Hg. unfold count. rewrite bind_eq. unfold dict_copy.
  cbv beta iota.
  now rewrite (do_count_product _ _ _ _ _ _ (kwargs_lookup mapping w) Hp Hg).
Qed.

(** ** The generators of types and of field names *)

(** A loop over [get_all()] whose body only collects from the type is the
    collection over the list of the types. *)
Lemma for_get_all_collect {A} (step : A -> DatasetType -> A) (acc0 : A) w :
  DatasetTypeResource.for_get_all (fun acc t => mret (step acc t)) acc0 w =
  match DatasetTypeResource.get_all w with
  | (inr types, w') => (inr (fold_left step types acc0), w')
  | (inl e, w') => (inl e, w')
  end.
Proof.
  unfold DatasetTypeResource.get_all, DatasetTypeResource.for_get_all.
  rewrite !bind_eq. unfold db_read. cbv beta iota.
  generalize (get_all_dataset_types (db w)) as records.
  intros records.
  assert (Hgen : forall seen w,
    for_each records
      (fun acc record =>
         type_ ← DatasetTypeResource._make (Some record);
         mret (step acc type_)) (fold_left step seen acc0) w =
    match for_each records
            (fun acc record =>
               type_ ← DatasetTypeResource._make (Some record);
               mret (acc ++ [type_])) seen w with
    | (inr types, w') => (inr (fold_left step types acc0), w')
    | (inl e, w') => (inl e, w')
    end).
  { induction records as [| record records IH]; intros seen w0.
    - reflexivity.
    - rewrite !for_each_cons, !bind_eq.
      destruct (DatasetTypeResource._make (Some record) w0) as [[e|t] w1];
        [reflexivity |].
      unfold mret, M_ret, ret. cbv beta iota.
      rewrite <- IH. now rewrite fold_left_app. }
  apply (Hgen [] w).
Qed.

Lemma fold_filter {A} (f : A -> bool) (l seen : list A) :
  fold_left (fun acc x => if f x then acc ++ [x] else acc) l seen =
  seen ++ List.filter f l.
Proof.
  revert seen. induction l as [| x l IH]; intros seen; simpl.
  - now rewrite app_nil_r.
  - rewrite IH. destruct (f x); [| reflexivity].
    now rewrite <- app_assoc.
Qed.

(** X10: [get_with_fields(field_names)] yields the types that
    [get_all()] yields and whose metadata type has every one of the
    names among its fields, in the same order and with the same reads;
    it raises where [get_all()] does. *)
Theorem get_with_fields_filters_get_all (field_names : list string) (w : World) :
  DatasetTypeResource.get_with_fields field_names w =
  match DatasetTypeResource.get_all w with
  | (inr types, w') =>
      (inr (List.filter
              (fun type_ =>
                 forallb (fun name =>
                            dict_mem name
                              (dataset_fields (metadata_type type_)))
                         field_names) types), w')
  | (inl e, w') => (inl e, w')
  end.
Proof.
  unfold DatasetTypeResource.get_with_fields,
    DatasetTypeResource.for_get_with_fields.
  transitivity
    (DatasetTypeResource.for_get_all
       (fun acc t =>
          mret (if DatasetTypeResource.has_all_fields t field_names
                then acc ++ [t] else acc)) [] w).
  - unfold DatasetTypeResource.for_get_all. rewrite !bind_eq.
    destruct (db_read get_all_dataset_types w) as [[e|records] w1];
      [reflexivity |].
    assert (Hgen : forall acc w1,
      for_each records
        (fun acc record =>
           type_ ← DatasetTypeResource._make (Some record);
           if DatasetTypeResource.has_all_fields type_ field_names
           then mret (acc ++ [type_]) else mret acc) acc w1 =
      for_each records
        (fun acc record =>
           type_ ← DatasetTypeResource._make (Some record);
           mret (if DatasetTypeResource.has_all_fields type_ field_names
                 then acc ++ [type_] else acc)) acc w1).
    { induction records as [| record records IH]; intros acc w2;
        [reflexivity |].
      rewrite !for_each_cons, !bind_eq.
      destruct (DatasetTypeResource._make (Some record) w2) as [[e|t] w3];
        [reflexivity |].
      destruct (DatasetTypeResource.has_all_fields t field_names); apply IH. }
    apply Hgen.
  - rewrite (for_get_all_collect
               (fun acc t =>
                  if DatasetTypeResource.has_all_fields t field_names
                  then acc ++ [t] else acc)).
    destruct (DatasetTypeResource.get_all w) as [[e|types] w']; [reflexivity |].
    now rewrite fold_filter.
Qed.

Lemma fold_keys (types : list DatasetType) (seen : list string) :
  fold_left (fun acc t => acc ++ dict_keys (dataset_fields (metadata_type t)))
            types seen =
  seen ++ concat (map (fun t => dict_keys (dataset_fields (metadata_type t)))
                      types).
Proof.
  revert seen. induction types as [| t types IH]; intros seen; simpl.
  - now rewrite app_nil_r.
  - rewrite IH. now rewrite <- app_assoc.
Qed.

(** X11: [get_field_names(type_name)] yields the field names of the
    type that [get_by_name] returns and raises AttributeError when that
    is None; [get_field_names()] yields the field names of every type of
    [get_all()] in turn, a name once per type that has it. *)
Theorem get_field_names_lists_the_fields_of_each_type
    (name : doc) (type_ : option DatasetType) (w : World) :
  fst (DatasetTypeResource.get_by_name name w) = inr type_ ->
  fst (get_field_names (Some name) w) =
    match type_ with
    | None =>
        inl (AttributeError
               "'NoneType' object has no attribute 'metadata_type'")
    | Some t => inr (dict_keys (dataset_fields (metadata_type t)))
    end /\
  get_field_names None w =
    match DatasetTypeResource.get_all w with
    | (inr types, w') =>
        (inr (concat (map (fun t => dict_keys (dataset_fields (metadata_type t)))
                          types)), w')
    | (inl e, w') => (inl e, w')
    end.
Proof.
  intros Hg. split.
  - unfold get_field_names. rewrite bind_eq.
    destruct (DatasetTypeResource.get_by_name name w) as [[e|t] w1];
      simpl in Hg; [discriminate |].
    injection Hg as ->. rewrite for_each_cons.
    now destruct type_.
  - unfold get_field_names, field_names_of.
    rewrite (for_get_all_collect
               (fun acc t => acc ++ dict_keys (dataset_fields (metadata_type t)))).
    destruct (DatasetTypeResource.get_all w) as [[e|types] w']; [reflexivity |].
    now rewrite fold_keys.
Qed.

(** ** Registering types *)

Lemma registered_refl σ : registered σ σ.
Proof. repeat split; reflexivity. Qed.

Lemma registered_trans σ1 σ2 σ3 :
  registered σ1 σ2 -> registered σ2 σ3 -> registered σ1 σ3.
Proof.
  intros (Hm & Ht & Hd & Hs & Hl) (Hm' & Ht' & Hd' & Hs' & Hl').
  repeat split; try congruence; etrans; eauto.
Qed.

Lemma find_none_not_in {A B} (f : A -> B) `{EqDecision B} (l : list A) b :
  List.find (fun r => bool_decide (f r = b)) l = None -> b ∉ map f l.
Proof.
  induction l as [| x l IH]; simpl; [intros _; apply not_elem_of_nil |].
  destruct (bool_decide (f x = b)) eqn:E; [discriminate |].
  apply bool_decide_eq_false in E. intros Hn.
  apply not_elem_of_cons. split; [congruence | auto].
Qed.

Lemma NoDup_appended {A} (l : list A) x : NoDup l -> x ∉ l -> NoDup (l ++ [x]).
Proof.
  intros Hl Hx. apply NoDup_app. split; [exact Hl |].
  split; [| apply NoDup_singleton].
  intros y Hy Hy'. apply list_elem_of_singleton in Hy'. now subst.
Qed.

Lemma type_step_spec σ σ' :
  type_step σ σ' ->
  registered σ σ' /\ (unique_names σ -> unique_names σ').
Proof.
  destruct 1 as [σ name definition c Hn | σ name md ref definition Hn].
  - split.
    + repeat split; simpl; try reflexivity. now apply prefix_app_r.
    + intros [Hm Ht]. split; [| exact Ht]. simpl.
      rewrite map_app. simpl. apply NoDup_appended; [exact Hm |].
      now apply (find_none_not_in mtr_name).
  - split.
    + repeat split; simpl; try reflexivity. now apply prefix_app_r.
    + intros [Hm Ht]. split; [exact Hm |]. simpl.
      rewrite map_app. simpl. apply NoDup_appended; [exact Ht |].
      now apply (find_none_not_in dtr_name).
Qed.

Lemma type_steps_spec σ σ' :
  rtc type_step σ σ' ->
  registered σ σ' /\ (unique_names σ -> unique_names σ').
Proof.
  induction 1 as [| σ1 σ2 σ3 Hs _ [IHr IHu]].
  - split; [apply registered_refl | auto].
  - destruct (type_step_spec _ _ Hs) as [Hr Hu].
    split; [eapply registered_trans; eauto | auto].
Qed.

(** *** Each method registers at most *)

Lemma registers_same_store {A} (m : M A) :
  (forall w, same_store w (snd (m w))) -> registers m.
Proof. intros Hm w. destruct (Hm w) as (-> & _). apply rtc_refl. Qed.

Lemma registers_bind {A B} (m : M A) (k : A -> M B) :
  registers m -> (forall a, registers (k a)) -> registers (m ≫= k).
Proof.
  intros Hm Hk w. rewrite bind_eq. specialize (Hm w).
  destruct (m w) as [[e|a] w1]; simpl in *; [exact Hm |].
  eapply rtc_trans; [exact Hm | apply Hk].
Qed.

Lemma registers_ret {A} (a : A) : registers (mret a).
Proof. intros w. apply rtc_refl. Qed.

Lemma registers_raise {A} e : registers (@raise A e).
Proof. intros w. apply rtc_refl. Qed.

Lemma registers_lift {A} (r : exn + A) : registers (lift r).
Proof. intros w. apply rtc_refl. Qed.

Lemma registers_db_read {A} (f : PostgresDb -> A) : registers (db_read f).
Proof. intros w. apply rtc_refl. Qed.

Lemma registers_for_each {X A} (items : list X) (body : A -> X -> M A) acc :
  (forall acc x, registers (body acc x)) ->
  registers (for_each items body acc).
Proof.
  intros Hb. revert acc. induction items as [| x items IH]; intros acc.
  - apply registers_ret.
  - simpl. apply registers_bind; auto.
Qed.

Lemma metadata_type_get_by_name_same_store name w :
  same_store w (snd (MetadataTypeResource.get_by_name name w)).
Proof.
  apply cached_same_store; [intros; now repeat split |].
  intros w0. unfold_m. simpl.
  destruct (get_metadata_type_by_name (db w0) name) as [row|]; simpl;
    [| apply same_store_refl].
  destruct (doc_getitem (mtr_definition row) "dataset"); simpl;
    apply same_store_refl.
Qed.

Lemma registers_check original new label name :
  registers (check_doc_unchanged original new label name).
Proof.
  unfold check_doc_unchanged.
  destruct (bool_decide (original = new));
    [apply registers_ret | apply registers_raise].
Qed.

(** [add] of each resource, one case at a time. *)
Lemma metadata_type_add_eq definition allow_table_lock w :
  MetadataTypeResource.add definition allow_table_lock w =
  if metadata_type_valid definition then
    match doc_getitem definition "name" with
    | inl e => (inl e, w)
    | inr name =>
        match get_metadata_type_by_name (db w) name with
        | Some existing =>
            if bool_decide (mtr_definition existing = definition)
            then MetadataTypeResource.get_by_name name w
            else (inl (ConflictError "Metadata Type " name), w)
        | None =>
            MetadataTypeResource.get_by_name name
              (set_db (add_metadata_type (db w) name definition
                                         (negb allow_table_lock)) w)
        end
    end
  else (inl (InvalidDocException "metadata type"), w).
Proof.
  unfold MetadataTypeResource.add.
  destruct (metadata_type_valid definition); [| reflexivity].
  destruct (doc_getitem definition "name") as [e|name]; [reflexivity |].
  unfold_m. simpl.
  destruct (get_metadata_type_by_name (db w) name) as [existing|];
    [| reflexivity].
  unfold check_doc_unchanged. unfold_m.
  now destruct (bool_decide (mtr_definition existing = definition)).
Qed.

Lemma dataset_type_add_eq type_ w :
  DatasetTypeResource.add type_ w =
  if dataset_type_valid (definition type_) then
    match dt_name type_ with
    | inl e => (inl e, w)
    | inr name =>
        match get_dataset_type_by_name (db w) name with
        | Some existing =>
            if bool_decide (dtr_definition existing = definition type_)
            then DatasetTypeResource.get_by_name name w
            else (inl (ConflictError "Dataset type " name), w)
        | None =>
            match dt_metadata type_ with
            | inl e => (inl e, w)
            | inr metadata =>
                DatasetTypeResource.get_by_name name
                  (set_db (add_dataset_type (db w) name metadata
                             (mt_id (metadata_type type_))
                             (definition type_)) w)
            end
        end
    end
  else (inl (InvalidDocException "dataset type"), w).
Proof.
  unfold DatasetTypeResource.add.
  destruct (dataset_type_valid (definition type_)); [| reflexivity].
  destruct (dt_name type_) as [e|name]; [reflexivity |].
  unfold_m. simpl.
  destruct (get_dataset_type_by_name (db w) name) as [existing|].
  - unfold check_doc_unchanged. unfold_m.
    now destruct (bool_decide (dtr_definition existing = _)).
  - now destruct (dt_metadata type_).
Qed.

Lemma registers_metadata_type_add definition allow_table_lock :
  registers (MetadataTypeResource.add definition allow_table_lock).
Proof.
  intros w. rewrite metadata_type_add_eq.
  destruct (metadata_type_valid definition); [| apply rtc_refl].
  destruct (doc_getitem definition "name") as [e|name]; [apply rtc_refl |].
  destruct (get_metadata_type_by_name (db w) name) as [existing|] eqn:Ee.
  - destruct (bool_decide _); [| apply rtc_refl].
    destruct (metadata_type_get_by_name_same_store name w) as (-> & _).
    apply rtc_refl.
  - match goal with |- context [MetadataTypeResource.get_by_name name ?w1] =>
      destruct (metadata_type_get_by_name_same_store name w1) as (-> & _)
    end.
    simpl. apply rtc_once. now apply step_metadata_type.
Qed.

Lemma registers_from_doc definition :
  registers (DatasetTypeResource.from_doc definition).
Proof.
  unfold DatasetTypeResource.from_doc.
  apply registers_bind.
  { destruct (dataset_type_valid definition);
      [apply registers_ret | apply registers_raise]. }
  intros _. apply registers_bind; [apply registers_lift |]. intros mt.
  apply registers_bind.
  - destruct mt; try apply registers_metadata_type_add.
    apply registers_same_store, metadata_type_get_by_name_same_store.
  - intros [resolved|]; [apply registers_ret | apply registers_raise].
Qed.

Lemma registers_dataset_type_add type_ :
  registers (DatasetTypeResource.add type_).
Proof.
  intros w. rewrite dataset_type_add_eq.
  destruct (dataset_type_valid (definition type_)); [| apply rtc_refl].
  destruct (dt_name type_) as [e|name]; [apply rtc_refl |].
  destruct (get_dataset_type_by_name (db w) name) as [existing|] eqn:Ee.
  - destruct (bool_decide _); [| apply rtc_refl].
    destruct (dataset_type_get_by_name_same_store name w) as (-> & _).
    apply rtc_refl.
  - destruct (dt_metadata type_) as [e|metadata]; [apply rtc_refl |].
    match goal with |- context [DatasetTypeResource.get_by_name name ?w1] =>
      destruct (dataset_type_get_by_name_same_store name w1) as (-> & _)
    end.
    simpl. apply rtc_once. now apply step_dataset_type.
Qed.

Lemma registers_add_document definition :
  registers (DatasetTypeResource.add_document definition).
Proof.
  unfold DatasetTypeResource.add_document.
  apply registers_bind; [apply registers_from_doc |].
  apply registers_dataset_type_add.
Qed.

Lemma registers_add_many definitions :
  registers (DatasetTypeResource.add_many definitions).
Proof.
  unfold DatasetTypeResource.add_many. apply registers_for_each.
  intros [] definition.
  apply registers_bind; [apply registers_add_document |].
  intros _. apply registers_ret.
Qed.

(** X15: [add_many], [add_document], [from_doc] and the [add] of both
    resources only append to the two tables of types and touch no other
    table, so that no registered definition is ever changed; and when no
    two metadata types and no two dataset types share a name, that is so
    afterwards. *)
Theorem registration_only_appends
    (definitions : list doc) (definition_ : doc) (allow_table_lock : bool)
    (type_ : DatasetType) :
  keeps_registry (DatasetTypeResource.add_many definitions) /\
  keeps_registry (DatasetTypeResource.add_document definition_) /\
  keeps_registry (DatasetTypeResource.from_doc definition_) /\
  keeps_registry (DatasetTypeResource.add type_) /\
  keeps_registry (MetadataTypeResource.add definition_ allow_table_lock).
Proof.
  assert (Hk : forall A (m : M A), registers m -> keeps_registry m).
  { intros A m Hm w. apply type_steps_spec, Hm. }
  split; [apply Hk, registers_add_many |].
  split; [apply Hk, registers_add_document |].
  split; [apply Hk, registers_from_doc |].
  split; [apply Hk, registers_dataset_type_add |].
  apply Hk, registers_metadata_type_add.
Qed.

(** ** Registering again *)

Lemma filter_again {A} (f : A -> bool) l :
  List.filter f (List.filter f l) = List.filter f l.
Proof.
  induction l as [| x l IH]; simpl; [reflexivity |].
  destruct (f x) eqn:E; simpl; [rewrite E; now f_equal | exact IH].
Qed.

Lemma filter_keeps_all {A} (f : A -> bool) l :
  (forall x, In x l -> f x = true) -> List.filter f l = l.
Proof.
  induction l as [| x l IH]; simpl; [reflexivity |].
  intros Hall. rewrite (Hall x) by now left. f_equal. apply IH. auto.
Qed.

Lemma getitem_settles {K V} `{EqDecision K} time (k : K) (c : Cache K V) v c' :
  cache_getitem time k c = Some (v, c') -> settled time k v c'.
Proof.
  unfold settled, cache_getitem.
  destruct (List.find _ c) as [e|] eqn:Ef; [| discriminate].
  intros [= <- <-]. apply find_some in Ef as [_ He]. simpl. rewrite He.
  apply andb_true_iff in He as [Hk _]. simpl. rewrite Hk. simpl.
  now rewrite filter_again.
Qed.

Lemma setitem_settles {K V} `{EqDecision K} time (k : K) (v : V)
    (c : Cache K V) :
  settled time k v (cache_setitem time k v c).
Proof.
  unfold settled, cache_setitem.
  set (live := List.filter
                 (fun e => entry_live time e && negb (entry_for k e)) c).
  set (room := if (cache_maxsize <=? length live)%nat
               then removelast live else live).
  assert (Hroom : forall e, In e room -> negb (entry_for k e) = true).
  { intros e He.
    assert (Hin : In e live).
    { subst room. destruct (cache_maxsize <=? _)%nat;
        [now apply in_removelast | exact He]. }
    apply filter_In in Hin as [_ Hp].
    now apply andb_true_iff in Hp as [_ ?]. }
  clearbody room. clear live.
  unfold cache_getitem. cbn [List.find].
  unfold entry_for at 1, entry_live at 1. cbn [ce_key ce_expires].
  rewrite bool_decide_eq_true_2 by reflexivity.
  replace (time <? time + cache_ttl)%nat with true
    by (symmetry; apply Nat.ltb_lt; unfold cache_ttl; lia).
  cbn [andb ce_value List.filter].
  unfold entry_for at 1. cbn [ce_key].
  rewrite bool_decide_eq_true_2 by reflexivity. cbn [negb].
  now rewrite (filter_keeps_all _ _ Hroom).
Qed.

Lemma cached_settles {K V} `{EqDecision K}
    (cache : World -> Cache K V) (set_cache : Cache K V -> World -> World)
    (func : K -> M V) (k : K) (w : World) v w' :
  (forall c w, cache (set_cache c w) = c /\ now (set_cache c w) = now w) ->
  cached cache set_cache func k w = (inr v, w') ->
  settled (now w') k v (cache w').
Proof.
  intros Hlaw. unfold cached.
  destruct (cache_getitem (now w) k (cache w)) as [[v0 c]|] eqn:Eg.
  - intros [= <- <-]. destruct (Hlaw c w) as [-> ->].
    eapply getitem_settles, Eg.
  - destruct (func k w) as [[e|v0] w1]; [discriminate |].
    intros [= <- <-].
    match goal with |- context [set_cache ?c w1] =>
      destruct (Hlaw c w1) as [-> ->]
    end.
    apply setitem_settles.
Qed.

Lemma settled_hit {K V} `{EqDecision K}
    (cache : World -> Cache K V) (set_cache : Cache K V -> World -> World)
    (func : K -> M V) (k : K) (w : World) v :
  set_cache (cache w) w = w ->
  settled (now w) k v (cache w) ->
  cached cache set_cache func k w = (inr v, w).
Proof.
  intros Hw Hs. unfold cached. unfold settled in Hs. rewrite Hs.
  now rewrite Hw.
Qed.

Lemma metadata_type_by_name_settles name w v w' :
  MetadataTypeResource.get_by_name name w = (inr v, w') ->
  settled (now w') name v (cache_metadata_type_get_by_name w').
Proof. apply cached_settles. intros c w0. now split. Qed.

Lemma dataset_type_by_name_settles name w v w' :
  DatasetTypeResource.get_by_name name w = (inr v, w') ->
  settled (now w') name v (cache_dataset_type_get_by_name w').
Proof. apply cached_settles. intros c w0. now split. Qed.

Lemma metadata_type_by_name_hit name w v :
  settled (now w) name v (cache_metadata_type_get_by_name w) ->
  MetadataTypeResource.get_by_name name w = (inr v, w).
Proof. apply settled_hit. now destruct w. Qed.

Lemma dataset_type_by_name_hit name w v :
  settled (now w) name v (cache_dataset_type_get_by_name w) ->
  DatasetTypeResource.get_by_name name w = (inr v, w).
Proof. apply settled_hit. now destruct w. Qed.

Lemma aside_refl w : aside w w.
Proof. now repeat split. Qed.

Lemma aside_trans w1 w2 w3 : aside w1 w2 -> aside w2 w3 -> aside w1 w3.
Proof. unfold aside. intuition congruence. Qed.

Lemma cached_aside {K V} `{EqDecision K}
    (cache : World -> Cache K V) (set_cache : Cache K V -> World -> World)
    (func : K -> M V) (k : K) (w : World) :
  (forall c w, aside w (set_cache c w)) ->
  (forall w, aside w (snd (func k w))) ->
  aside w (snd (cached cache set_cache func k w)).
Proof.
  intros Hset Hfunc. unfold cached.
  destruct (cache_getitem (now w) k (cache w)) as [[v c]|]; simpl.
  - apply Hset.
  - specialize (Hfunc w). destruct (func k w) as [[e|v] w']; simpl in *.
    + exact Hfunc.
    + eapply aside_trans; [exact Hfunc | apply Hset].
Qed.

Lemma metadata_type_get_aside ref w :
  aside w (snd (MetadataTypeResource.get ref w)).
Proof.
  apply cached_aside; [intros; now repeat split |].
  intros w0. unfold_m. simpl.
  destruct (get_metadata_type (db w0) ref) as [row|]; simpl;
    [| apply aside_refl].
  destruct (doc_getitem (mtr_definition row) "dataset"); simpl;
    apply aside_refl.
Qed.

Lemma dataset_type_get_by_name_aside name w :
  aside w (snd (DatasetTypeResource.get_by_name name w)).
Proof.
  apply cached_aside; [intros; now repeat split |].
  intros w0. unfold mbind, M_bind, bind, db_read.
  destruct (get_dataset_type_by_name (db w0) name) as [row|];
    [| apply aside_refl].
  unfold DatasetTypeResource._make. unfold mbind, M_bind, bind.
  pose proof (metadata_type_get_aside (dtr_metadata_type_ref row) w0) as Ha.
  destruct (MetadataTypeResource.get _ w0) as [[e|v] w1]; simpl in *; auto.
Qed.

Lemma find_snoc {A} (f : A -> bool) l x :
  List.find f l = None -> f x = true -> List.find f (l ++ [x]) = Some x.
Proof. intros Hn Hx. rewrite find_app, Hn. simpl. now rewrite Hx. Qed.

(** After a [DatasetTypeResource.add] that returned, the row of the name
    holds the definition and the cache serves what was returned. *)
Lemma dataset_type_add_settles type_ w r w1 :
  DatasetTypeResource.add type_ w = (inr r, w1) ->
  aside w w1 /\
  dataset_type_valid (definition type_) = true /\
  exists name row,
    dt_name type_ = inr name /\
    get_dataset_type_by_name (db w1) name = Some row /\
    dtr_definition row = definition type_ /\
    settled (now w1) name r (cache_dataset_type_get_by_name w1).
Proof.
  rewrite dataset_type_add_eq.
  destruct (dataset_type_valid (definition type_)); [| discriminate].
  destruct (dt_name type_) as [e|name]; [discriminate |].
  destruct (get_dataset_type_by_name (db w) name) as [existing|] eqn:Ee.
  - destruct (bool_decide _) eqn:Eq; [| discriminate].
    apply bool_decide_eq_true in Eq. intros Hg.
    pose proof (dataset_type_get_by_name_aside name w) as Ha.
    pose proof (dataset_type_get_by_name_same_store name w) as (Hdb & _).
    rewrite Hg in Ha, Hdb. simpl in Ha, Hdb.
    split; [exact Ha |]. split; [reflexivity |].
    exists name, existing. rewrite Hdb.
    repeat split; auto. eapply dataset_type_by_name_settles, Hg.
  - destruct (dt_metadata type_) as [e|metadata]; [discriminate |].
    intros Hg.
    match type of Hg with DatasetTypeResource.get_by_name name ?w0 = _ =>
      pose proof (dataset_type_get_by_name_aside name w0) as Ha;
      pose proof (dataset_type_get_by_name_same_store name w0) as (Hdb & _)
    end.
    rewrite Hg in Ha, Hdb. simpl in Ha, Hdb.
    split; [exact Ha |]. split; [reflexivity |].
    eexists name, _. rewrite Hdb.
    split; [reflexivity |]. split.
    + unfold get_dataset_type_by_name. simpl. apply find_snoc; [exact Ee |].
      simpl. now apply bool_decide_eq_true_2.
    + split; [reflexivity |]. eapply dataset_type_by_name_settles, Hg.
Qed.

Lemma dataset_type_add_again type_ w r name row :
  dataset_type_valid (definition type_) = true ->
  dt_name type_ = inr name ->
  get_dataset_type_by_name (db w) name = Some row ->
  dtr_definition row = definition type_ ->
  settled (now w) name r (cache_dataset_type_get_by_name w) ->
  DatasetTypeResource.add type_ w = (inr r, w).
Proof.
  intros Hv Hn Hrow Hdef Hs. rewrite dataset_type_add_eq, Hv, Hn, Hrow.
  rewrite bool_decide_eq_true_2 by exact Hdef.
  now apply dataset_type_by_name_hit.
Qed.

(** The same for [MetadataTypeResource.add]. *)
Lemma metadata_type_add_settles definition allow_table_lock w r w1 :
  MetadataTypeResource.add definition allow_table_lock w = (inr r, w1) ->
  metadata_type_valid definition = true /\
  exists name row,
    doc_getitem definition "name" = inr name /\
    get_metadata_type_by_name (db w1) name = Some row /\
    mtr_definition row = definition /\
    settled (now w1) name r (cache_metadata_type_get_by_name w1).
Proof.
  rewrite metadata_type_add_eq.
  destruct (metadata_type_valid definition); [| discriminate].
  destruct (doc_getitem definition "name") as [e|name]; [discriminate |].
  destruct (get_metadata_type_by_name (db w) name) as [existing|] eqn:Ee.
  - destruct (bool_decide _) eqn:Eq; [| discriminate].
    apply bool_decide_eq_true in Eq. intros Hg.
    pose proof (metadata_type_get_by_name_same_store name w) as (Hdb & _).
    rewrite Hg in Hdb. simpl in Hdb.
    split; [reflexivity |].
    exists name, existing. rewrite Hdb.
    repeat split; auto. eapply metadata_type_by_name_settles, Hg.
  - intros Hg.
    match type of Hg with MetadataTypeResource.get_by_name name ?w0 = _ =>
      pose proof (metadata_type_get_by_name_same_store name w0) as (Hdb & _)
    end.
    rewrite Hg in Hdb. simpl in Hdb.
    split; [reflexivity |].
    eexists name, _. rewrite Hdb.
    split; [reflexivity |]. split.
    + unfold get_metadata_type_by_name. simpl. apply find_snoc; [exact Ee |].
      simpl. now apply bool_decide_eq_true_2.
    + split; [reflexivity |]. eapply metadata_type_by_name_settles, Hg.
Qed.

Lemma metadata_type_add_again definition allow_table_lock w r name row :
  metadata_type_valid definition = true ->
  doc_getitem definition "name" = inr name ->
  get_metadata_type_by_name (db w) name = Some row ->
  mtr_definition row = definition ->
  settled (now w) name r (cache_metadata_type_get_by_name w) ->
  MetadataTypeResource.add definition allow_table_lock w = (inr r, w).
Proof.
  intros Hv Hn Hrow Hdef Hs. rewrite metadata_type_add_eq, Hv, Hn, Hrow.
  rewrite bool_decide_eq_true_2 by exact Hdef.
  now apply metadata_type_by_name_hit.
Qed.

Lemma add_document_settled
    (definition_ : doc) (w w1 : World) (r : option DatasetType) :
  DatasetTypeResource.add_document definition_ w = (inr r, w1) ->
  DatasetTypeResource.add_document definition_ w1 = (inr r, w1).
Proof.
  unfold DatasetTypeResource.add_document. rewrite !bind_eq.
  destruct (DatasetTypeResource.from_doc definition_ w) as [[e|type_] wa] eqn:Ef;
    [discriminate |].
  intros Hadd.
  destruct (dataset_type_add_settles _ _ _ _ Hadd)
    as ((Hnow & Hcache & Htbl) & Hv & name & row & Hn & Hrow & Hdef & Hs).
  (* the first from_doc *)
  unfold DatasetTypeResource.from_doc in Ef |- *.
  rewrite !bind_eq in Ef. rewrite !bind_eq.
  destruct (dataset_type_valid definition_); [| discriminate].
  unfold mret, M_ret, ret in Ef |- *. cbv beta iota in Ef |- *.
  rewrite bind_eq in Ef. rewrite bind_eq.
  unfold lift in Ef |- *. cbv beta iota in Ef |- *.
  destruct (doc_getitem definition_ "metadata_type") as [e|mt];
    [discriminate |].
  rewrite bind_eq in Ef. rewrite bind_eq.
  assert (Hresolve : forall (first : M (option MetadataType)),
    (forall v w0 w0', first w0 = (inr v, w0') ->
        forall w2, aside w0' w2 -> first w2 = (inr v, w2)) ->
    match first w with
    | (inr a, w') =>
        match a with
        | Some metadata_type =>
            ret (mkDatasetType metadata_type definition_ None)
        | None => raise (InvalidDocException "Unknown metadata type")
        end w'
    | (inl e, w') => (inl e, w')
    end = (inr type_, wa) ->
    match
      match first w1 with
      | (inr a, w') =>
          match a with
          | Some metadata_type =>
              ret (mkDatasetType metadata_type definition_ None)
          | None => raise (InvalidDocException "Unknown metadata type")
          end w'
      | (inl e, w') => (inl e, w')
      end
    with
    | (inr a, w') => DatasetTypeResource.add a w'
    | (inl e, w') => (inl e, w')
    end = (inr r, w1)).
  { intros first Hagain Hfirst.
    destruct (first w) as [[e|[mt0|]] w0'] eqn:E1; try discriminate.
    injection Hfirst as <- <-.
    rewrite (Hagain _ _ _ E1 w1) by (repeat split; assumption).
    unfold ret.
    eapply dataset_type_add_again; eauto. }
  destruct mt;
    try (apply Hresolve; [| exact Ef];
         intros v w0 w0' Hfirst w2 (Hn2 & Hc2 & Ht2);
         destruct (metadata_type_add_settles _ _ _ _ _ Hfirst)
           as (Hmv & mname & mrow & Hmn & Hmrow & Hmdef & Hms);
         eapply metadata_type_add_again; eauto;
         [unfold get_metadata_type_by_name in *; now rewrite Ht2
         | now rewrite Hn2, Hc2]).
  apply Hresolve; [| exact Ef].
  intros v w0 w0' Hfirst w2 (Hn2 & Hc2 & Ht2).
  apply metadata_type_by_name_hit. rewrite Hn2, Hc2.
  eapply metadata_type_by_name_settles, Hfirst.
Qed.

Lemma from_doc_returns definition_ w type_ wa :
  DatasetTypeResource.from_doc definition_ w = (inr type_, wa) ->
  definition type_ = definition_ /\
  exists embedded,
    doc_getitem definition_ "metadata_type" = inr embedded /\
    (match embedded with
     | DStr _ => db wa = db w
     | _ => exists r, MetadataTypeResource.add embedded false w = (inr r, wa)
     end).
Proof.
  unfold DatasetTypeResource.from_doc. rewrite !bind_eq.
  destruct (dataset_type_valid definition_); [| discriminate].
  unfold mret, M_ret, ret. cbv beta iota. rewrite bind_eq.
  unfold lift. cbv beta iota.
  destruct (doc_getitem definition_ "metadata_type") as [e|mt];
    [discriminate |].
  rewrite bind_eq.
  assert (Hk : forall (m : M (option MetadataType)),
    match m w with
    | (inr a, w') =>
        match a with
        | Some metadata_type =>
            fun w0 => (inr (mkDatasetType metadata_type definition_ None), w0)
        | None => raise (InvalidDocException "Unknown metadata type")
        end w'
    | (inl e, w') => (inl e, w')
    end = (inr type_, wa) ->
    definition type_ = definition_ /\ exists r, m w = (inr r, wa)).
  { intros m. destruct (m w) as [[e|[mt0|]] w0]; try discriminate.
    intros [= <- <-]. eauto. }
  intros Hret.
  destruct mt as [| b | n | s | items | entries];
    apply Hk in Hret as [Hdef (r & Hm)];
    (split; [exact Hdef |]); eexists; (split; [reflexivity |]);
    cbv beta iota; eauto.
  pose proof (metadata_type_get_by_name_same_store (DStr s) w) as (Hdb & _).
  now rewrite Hm in Hdb.
Qed.

(** A registration that finds the name taken writes nothing. *)
Lemma metadata_type_add_taken definition_ allow_table_lock w name row :
  doc_getitem definition_ "name" = inr name ->
  get_metadata_type_by_name (db w) name = Some row ->
  db (snd (MetadataTypeResource.add definition_ allow_table_lock w)) = db w.
Proof.
  intros Hn Hrow. rewrite metadata_type_add_eq, Hn, Hrow.
  destruct (metadata_type_valid definition_); [| reflexivity].
  destruct (bool_decide _); [| reflexivity].
  now destruct (metadata_type_get_by_name_same_store name w) as (-> & _).
Qed.

Lemma dataset_type_add_taken type_ w name row :
  dt_name type_ = inr name ->
  get_dataset_type_by_name (db w) name = Some row ->
  db (snd (DatasetTypeResource.add type_ w)) = db w.
Proof.
  intros Hn Hrow. rewrite dataset_type_add_eq, Hn, Hrow.
  destruct (dataset_type_valid (definition type_)); [| reflexivity].
  destruct (bool_decide _); [| reflexivity].
  now destruct (dataset_type_get_by_name_same_store name w) as (-> & _).
Qed.

Lemma from_doc_definition definition_ w :
  match fst (DatasetTypeResource.from_doc definition_ w) with
  | inr type_ => definition type_ = definition_
  | inl _ => True
  end.
Proof.
  destruct (DatasetTypeResource.from_doc definition_ w) as [[e|t] wa] eqn:Ef;
    simpl; [exact I |].
  now apply from_doc_returns in Ef as [? _].
Qed.

Lemma add_document_later_writes_nothing
    (definition_ : doc) (w w1 : World) (r : option DatasetType) :
  DatasetTypeResource.add_document definition_ w = (inr r, w1) ->
  forall w2, db w2 = db w1 ->
    db (snd (DatasetTypeResource.add_document definition_ w2)) = db w2.
Proof.
  unfold DatasetTypeResource.add_document at 1. rewrite bind_eq.
  destruct (DatasetTypeResource.from_doc definition_ w) as [[e|type_] wa] eqn:Ef;
    [discriminate |].
  intros Hadd w2 Hdb.
  destruct (dataset_type_add_settles _ _ _ _ Hadd)
    as ((_ & _ & Htbl) & _ & name & row & Hn & Hrow & _ & _).
  destruct (from_doc_returns _ _ _ _ Ef) as (Hdef & embedded & Hmt & Hfirst).
  (* the second from_doc writes nothing *)
  assert (Hfrom : db (snd (DatasetTypeResource.from_doc definition_ w2))
                  = db w2).
  { unfold DatasetTypeResource.from_doc. rewrite !bind_eq.
    destruct (dataset_type_valid definition_); [| reflexivity].
    unfold mret, M_ret, ret. cbv beta iota. rewrite bind_eq.
    unfold lift. cbv beta iota. rewrite Hmt. rewrite bind_eq.
    assert (Hres : forall (m : M (option MetadataType)),
      db (snd (m w2)) = db w2 ->
      db (snd (match m w2 with
               | (inr a, w') =>
                   match a with
                   | Some metadata_type =>
                       fun w0 =>
                         (inr (mkDatasetType metadata_type definition_ None),
                          w0)
                   | None =>
                       raise (InvalidDocException "Unknown metadata type")
                   end w'
               | (inl e, w') => (inl e, w')
               end)) = db w2).
    { intros m Hm. destruct (m w2) as [[e|[mt0|]] w3]; exact Hm. }
    destruct embedded as [| b | n | s | items | entries]; apply Hres.
    4: { now destruct (metadata_type_get_by_name_same_store (DStr s) w2)
           as (-> & _). }
    all: destruct Hfirst as (r0 & Hfirst);
      destruct (metadata_type_add_settles _ _ _ _ _ Hfirst)
        as (_ & mname & mrow & Hmn & Hmrow & _);
      eapply metadata_type_add_taken; [exact Hmn |];
      unfold get_metadata_type_by_name in *;
      rewrite Hdb, Htbl; exact Hmrow. }
  unfold DatasetTypeResource.add_document. rewrite bind_eq.
  pose proof (from_doc_definition definition_ w2) as Hdef2.
  destruct (DatasetTypeResource.from_doc definition_ w2) as [[e|type_2] w3];
    simpl in Hfrom, Hdef2; [exact Hfrom |].
  rewrite <- Hfrom. eapply dataset_type_add_taken.
  - unfold dt_name. rewrite Hdef2, <- Hdef. exact Hn.
  - rewrite Hfrom, Hdb. exact Hrow.
Qed.

(** X14: after an [add_document] that returned, a later
    [add_document] of the same definition leaves the database as it is,
    however many seconds the clock of the caches has advanced; and
    called before the clock has advanced, it returns the same value.
    (Once a cache entry has expired the value can be another one.) *)
Theorem add_document_again_changes_nothing
    (definition_ : doc) (w w1 : World) (r : option DatasetType) :
  DatasetTypeResource.add_document definition_ w = (inr r, w1) ->
  (forall seconds,
      db (snd (DatasetTypeResource.add_document definition_
                 (tick seconds w1))) = db w1) /\
  fst (DatasetTypeResource.add_document definition_ w1) = inr r.
Proof.
  intros Hadd. split.
  - intros seconds.
    now rewrite (add_document_later_writes_nothing _ _ _ _ Hadd
                   (tick seconds w1) eq_refl).
  - now rewrite (add_document_settled _ _ _ _ Hadd).
Qed.

(** ** [from_doc], and the methods that only read *)

(** X12: [from_doc] of a definition that gives its metadata type by
    name writes nothing; for a valid definition it raises
    InvalidDocException when [get_by_name] returns None, and otherwise
    returns a type without an id that holds the metadata type found and
    the definition as given. *)
Theorem from_doc_by_name_only_reads
    (definition_ : doc) (name : string) (w : World) :
  doc_getitem definition_ "metadata_type" = inr (DStr name) ->
  db (snd (DatasetTypeResource.from_doc definition_ w)) = db w /\
  (dataset_type_valid definition_ = true ->
   fst (DatasetTypeResource.from_doc definition_ w) =
   match fst (MetadataTypeResource.get_by_name (DStr name) w) with
   | inl e => inl e
   | inr None => inl (InvalidDocException "Unknown metadata type")
   | inr (Some metadata_type) =>
       inr (mkDatasetType metadata_type definition_ None)
   end).
Proof.
  intros Hmt. unfold DatasetTypeResource.from_doc. rewrite !bind_eq.
  destruct (dataset_type_valid definition_); [| split; [reflexivity | discriminate]].
  unfold mret, M_ret, ret. cbv beta iota. rewrite bind_eq.
  rewrite Hmt. unfold lift. cbv beta iota. rewrite bind_eq.
  pose proof (metadata_type_get_by_name_same_store (DStr name) w) as (Hdb & _).
  destruct (MetadataTypeResource.get_by_name (DStr name) w)
    as [[e|[mt|]] w1]; simpl in *; auto.
Qed.

(** X13: [from_doc] of a valid definition that embeds a valid metadata
    type document under a name that is not registered registers that
    metadata type: the database after the call, whether [from_doc]
    returned or raised, is the one before with the new row. *)
Theorem from_doc_registers_embedded_metadata_type
    (definition_ embedded name : doc) (w : World) :
  dataset_type_valid definition_ = true ->
  doc_getitem definition_ "metadata_type" = inr embedded ->
  metadata_type_valid embedded = true ->
  doc_getitem embedded "name" = inr name ->
  get_metadata_type_by_name (db w) name = None ->
  let w' := snd (DatasetTypeResource.from_doc definition_ w) in
  db w' = add_metadata_type (db w) name embedded true /\
  get_metadata_type_by_name (db w') name =
    Some (mkMetadataTypeRow (next_id (map mtr_id (metadata_type_tbl (db w))))
                            name embedded).
Proof.
  intros Hv Hmt Hmv Hn Hnone. cbv zeta.
  assert (Hdb : db (snd (DatasetTypeResource.from_doc definition_ w)) =
                add_metadata_type (db w) name embedded true).
  { unfold DatasetTypeResource.from_doc. rewrite !bind_eq. rewrite Hv.
    unfold mret, M_ret, ret. cbv beta iota. rewrite bind_eq.
    rewrite Hmt. unfold lift. cbv beta iota. rewrite bind_eq.
    assert (Hadd : db (snd (MetadataTypeResource.add embedded false w)) =
                   add_metadata_type (db w) name embedded true).
    { rewrite metadata_type_add_eq, Hmv, Hn, Hnone.
      match goal with |- context [MetadataTypeResource.get_by_name name ?w1] =>
        destruct (metadata_type_get_by_name_same_store name w1) as (-> & _)
      end.
      reflexivity. }
    destruct embedded; try discriminate.
    destruct (MetadataTypeResource.add _ false w) as [[e|[mt|]] w1];
      simpl in *; exact Hadd. }
  split; [exact Hdb |]. rewrite Hdb.
  unfold get_metadata_type_by_name. simpl. apply find_snoc; [exact Hnone |].
  simpl. now apply bool_decide_eq_true_2.
Qed.

(** *** Reading *)

Lemma reads_only_same_store {A} (m : M A) :
  (forall w, same_store w (snd (m w))) -> reads_only m.
Proof. intros Hm w. destruct (Hm w) as (? & _ & ? & _). auto. Qed.

Lemma reads_only_bind {A B} (m : M A) (k : A -> M B) :
  reads_only m -> (forall a, reads_only (k a)) -> reads_only (m ≫= k).
Proof.
  intros Hm Hk w. rewrite bind_eq. specialize (Hm w).
  destruct (m w) as [[e|a] w1]; simpl in *; [exact Hm |].
  destruct Hm as [<- <-]. apply Hk.
Qed.

Lemma reads_only_ret {A} (a : A) : reads_only (mret a).
Proof. now intros w. Qed.

Lemma reads_only_raise {A} e : reads_only (@raise A e).
Proof. now intros w. Qed.

Lemma reads_only_lift {A} (r : exn + A) : reads_only (lift r).
Proof. now intros w. Qed.

Lemma reads_only_db_read {A} (f : PostgresDb -> A) : reads_only (db_read f).
Proof. now intros w. Qed.

Lemma reads_only_dict_object q : reads_only (dict_object q).
Proof. now intros w. Qed.

Lemma reads_only_dict_store q d : reads_only (dict_store q d).
Proof. now intros w. Qed.

Lemma reads_only_dict_copy q : reads_only (dict_copy q).
Proof. now intros w. Qed.

Lemma reads_only_for_each {X A} (items : list X) (body : A -> X -> M A) acc :
  (forall acc x, reads_only (body acc x)) ->
  reads_only (for_each items body acc).
Proof.
  intros Hb. revert acc. induction items as [| x items IH]; intros acc.
  - apply reads_only_ret.
  - simpl. apply reads_only_bind; auto.
Qed.

Lemma reads_only_dataset_type_make row :
  reads_only (DatasetTypeResource._make row).
Proof. apply reads_only_same_store, dataset_type_make_same_store. Qed.

Lemma reads_only_dataset_make row : reads_only (DatasetResource._make row).
Proof. apply reads_only_same_store, dataset_make_same_store. Qed.

Lemma reads_only_for_get_all {A} (body : A -> DatasetType -> M A) acc :
  (forall acc t, reads_only (body acc t)) ->
  reads_only (DatasetTypeResource.for_get_all body acc).
Proof.
  intros Hb. unfold DatasetTypeResource.for_get_all.
  apply reads_only_bind; [apply reads_only_db_read |]. intros records.
  apply reads_only_for_each. intros acc' record.
  apply reads_only_bind; [apply reads_only_dataset_type_make | auto].
Qed.

Lemma reads_only_for_dataset_types {A} types
    (body : A -> option DatasetType -> M A) acc :
  (forall acc t, reads_only (body acc t)) ->
  reads_only (for_dataset_types types body acc).
Proof.
  intros Hb. destruct types as [elements | field_names]; simpl.
  - now apply reads_only_for_each.
  - unfold DatasetTypeResource.for_get_with_fields.
    apply reads_only_for_get_all. intros acc' t.
    destruct (DatasetTypeResource.has_all_fields t field_names);
      [apply Hb | apply reads_only_ret].
Qed.

Lemma reads_only_get_dataset_types q : reads_only (_get_dataset_types q).
Proof.
  unfold _get_dataset_types.
  apply reads_only_bind; [apply reads_only_dict_object |]. intros keys.
  destruct (dict_mem "product" keys).
  - destruct (dict_get "product" keys) as [product|];
      [| apply reads_only_raise].
    apply reads_only_bind.
    + apply reads_only_same_store, dataset_type_get_by_name_same_store.
    + intros t. apply reads_only_ret.
  - simpl. apply reads_only_ret.
Qed.

Lemma reads_only_pin_and_compile q t : reads_only (pin_and_compile q t).
Proof.
  unfold pin_and_compile, attributes.
  apply reads_only_bind.
  { destruct t; [apply reads_only_ret | apply reads_only_raise]. }
  intros [id_ fields].
  apply reads_only_bind; [apply reads_only_dict_object |]. intros pinned.
  apply reads_only_bind; [apply reads_only_dict_store |]. intros _.
  apply reads_only_bind; [apply reads_only_dict_object |]. intros kwargs.
  apply reads_only_bind; [apply reads_only_lift |]. intros exprs.
  apply reads_only_ret.
Qed.

Lemma reads_only_drop_product q keys :
  reads_only (if dict_mem "product" keys
              then dict_store q (dict_del "product" keys)
              else mret tt).
Proof.
  destruct (dict_mem "product" keys);
    [apply reads_only_dict_store | apply reads_only_ret].
Qed.

Lemma reads_only_do_search {R} query return_fields with_source_ids
    (on_yield : DatasetResult -> M R) :
  (forall row, reads_only (on_yield row)) ->
  reads_only (_do_search query return_fields with_source_ids on_yield).
Proof.
  intros Hy. unfold _do_search.
  apply reads_only_bind; [apply reads_only_dict_copy |]. intros q.
  apply reads_only_bind; [apply reads_only_get_dataset_types |]. intros types.
  apply reads_only_bind; [apply reads_only_dict_object |]. intros keys.
  apply reads_only_bind; [apply reads_only_drop_product |]. intros _.
  apply reads_only_for_dataset_types. intros yielded t.
  apply reads_only_bind; [apply reads_only_pin_and_compile |].
  intros [exprs fields].
  apply reads_only_bind; [apply reads_only_db_read |]. intros found.
  apply reads_only_for_each. intros acc row.
  apply reads_only_bind; [apply Hy |]. intros r. apply reads_only_ret.
Qed.

Lemma reads_only_do_count query : reads_only (_do_count query).
Proof.
  unfold _do_count.
  apply reads_only_bind; [apply reads_only_dict_copy |]. intros q.
  apply reads_only_bind; [apply reads_only_get_dataset_types |]. intros types.
  apply reads_only_bind; [apply reads_only_dict_object |]. intros keys.
  apply reads_only_bind; [apply reads_only_drop_product |]. intros _.
  apply reads_only_for_dataset_types. intros result t.
  apply reads_only_bind; [apply reads_only_pin_and_compile |].
  intros [exprs fields].
  apply reads_only_bind; [apply reads_only_db_read |]. intros n.
  apply reads_only_ret.
Qed.

Lemma reads_only_search mapping : reads_only (search mapping).
Proof.
  unfold search.
  apply reads_only_bind; [apply reads_only_dict_copy |]. intros q.
  apply reads_only_do_search. intros row. apply reads_only_dataset_make.
Qed.

Lemma reads_only_link datasets entry : reads_only (link datasets entry).
Proof.
  unfold link.
  repeat (apply reads_only_bind; [apply reads_only_lift |]; intros ?).
  apply reads_only_ret.
Qed.

Lemma reads_only_get id_ include_sources :
  reads_only (get id_ include_sources).
Proof.
  destruct include_sources.
  - unfold get.
    apply reads_only_bind; [apply reads_only_db_read |]. intros batch.
    apply reads_only_bind.
    { apply reads_only_for_each. intros datasets result.
      apply reads_only_bind; [apply reads_only_dataset_make |]. intros made.
      apply reads_only_ret. }
    intros datasets.
    apply reads_only_bind.
    { apply reads_only_for_each. intros acc entry. apply reads_only_link. }
    intros final.
    destruct (dict_get id_ final); [apply reads_only_ret | apply reads_only_raise].
  - apply reads_only_same_store. apply get_same_store.
Qed.

Lemma reads_only_get_field_names type_name :
  reads_only (get_field_names type_name).
Proof.
  assert (Hnames : forall acc t, reads_only (field_names_of acc t)).
  { intros acc [t|]; [apply reads_only_ret | apply reads_only_raise]. }
  destruct type_name as [name|]; unfold get_field_names.
  - apply reads_only_bind.
    + apply reads_only_same_store, dataset_type_get_by_name_same_store.
    + intros t. now apply reads_only_for_each.
  - apply reads_only_for_get_all. intros acc t. apply Hnames.
Qed.

(** X16: the methods that look things up ([get] with and without
    sources, [has], [get_locations], [get_field_names], the four search
    methods, and the lookups of the two type resources) leave the
    database as it is; they change caches and dict objects only. *)
Theorem reading_methods_never_write
    (id_ : string) (include_sources : bool) (dataset : Dataset)
    (type_name : option doc) (field_names : list string) (mapping : nat)
    (ref : option Z) (name : doc) :
  reads_only (get id_ include_sources) /\
  reads_only (has dataset) /\
  reads_only (get_locations dataset) /\
  reads_only (get_field_names type_name) /\
  reads_only (search mapping) /\
  reads_only (count mapping) /\
  reads_only (search_summaries mapping) /\
  reads_only (search_eager mapping) /\
  reads_only DatasetTypeResource.get_all /\
  reads_only (DatasetTypeResource.get_with_fields field_names) /\
  reads_only (DatasetTypeResource.get ref) /\
  reads_only (DatasetTypeResource.get_by_name name) /\
  reads_only (MetadataTypeResource.get ref) /\
  reads_only (MetadataTypeResource.get_by_name name).
Proof.
  split; [apply reads_only_get |].
  split; [apply reads_only_db_read |].
  split; [apply reads_only_db_read |].
  split; [apply reads_only_get_field_names |].
  split; [apply reads_only_search |].
  split.
  { unfold count.
    apply reads_only_bind; [apply reads_only_dict_copy |]. intros q.
    apply reads_only_do_count. }
  split.
  { unfold search_summaries.
    apply reads_only_bind; [apply reads_only_dict_copy |]. intros q.
    apply reads_only_do_search. intros row. apply reads_only_ret. }
  split.
  { unfold search_eager.
    apply reads_only_bind; [apply reads_only_dict_copy |]. intros q.
    apply reads_only_search. }
  split.
  { apply reads_only_for_get_all. intros acc t. apply reads_only_ret. }
  split.
  { unfold DatasetTypeResource.get_with_fields,
      DatasetTypeResource.for_get_with_fields.
    apply reads_only_for_get_all. intros acc t.
    destruct (DatasetTypeResource.has_all_fields t field_names);
      apply reads_only_ret. }
  split; [apply reads_only_same_store, dataset_type_get_same_store |].
  split; [apply reads_only_same_store, dataset_type_get_by_name_same_store |].
  split; [apply reads_only_same_store, metadata_type_get_same_store |].
  apply reads_only_same_store, metadata_type_get_by_name_same_store.
Qed.
End More.

(** * The further properties on the sample catalogue *)

Lemma get_after_add_returns_stored_document_witness :
  DatasetResource.has Sample.nbar Sample.after_nbar
    = (inr true, Sample.after_nbar) /\
  exists existing w'',
    @DatasetResource.get Sample.collaborators "nbar" false Sample.after_nbar
      = (inr existing, w'') /\
    ds_id existing = "nbar" /\
    metadata_doc existing = Sample.document "nbar" "LANDSAT_8" [] /\
    sources existing = [] /\
    db w'' = db Sample.after_nbar.
Proof.
  refine (get_after_add_returns_stored_document (H := Sample.collaborators)
            Sample.nbar Sample.nbar false Sample.world Sample.after_nbar
            _ _).
  - vm_compute. reflexivity.
  - vm_compute. reflexivity.
Defined.

Lemma add_stops_at_first_failing_source_witness :
  @DatasetResource.add Sample.collaborators Sample.mosaic false Sample.world
    = (Some (KeyError "lineage"), Sample.mosaic, Sample.after_raw) /\
  Forall (fun cs => Forall (indexed (db Sample.after_raw))
                           (snd cs :: descendants (snd cs)))
         [("raw", Sample.raw)].
Proof.
  refine (add_stops_at_first_failing_source (H := Sample.collaborators)
            Sample.mosaic [("raw", Sample.raw)] [("anc", Sample.ancillary)]
            "bad" Sample.unreadable Sample.unreadable (KeyError "lineage")
            Sample.world Sample.after_raw Sample.after_raw _ _ _).
  - reflexivity.
  - vm_compute. reflexivity.
  - vm_compute. reflexivity.
Defined.

Lemma replace_leaves_other_datasets_witness :
  find_dataset
    (db (snd (@DatasetResource.replace Sample.collaborators
                [Sample.raw] [] Sample.after_nbar))) "nbar"
  = Some (mkDatasetRow "nbar" (Some 1)
            (Sample.document "nbar" "LANDSAT_8" []) false).
Proof.
  refine (replace_leaves_other_datasets (H := Sample.collaborators)
            [Sample.raw] [] Sample.after_nbar "nbar" _ _ _).
  - vm_compute. reflexivity.
  - simpl. intros [Heq | []]. discriminate Heq.
Defined.

Lemma get_with_sources_holds_its_batch_witness :
  pg_root Sample.graph_of_nbar = "nbar" /\
  In "nbar" (map res_id (Sample.batch_of (db Sample.after_nbar) "nbar")) /\
  forall key,
    is_Some (dict_get key (pg_datasets Sample.graph_of_nbar)) <->
    In key (map res_id (Sample.batch_of (db Sample.after_nbar) "nbar")).
Proof.
  refine (get_with_sources_holds_its_batch (H := Sample.collaborators)
            "nbar" Sample.after_nbar
            (snd (@DatasetResource.get Sample.collaborators "nbar" true
                    Sample.after_nbar))
            Sample.graph_of_nbar _).
  vm_compute. reflexivity.
Defined.

Lemma search_of_unregistered_product_raises_witness :
  let w := Sample.holding Sample.unknown_product_query Sample.after_nbar in
  fst (@DatasetResource.count Sample.collaborators 0 w) = inl no_type /\
  fst (@DatasetResource.search Sample.collaborators 0 w) = inl no_type /\
  fst (@DatasetResource.search_summaries Sample.collaborators 0 w)
    = inl no_type /\
  fst (@DatasetResource.search_eager Sample.collaborators 0 w) = inl no_type.
Proof.
  refine (search_of_unregistered_product_raises (H := Sample.collaborators)
            0 (QValue (DStr "ls5_nbar"))
            (Sample.holding Sample.unknown_product_query Sample.after_nbar)
            _ _).
  - reflexivity.
  - vm_compute. reflexivity.
Defined.

Lemma count_of_product_pins_its_type_witness :
  fst (@DatasetResource.count Sample.collaborators 0
         (Sample.holding Sample.product_query Sample.after_nbar)) = inr 3.
Proof.
  refine (count_of_product_pins_its_type (H := Sample.collaborators)
            0 (QValue (DStr "ls8_nbar")) Sample.ls8
            (Sample.holding Sample.product_query Sample.after_nbar) _ _).
  - reflexivity.
  - vm_compute. reflexivity.
Defined.

Lemma get_field_names_lists_the_fields_of_each_type_witness :
  fst (@DatasetResource.get_field_names Sample.collaborators
         (Some (DStr "ls8_nbar")) Sample.world)
    = inr ["id"; "dataset_type_id"; "platform"] /\
  fst (@DatasetResource.get_field_names Sample.collaborators
         (Some (DStr "ls5_nbar")) Sample.world)
    = inl (AttributeError
             "'NoneType' object has no attribute 'metadata_type'").
Proof.
  split.
  - exact (proj1 (get_field_names_lists_the_fields_of_each_type
                    (H := Sample.collaborators) (DStr "ls8_nbar")
                    (Some Sample.ls8) Sample.world eq_refl)).
  - exact (proj1 (get_field_names_lists_the_fields_of_each_type
                    (H := Sample.collaborators) (DStr "ls5_nbar")
                    None Sample.world eq_refl)).
Defined.

Lemma from_doc_by_name_only_reads_witness :
  db (snd (@DatasetTypeResource.from_doc Sample.collaborators
             Sample.ls8_definition Sample.world)) = db Sample.world /\
  fst (@DatasetTypeResource.from_doc Sample.collaborators
         Sample.ls8_definition Sample.world)
    = inr (mkDatasetType Sample.eo Sample.ls8_definition None) /\
  fst (@DatasetTypeResource.from_doc Sample.collaborators
         Sample.ls8_definition Sample.empty_world)
    = inl (InvalidDocException "Unknown metadata type").
Proof.
  split; [| split].
  - exact (proj1 (from_doc_by_name_only_reads (H := Sample.collaborators)
                    Sample.ls8_definition "eo" Sample.world eq_refl)).
  - exact (proj2 (from_doc_by_name_only_reads (H := Sample.collaborators)
                    Sample.ls8_definition "eo" Sample.world eq_refl)
                 eq_refl).
  - exact (proj2 (from_doc_by_name_only_reads (H := Sample.collaborators)
                    Sample.ls8_definition "eo" Sample.empty_world eq_refl)
                 eq_refl).
Defined.

Lemma from_doc_registers_embedded_metadata_type_witness :
  let w' := snd (@DatasetTypeResource.from_doc Sample.collaborators
                   Sample.ls7_definition Sample.empty_world) in
  db w' = mkPostgresDb
            [mkMetadataTypeRow 1 (DStr "eo") Sample.eo_definition]
            [] [] [] [] /\
  get_metadata_type_by_name (db w') (DStr "eo")
    = Some (mkMetadataTypeRow 1 (DStr "eo") Sample.eo_definition).
Proof.
  exact (from_doc_registers_embedded_metadata_type
           (H := Sample.collaborators)
           Sample.ls7_definition Sample.eo_definition (DStr "eo")
           Sample.empty_world eq_refl eq_refl eq_refl eq_refl eq_refl).
Defined.

Lemma add_document_again_changes_nothing_witness :
  db (snd (@DatasetTypeResource.add_document Sample.collaborators
             Sample.ls7_definition (tick 3600 Sample.after_ls7)))
    = db Sample.after_ls7 /\
  fst (@DatasetTypeResource.add_document Sample.collaborators
         Sample.ls7_definition Sample.after_ls7) = inr Sample.ls7.
Proof.
  refine (let again :=
            add_document_again_changes_nothing (H := Sample.collaborators)
              Sample.ls7_definition Sample.empty_world Sample.after_ls7
              Sample.ls7 _ in
          conj (proj1 again 3600%nat) (proj2 again)).
  vm_compute. reflexivity.
Defined.

(** The registry and the datasets after [add_document] of the product
    with its embedded metadata type. *)
Example add_document_registers_both :
  db Sample.after_ls7 =
  mkPostgresDb
    [mkMetadataTypeRow 1 (DStr "eo") Sample.eo_definition]
    [mkDatasetTypeRow 1 (DStr "ls7_nbar")
       (DDict [("platform", DStr "LANDSAT_7")]) (Some 1)
       Sample.ls7_definition]
    [] [] [].
Proof. vm_compute. reflexivity. Qed.

(** ** C5 and C4 on the sample catalogue *)

(** [pq], [nbar], [raw] and [anc] can all be inserted into the
    catalogue, which holds no dataset: [add(pq)] returns. *)
Lemma add_indexes_sources_first_witness :
  insertable (db Sample.world) (tree Sample.pq) = true /\
  fst (fst (@DatasetResource.add Sample.collaborators Sample.pq false
              Sample.world)) = None.
Proof.
  split; [vm_compute; reflexivity |].
  refine (proj2 (add_indexes_sources_first (H := Sample.collaborators)
                   Sample.pq Sample.world) _).
  vm_compute. reflexivity.
Defined.

(** Where [raw] is indexed, [replace([raw], [anc])] returns, with [raw]
    archived and [anc] indexed; and after [add(nbar)],
    [replace([raw], [nbar_changed])] raises and leaves the database as
    it was. *)
Lemma replace_is_one_transaction_witness :
  (fst (fst (@DatasetResource.replace Sample.collaborators
               [Sample.raw] [Sample.ancillary] Sample.after_raw)) = None /\
   (exists row,
       find_dataset
         (db (snd (@DatasetResource.replace Sample.collaborators
                     [Sample.raw] [Sample.ancillary] Sample.after_raw)))
         "raw" = Some row /\
       dsr_archived row = true) /\
   contains_dataset
     (db (snd (@DatasetResource.replace Sample.collaborators
                 [Sample.raw] [Sample.ancillary] Sample.after_raw)))
     "anc" = true) /\
  (fst (fst (@DatasetResource.replace Sample.collaborators
               [Sample.raw] [Sample.nbar_changed] Sample.after_nbar))
     = Some (ConflictError "Dataset " (DStr "nbar")) /\
   db (snd (@DatasetResource.replace Sample.collaborators
              [Sample.raw] [Sample.nbar_changed] Sample.after_nbar))
     = db Sample.after_nbar).
Proof.
  split.
  - assert (Hrun := replace_is_one_transaction (H := Sample.collaborators)
                      [Sample.raw] [Sample.ancillary] Sample.after_raw).
    cbv zeta in Hrun.
    destruct Hrun as (_ & _ & _ & _ & Hdone & Hgoes).
    assert (Hnone := Hgoes ltac:(vm_compute; reflexivity)).
    destruct (Hdone Hnone) as (_ & Hold & Hnew).
    split; [exact Hnone |]. split.
    + apply (Hold Sample.raw
               (mkDatasetRow "raw" (Some 1)
                  (Sample.document "raw" "LANDSAT_8" []) false)).
      * now left.
      * vm_compute. reflexivity.
    + apply (Hnew Sample.ancillary). now left.
  - split; [vm_compute; reflexivity |].
    assert (Hrun := replace_is_one_transaction (H := Sample.collaborators)
                      [Sample.raw] [Sample.nbar_changed] Sample.after_nbar).
    cbv zeta in Hrun.
    destruct Hrun as (_ & _ & _ & Hraised & _).
    apply Hraised. vm_compute. discriminate.
Defined.

(** A lookup of the product before it is registered leaves "not found"
    in the cache of [get_by_name]: [add_document] then returns None, and
    again None at once, and the registered type once the entry has
    expired; the database stays as the first call left it. *)
Example add_document_after_expiry :
  let w0 := snd (@DatasetTypeResource.get_by_name Sample.collaborators
                   (DStr "ls7_nbar") Sample.empty_world) in
  let w1 := snd (@DatasetTypeResource.add_document Sample.collaborators
                   Sample.ls7_definition w0) in
  fst (@DatasetTypeResource.add_document Sample.collaborators
         Sample.ls7_definition w0) = inr None /\
  fst (@DatasetTypeResource.add_document Sample.collaborators
         Sample.ls7_definition w1) = inr None /\
  fst (@DatasetTypeResource.add_document Sample.collaborators
         Sample.ls7_definition (tick 60 w1)) = inr Sample.ls7 /\
  db (snd (@DatasetTypeResource.add_document Sample.collaborators
             Sample.ls7_definition (tick 60 w1))) = db w1.
Proof. vm_compute. repeat split; reflexivity. Qed.
